(** * The chat store client ([api/clients/postgres.py]): model and properties

    [PostgresChatClient] is a thin, stateful wrapper around one database
    connection.  The model below follows the Python text method by method.

    - The client object ([self]) and the store it talks to are one [state]
      record that every method threads through.
    - A method is a computation in the monad [M]: it takes the state, and
      gives a [result] (a value, or the exception that was raised), the new
      state and the list of [event]s it caused (store round trips, sleeps,
      log records), oldest first.
    - The store is not reliable: [faults] is the schedule of errors the
      environment injects, indexed by the number of round trips made so far.
    - What the Python standard library and the driver compute ([json.dumps],
      [json.loads], [datetime.isoformat], [datetime.timestamp], the decoding
      of a JSONB column) is a parameter, the record [platform]. *)

From Stdlib Require Import String Ascii List ZArith QArith Qminmax Qabs Bool Lia.
From Stdlib Require Import Permutation Sorted DecimalString DecimalPos.
Import ListNotations.
Set Warnings "-register-all".
Local Close Scope Q_scope.
Local Open Scope string_scope.
Local Open Scope list_scope.

(** ** Values *)

(** A naive UTC [datetime], as microseconds since the epoch (the resolution
    of both Python's [datetime] and the store's TIMESTAMP). *)
Definition datetime := Z.

(** A Python value that [json] can write: the type of [metadata]. *)
Inductive json : Type :=
| JNull
| JBool (b : bool)
| JNum (n : Z)
| JStr (s : string)
| JArr (items : list json)
| JObj (members : list (string * json)).

(** Python truthiness, as used by [metadata or {}]. *)
Definition truthy (v : json) : bool :=
  match v with
  | JNull => false
  | JBool b => b
  | JNum n => negb (n =? 0)%Z
  | JStr s => negb (String.length s =? 0)%nat
  | JArr items => negb (length items =? 0)%nat
  | JObj members => negb (length members =? 0)%nat
  end.

(** [metadata or {}] with [metadata: Dict[str, Any] = None]. *)
Definition or_empty (metadata : option json) : json :=
  match metadata with
  | Some v => if truthy v then v else JObj []
  | None => JObj []
  end.

(** The library functions the client calls. *)
Record platform : Type := {
  (** [json.dumps] *)
  json_dumps : json -> string;
  (** [json.loads]; [None] is a [JSONDecodeError] *)
  json_loads : string -> option json;
  (** the Python object the driver hands back for a JSONB column into which
      the given text was written *)
  jsonb_fetch : string -> json;
  (** [datetime.isoformat] *)
  isoformat : datetime -> string;
  (** [int(now.timestamp() * 1000)] *)
  epoch_millis : datetime -> Z
}.

(** ** Exceptions *)

Inductive exn : Type :=
| OperationalError (code : nat)      (* psycopg: cannot connect, connection lost *)
| ConnectionClosedError              (* psycopg.OperationalError: "the connection is closed" *)
| DatabaseError (code : nat)         (* psycopg: any other error of a statement *)
| UniqueViolation                    (* primary key *)
| ForeignKeyViolation                (* REFERENCES chats(id) *)
| StringDataRightTruncation          (* VARCHAR(n) *)
| NumericValueOutOfRange             (* BIGINT *)
| JSONDecodeError                    (* json.loads *)
| AttributeError                     (* attribute access on None *)
| ChatNotFound (chat_id : string)    (* ValueError("Chat with ID ... not found") *)
| NotAvailable (max_retries : Z).    (* Exception("... not available after ... attempts") *)

Inductive result (A : Type) : Type :=
| Ok (a : A)
| Raise (e : exn).
Arguments Ok {A} a.
Arguments Raise {A} e.

(** ** The store: two tables *)

Record chat_row : Type := {
  chat_id : string;
  chat_created_at : datetime;
  chat_updated_at : datetime;
  chat_metadata : string
}.

Record message_row : Type := {
  msg_id : Z;
  msg_chat_id : string;
  msg_role : string;
  msg_content : string;
  msg_created_at : datetime;
  msg_metadata : string
}.

Record database : Type := {
  chats : list chat_row;
  messages : list message_row
}.

(** The statements the client sends. *)
Inductive statement : Type :=
| CreateSchema
| CreateTableChats
| CreateTableMessages
| CreateIndexChatId
| CreateIndexCreatedAt
| Select1
| InsertChat (id : string) (created_at updated_at : datetime) (metadata : string)
| UpdateChat (updated_at : datetime) (id : string)
| InsertMessage (id : Z) (chat : string) (role content : string)
    (created_at : datetime) (metadata : string)
| SelectChat (id : string)
| SelectMessages (chat : string)
| DeleteChat (id : string).

(** What a cursor holds after [execute]. *)
Inductive cursor : Type :=
| Status (rowcount : nat)
| Scalars (rows : list Z)
| ChatRows (rows : list chat_row)
| MessageRows (rows : list message_row).

Definition has_chat (id : string) (d : database) : bool :=
  existsb (fun c => String.eqb (chat_id c) id) (chats d).

Definition has_message (chat : string) (id : Z) (d : database) : bool :=
  existsb (fun m => String.eqb (msg_chat_id m) chat && (msg_id m =? id)%Z)
          (messages d).

Fixpoint all_spaces (s : string) : bool :=
  match s with
  | EmptyString => true
  | String c rest => Ascii.eqb c " "%char && all_spaces rest
  end.

(** Storing a string into VARCHAR(n): an error when it is too long, unless
    the excess is spaces only, which are cut off. *)
Definition varchar (n : nat) (s : string) : option string :=
  if (String.length s <=? n)%nat then Some s
  else if all_spaces (substring n (String.length s - n) s)
       then Some (substring 0 n s)
       else None.

Definition in_bigint (z : Z) : bool :=
  ((- 2 ^ 63 <=? z) && (z <? 2 ^ 63))%Z.

(** ORDER BY created_at ASC, as a stable insertion sort. *)
Fixpoint insert_by_created_at (m : message_row) (l : list message_row)
  : list message_row :=
  match l with
  | [] => [m]
  | x :: rest =>
      if (msg_created_at m <=? msg_created_at x)%Z then m :: x :: rest
      else x :: insert_by_created_at m rest
  end.

Definition order_by_created_at (l : list message_row) : list message_row :=
  fold_right insert_by_created_at [] l.

Definition of_chat (chat : string) (m : message_row) : bool :=
  String.eqb (msg_chat_id m) chat.

Definition not_chat (id : string) (c : chat_row) : bool :=
  negb (String.eqb (chat_id c) id).

Definition touch (now : datetime) (id : string) (c : chat_row) : chat_row :=
  if String.eqb (chat_id c) id
  then {| chat_id := chat_id c; chat_created_at := chat_created_at c;
          chat_updated_at := now; chat_metadata := chat_metadata c |}
  else c.

(** The effect of a statement on the tables when the store executes it. *)
Definition run_statement (q : statement) (d : database)
  : result cursor * database :=
  match q with
  | CreateSchema | CreateTableChats | CreateTableMessages
  | CreateIndexChatId | CreateIndexCreatedAt => (Ok (Status 0), d)
  | Select1 => (Ok (Scalars [1%Z]), d)
  | InsertChat id created updated metadata =>
      match varchar 36 id with
      | None => (Raise StringDataRightTruncation, d)
      | Some id' =>
          if has_chat id' d then (Raise UniqueViolation, d)
          else (Ok (Status 1),
                {| chats := chats d ++
                     [{| chat_id := id'; chat_created_at := created;
                         chat_updated_at := updated;
                         chat_metadata := metadata |}];
                   messages := messages d |})
      end
  | UpdateChat now id =>
      (Ok (Status (length (filter (fun c => String.eqb (chat_id c) id) (chats d)))),
       {| chats := map (touch now id) (chats d); messages := messages d |})
  | InsertMessage id chat role content created metadata =>
      match varchar 36 chat, varchar 50 role with
      | Some chat', Some role' =>
          if negb (in_bigint id) then (Raise NumericValueOutOfRange, d)
          else if has_message chat' id d then (Raise UniqueViolation, d)
          else if negb (has_chat chat' d) then (Raise ForeignKeyViolation, d)
          else (Ok (Status 1),
                {| chats := chats d;
                   messages := messages d ++
                     [{| msg_id := id; msg_chat_id := chat'; msg_role := role';
                         msg_content := content; msg_created_at := created;
                         msg_metadata := metadata |}] |})
      | _, _ => (Raise StringDataRightTruncation, d)
      end
  | SelectChat id =>
      (Ok (ChatRows (filter (fun c => String.eqb (chat_id c) id) (chats d))), d)
  | SelectMessages chat =>
      (Ok (MessageRows (order_by_created_at (filter (of_chat chat) (messages d)))), d)
  | DeleteChat id =>
      (Ok (Status (length (filter (fun c => String.eqb (chat_id c) id) (chats d)))),
       {| chats := filter (not_chat id) (chats d);
          messages := filter (fun m => negb (of_chat id m)) (messages d) |})
  end.

(** ** The client object and its environment *)

Inductive connection : Type :=
| ConnOpen
| ConnClosed.

Record state : Type := {
  (** [self.conn]: [None], or a handle with its [closed] attribute *)
  conn : option connection;
  (** [self._is_query_service_ready] *)
  is_query_service_ready : bool;
  (** [self._tables_created] *)
  tables_created : bool;
  (** the rows held by the store *)
  db : database;
  (** the error the environment injects into the n-th round trip, and
      whether the connection is closed by it *)
  faults : nat -> option (exn * bool);
  (** round trips made so far *)
  ticks : nat
}.

Definition set_conn (c : option connection) (s : state) : state :=
  {| conn := c; is_query_service_ready := is_query_service_ready s;
     tables_created := tables_created s; db := db s;
     faults := faults s; ticks := ticks s |}.

Definition set_is_query_service_ready (b : bool) (s : state) : state :=
  {| conn := conn s; is_query_service_ready := b;
     tables_created := tables_created s; db := db s;
     faults := faults s; ticks := ticks s |}.

Definition set_tables_created (b : bool) (s : state) : state :=
  {| conn := conn s; is_query_service_ready := is_query_service_ready s;
     tables_created := b; db := db s;
     faults := faults s; ticks := ticks s |}.

Definition set_db (d : database) (s : state) : state :=
  {| conn := conn s; is_query_service_ready := is_query_service_ready s;
     tables_created := tables_created s; db := d;
     faults := faults s; ticks := ticks s |}.

Definition tick (s : state) : state :=
  {| conn := conn s; is_query_service_ready := is_query_service_ready s;
     tables_created := tables_created s; db := db s;
     faults := faults s; ticks := S (ticks s) |}.

(** ** Events *)

Inductive level : Type := INFO | WARNING | ERROR.

(** The log records of the module, one constructor per format string. *)
Inductive log_msg : Type :=
| TablesNotReadyYet (e : exn)
| ConnectedToDatabase
| ConnectionFailed (e : exn)
| TablesInitialized
| ErrorInitializingTables (e : exn)
| DatabaseIsReady
| NotAvailableYet (attempt max_retries : Z) (delay : Q) (e : exn)
| CreatedChat (id : string)
| FailedToCreateChat (e : exn)
| AddedMessage (id : Z) (chat : string)
| FailedToAddMessage (e : exn)
| FailedToGetChat (e : exn)
| FailedToGetMessages (e : exn)
| DeletedChat (id : string)
| FailedToDeleteChat
| ConnectionClosed.

Inductive event : Type :=
| EvConnect (err : option exn)                   (* psycopg.connect *)
| EvExecute (q : statement) (err : option exn)   (* cursor.execute *)
| EvSleep (seconds : Q)                          (* time.sleep *)
| EvLog (lvl : level) (msg : log_msg).           (* logger.* *)

(** ** The monad of methods *)

Definition M (A : Type) : Type := state -> result A * state * list event.

Definition ret {A} (a : A) : M A := fun s => (Ok a, s, []).

Definition raise {A} (e : exn) : M A := fun s => (Raise e, s, []).

Definition bind {A B} (m : M A) (k : A -> M B) : M B :=
  fun s =>
    match m s with
    | (Ok a, s1, ev1) =>
        match k a s1 with
        | (r, s2, ev2) => (r, s2, ev1 ++ ev2)
        end
    | (Raise e, s1, ev1) => (Raise e, s1, ev1)
    end.

(** [try: m  except Exception as e: handler e] *)
Definition try_except {A} (m : M A) (handler : exn -> M A) : M A :=
  fun s =>
    match m s with
    | (Ok a, s1, ev1) => (Ok a, s1, ev1)
    | (Raise e, s1, ev1) =>
        match handler e s1 with
        | (r, s2, ev2) => (r, s2, ev1 ++ ev2)
        end
    end.

Definition get : M state := fun s => (Ok s, s, []).

Definition modify (f : state -> state) : M unit := fun s => (Ok tt, f s, []).

Definition emit (e : event) : M unit := fun s => (Ok tt, s, [e]).

Definition log (lvl : level) (msg : log_msg) : M unit := emit (EvLog lvl msg).

(** [time.sleep(seconds)]; the delays of the backoff are not negative. *)
Definition sleep (seconds : Q) : M unit := emit (EvSleep seconds).

Declare Scope method_scope.
Delimit Scope method_scope with method.
Notation "x <- m ;; k" := (bind m (fun x => k))
  (at level 100, m at next level, right associativity) : method_scope.
Notation "m ;; k" := (bind m (fun _ => k))
  (at level 100, right associativity) : method_scope.
Local Open Scope method_scope.

Definition result_of {A} (r : result A * state * list event) : result A :=
  fst (fst r).
Definition state_of {A} (r : result A * state * list event) : state :=
  snd (fst r).
Definition events_of {A} (r : result A * state * list event) : list event :=
  snd r.

(** ** The driver *)

(** [psycopg.connect(..., autocommit=True)]: one round trip.  When it raises,
    the assignment to [self.conn] does not happen. *)
Definition psycopg_connect : M unit :=
  fun s =>
    match faults s (ticks s) with
    | Some (e, _) => (Raise e, tick s, [EvConnect (Some e)])
    | None => (Ok tt, set_conn (Some ConnOpen) (tick s), [EvConnect None])
    end.

(** [with self.conn.cursor() as cursor: cursor.execute(q)].  A closed handle
    raises before anything is sent; otherwise the statement is one round
    trip, which the environment may fail (the rows are then as before), and
    which the store may reject. *)
Definition execute (q : statement) : M cursor :=
  fun s =>
    match conn s with
    | None => (Raise AttributeError, s, [EvExecute q (Some AttributeError)])
    | Some ConnClosed =>
        (Raise ConnectionClosedError, s, [EvExecute q (Some ConnectionClosedError)])
    | Some ConnOpen =>
        match faults s (ticks s) with
        | Some (e, drops) =>
            (Raise e,
             set_conn (Some (if drops then ConnClosed else ConnOpen)) (tick s),
             [EvExecute q (Some e)])
        | None =>
            match run_statement q (db s) with
            | (Ok c, d) => (Ok c, set_db d (tick s), [EvExecute q None])
            | (Raise e, d) => (Raise e, set_db d (tick s), [EvExecute q (Some e)])
            end
        end
    end.

(** [cursor.fetchone()] on a SELECT over chats. *)
Definition fetchone (c : cursor) : option chat_row :=
  match c with
  | ChatRows (r :: _) => Some r
  | _ => None
  end.

(** [cursor.fetchall()] on a SELECT over messages. *)
Definition fetchall (c : cursor) : list message_row :=
  match c with
  | MessageRows rows => rows
  | _ => []
  end.

(** [cursor.rowcount] *)
Definition rowcount (c : cursor) : nat :=
  match c with
  | Status n => n
  | Scalars rows => length rows
  | ChatRows rows => length rows
  | MessageRows rows => length rows
  end.

(** ** What the read methods return *)

(** The dict [get_chat] returns, keys [id], [created_at], [updated_at],
    [metadata]. *)
Record chat_view : Type := {
  c_id : string;
  c_created_at : string;
  c_updated_at : string;
  c_metadata : json
}.

(** One dict of the list [get_messages] returns. *)
Record message_view : Type := {
  m_id : Z;
  m_chat_id : string;
  m_role : string;
  m_content : string;
  m_created_at : string;
  m_metadata : json
}.

(** ** The methods of [PostgresChatClient] *)

Section Client.

Variable P : platform.

(** Lines 58 to 107 of [init]: the part after the connection check. *)
Definition init_tables : M unit :=
  s <- get ;;
  if tables_created s then ret tt
  else
    try_except
      (execute CreateSchema ;;
       execute CreateTableChats ;;
       execute CreateTableMessages ;;
       execute CreateIndexChatId ;;
       execute CreateIndexCreatedAt ;;
       modify (set_tables_created true) ;;
       log INFO TablesInitialized)
      (fun e => log ERROR (ErrorInitializingTables e) ;; raise e).

(** [connect].  Its call of [self.init()] happens right after [self.conn]
    was assigned, so the connection check of [init] is false there and the
    call is [init_tables]. *)
Definition connect : M unit :=
  try_except
    (psycopg_connect ;;
     try_except init_tables
       (fun init_err => log WARNING (TablesNotReadyYet init_err)) ;;
     log INFO ConnectedToDatabase)
    (fun conn_err => log WARNING (ConnectionFailed conn_err) ;; raise conn_err).

(** [init] *)
Definition init : M unit :=
  s <- get ;;
  match conn s with
  | None => connect
  | Some _ => ret tt
  end ;;
  init_tables.

(** The body of the [try] in the loop of [await_up]. *)
Definition probe : M unit :=
  execute Select1 ;;
  modify (set_is_query_service_ready true) ;;
  log INFO DatabaseIsReady.

(** The inner [try] of the handler: [if self.conn.closed: self.connect()],
    any exception dropped. *)
Definition reconnect : M unit :=
  try_except
    (s <- get ;;
     match conn s with
     | None => raise AttributeError
     | Some ConnClosed => connect
     | Some ConnOpen => ret tt
     end)
    (fun _ => ret tt).

(** [min(max_delay, delay * 1.5)].  Delays are exact rationals; on the
    default policy (1.0, 1.5, 2.25, ... capped at 10.0) every value is one a
    float holds exactly. *)
Definition next_delay (max_delay delay : Q) : Q :=
  Qmin max_delay (delay * (3 # 2))%Q.

(** The [for attempt in range(1, max_retries + 1)] loop of [await_up], with
    [remaining] attempts to go, and the [raise] after it. *)
Fixpoint await_loop (max_retries : Z) (max_delay : Q)
  (remaining : nat) (attempt : Z) (delay : Q) : M unit :=
  match remaining with
  | O => raise (NotAvailable max_retries)
  | S k =>
      try_except probe
        (fun e =>
           log WARNING (NotAvailableYet attempt max_retries delay e) ;;
           sleep delay ;;
           reconnect ;;
           await_loop max_retries max_delay k (attempt + 1)%Z
                      (next_delay max_delay delay))
  end.

(** [await_up(max_retries, initial_delay, max_delay)] *)
Definition await_up (max_retries : Z) (initial_delay max_delay : Q) : M unit :=
  s <- get ;;
  if is_query_service_ready s then ret tt
  else
    (match conn s with
     | None => connect
     | Some _ => ret tt
     end ;;
     await_loop max_retries max_delay (Z.to_nat max_retries) 1%Z initial_delay).

(** [await_up()] with the defaults of its signature. *)
Definition await_up_default : M unit := await_up 30%Z 1%Q 10%Q.

(** [if not self.conn or self.conn.closed: self.connect()] *)
Definition ensure_connected : M unit :=
  s <- get ;;
  match conn s with
  | Some ConnOpen => ret tt
  | _ => connect
  end.

(** [create_chat(metadata)]; [fresh_id] is [str(uuid.uuid4())] and [now] is
    [datetime.utcnow()]. *)
Definition create_chat_try (fresh_id : string) (now : datetime)
  (metadata : option json) : M string :=
  try_except
    (execute (InsertChat fresh_id now now (json_dumps P (or_empty metadata))) ;;
     log INFO (CreatedChat fresh_id) ;;
     ret fresh_id)
    (fun e => log ERROR (FailedToCreateChat e) ;; raise e).

Definition create_chat (fresh_id : string) (now : datetime)
  (metadata : option json) : M string :=
  ensure_connected ;;
  init ;;
  create_chat_try fresh_id now metadata.

(** [if isinstance(v, str): v = json.loads(v)] on the fetched column. *)
Definition decode_metadata (stored : string) : M json :=
  match jsonb_fetch P stored with
  | JStr text =>
      match json_loads P text with
      | Some v => ret v
      | None => raise JSONDecodeError
      end
  | v => ret v
  end.

(** The [try] statement of [get_chat]: the lookup. *)
Definition get_chat_try (id : string) : M (option chat_view) :=
  try_except
    (cur <- execute (SelectChat id) ;;
     match fetchone cur with
     | None => ret None
     | Some row =>
         metadata <- decode_metadata (chat_metadata row) ;;
         ret (Some {| c_id := chat_id row;
                      c_created_at := isoformat P (chat_created_at row);
                      c_updated_at := isoformat P (chat_updated_at row);
                      c_metadata := metadata |})
     end)
    (fun e => log WARNING (FailedToGetChat e) ;; ret None).

(** [get_chat(chat_id)] *)
Definition get_chat (id : string) : M (option chat_view) :=
  ensure_connected ;;
  init ;;
  get_chat_try id.

(** The [try] statement of [add_message]; [now] is [datetime.utcnow()]. *)
Definition add_message_try (now : datetime) (id : string) (role content : string)
  (metadata : option json) : M (Z * string) :=
  try_except
    (chat <- get_chat id ;;
     match chat with
     | None => raise (ChatNotFound id)
     | Some _ =>
         execute (UpdateChat now id) ;;
         let message_id := epoch_millis P now in
         execute (InsertMessage message_id id role content now
                    (json_dumps P (or_empty metadata))) ;;
         log INFO (AddedMessage message_id id) ;;
         ret (message_id, isoformat P now)
     end)
    (fun e => log ERROR (FailedToAddMessage e) ;; raise e).

(** [add_message(chat_id, role, content, metadata)] *)
Definition add_message (now : datetime) (id : string) (role content : string)
  (metadata : option json) : M (Z * string) :=
  ensure_connected ;;
  init ;;
  add_message_try now id role content metadata.

(** The [for row in cursor.fetchall()] loop of [get_messages]. *)
Fixpoint convert_rows (rows : list message_row) : M (list message_view) :=
  match rows with
  | [] => ret []
  | row :: rest =>
      metadata <- decode_metadata (msg_metadata row) ;;
      views <- convert_rows rest ;;
      ret ({| m_id := msg_id row; m_chat_id := msg_chat_id row;
              m_role := msg_role row; m_content := msg_content row;
              m_created_at := isoformat P (msg_created_at row);
              m_metadata := metadata |} :: views)
  end.

(** The [try] statement of [get_messages]. *)
Definition get_messages_try (id : string) : M (list message_view) :=
  try_except
    (cur <- execute (SelectMessages id) ;;
     convert_rows (fetchall cur))
    (fun e => log ERROR (FailedToGetMessages e) ;; raise e).

(** [get_messages(chat_id)] *)
Definition get_messages (id : string) : M (list message_view) :=
  ensure_connected ;;
  init ;;
  await_up_default ;;
  get_messages_try id.

(** The [try] statement of [delete_chat]. *)
Definition delete_chat_try (id : string) : M bool :=
  try_except
    (chat <- get_chat id ;;
     match chat with
     | None => ret false
     | Some _ =>
         cur <- execute (DeleteChat id) ;;
         if (0 <? rowcount cur)%nat
         then log INFO (DeletedChat id) ;; ret true
         else ret false
     end)
    (fun e => log ERROR FailedToDeleteChat ;; raise e).

(** [delete_chat(chat_id)] *)
Definition delete_chat (id : string) : M bool :=
  ensure_connected ;;
  init ;;
  await_up_default ;;
  delete_chat_try id.

(** [close] *)
Definition close : M unit :=
  s <- get ;;
  match conn s with
  | Some ConnOpen => modify (set_conn (Some ConnClosed)) ;; log INFO ConnectionClosed
  | _ => ret tt
  end.

End Client.

(** ** A concrete platform

    To run the model, the library functions need definitions.  [Concrete]
    gives them for documents built from [null], booleans, integers,
    strings, lists and dicts: [dumps] writes the text as [json.dumps] does
    for printable ASCII (separators [", "] and [": "], the quote and the
    backslash escaped), [loads] reads it back, the driver decodes a JSONB
    column with [loads], [isoformat] prints [YYYY-MM-DDTHH:MM:SS[.ffffff]]
    and the millisecond stamp truncates toward zero as [int] does. *)

Module Concrete.

Local Open Scope string_scope.

Definition dquote : ascii := ascii_of_nat 34.

Definition show_Z (z : Z) : string := NilZero.string_of_int (Z.to_int z).

Fixpoint escape (s : string) : string :=
  match s with
  | EmptyString => EmptyString
  | String c rest =>
      if Ascii.eqb c dquote || Ascii.eqb c "\"%char
      then String "\"%char (String c (escape rest))
      else String c (escape rest)
  end.

Definition quote (s : string) : string :=
  String dquote (escape s ++ String dquote EmptyString).

Fixpoint join (sep : string) (l : list string) : string :=
  match l with
  | [] => EmptyString
  | [x] => x
  | x :: rest => x ++ sep ++ join sep rest
  end.

Fixpoint dumps (v : json) : string :=
  match v with
  | JNull => "null"
  | JBool true => "true"
  | JBool false => "false"
  | JNum n => show_Z n
  | JStr s => quote s
  | JArr items => "[" ++ join ", " (map dumps items) ++ "]"
  | JObj members =>
      "{" ++ join ", " (map (fun kv => quote (fst kv) ++ ": " ++ dumps (snd kv))
                            members) ++ "}"
  end.

(** One member of a dict, as [dumps] writes it. *)
Definition member_text (kv : string * json) : string :=
  quote (fst kv) ++ ": " ++ dumps (snd kv).

Fixpoint skip_ws (s : string) : string :=
  match s with
  | String c rest => if Ascii.eqb c " "%char then skip_ws rest else s
  | EmptyString => s
  end.

(** The text after an opening quote, up to the closing one. *)
Fixpoint read_string (s : string) : option (string * string) :=
  match s with
  | EmptyString => None
  | String c rest =>
      if Ascii.eqb c dquote then Some (EmptyString, rest)
      else if Ascii.eqb c "\"%char then
        match rest with
        | String c' rest' =>
            if Ascii.eqb c' dquote || Ascii.eqb c' "\"%char then
              match read_string rest' with
              | Some (body, tail) => Some (String c' body, tail)
              | None => None
              end
            else None
        | EmptyString => None
        end
      else
        match read_string rest with
        | Some (body, tail) => Some (String c body, tail)
        | None => None
        end
  end.

Definition is_digit (c : ascii) : bool :=
  let n := nat_of_ascii c in ((48 <=? n) && (n <=? 57))%nat.

Fixpoint read_digits (s : string) : string * string :=
  match s with
  | String c rest =>
      if is_digit c
      then let (ds, tail) := read_digits rest in (String c ds, tail)
      else (EmptyString, s)
  | EmptyString => (EmptyString, s)
  end.

Definition read_number (s : string) : option (json * string) :=
  match s with
  | String c rest =>
      let (negative, body) := if Ascii.eqb c "-"%char then (true, rest) else (false, s) in
      match read_digits body with
      | (EmptyString, _) => None
      | (ds, tail) =>
          match NilZero.uint_of_string ds with
          | Some u =>
              let n := Z.of_N (N.of_uint u) in
              Some (JNum (if negative then (- n)%Z else n), tail)
          | None => None
          end
      end
  | EmptyString => None
  end.

(** [s] without the literal [lit] it starts with. *)
Fixpoint strip (lit s : string) : option string :=
  match lit with
  | EmptyString => Some s
  | String c lit' =>
      match s with
      | String c' s' => if Ascii.eqb c c' then strip lit' s' else None
      | EmptyString => None
      end
  end.

Fixpoint read_value (fuel : nat) (s : string) : option (json * string) :=
  match fuel with
  | O => None
  | S fuel' =>
      match skip_ws s with
      | EmptyString => None
      | String c rest as s' =>
          if Ascii.eqb c dquote then
            match read_string rest with
            | Some (body, tail) => Some (JStr body, tail)
            | None => None
            end
          else if Ascii.eqb c "["%char then
            match skip_ws rest with
            | String c' rest' as inner =>
                if Ascii.eqb c' "]"%char then Some (JArr [], rest')
                else match read_items fuel' inner with
                     | Some (items, tail) => Some (JArr items, tail)
                     | None => None
                     end
            | EmptyString => None
            end
          else if Ascii.eqb c "{"%char then
            match skip_ws rest with
            | String c' rest' as inner =>
                if Ascii.eqb c' "}"%char then Some (JObj [], rest')
                else match read_members fuel' inner with
                     | Some (members, tail) => Some (JObj members, tail)
                     | None => None
                     end
            | EmptyString => None
            end
          else if Ascii.eqb c "n"%char then
            option_map (pair JNull) (strip "ull" rest)
          else if Ascii.eqb c "t"%char then
            option_map (pair (JBool true)) (strip "rue" rest)
          else if Ascii.eqb c "f"%char then
            option_map (pair (JBool false)) (strip "alse" rest)
          else read_number s'
      end
  end

with read_items (fuel : nat) (s : string) : option (list json * string) :=
  match fuel with
  | O => None
  | S fuel' =>
      match read_value fuel' s with
      | Some (v, tail) =>
          match skip_ws tail with
          | String c rest =>
              if Ascii.eqb c "]"%char then Some ([v], rest)
              else if Ascii.eqb c ","%char then
                match read_items fuel' rest with
                | Some (vs, tail') => Some (v :: vs, tail')
                | None => None
                end
              else None
          | EmptyString => None
          end
      | None => None
      end
  end

with read_members (fuel : nat) (s : string)
  : option (list (string * json) * string) :=
  match fuel with
  | O => None
  | S fuel' =>
      match skip_ws s with
      | String c rest =>
          if Ascii.eqb c dquote then
            match read_string rest with
            | Some (key, tail) =>
                match skip_ws tail with
                | String c1 rest1 =>
                    if Ascii.eqb c1 ":"%char then
                      match read_value fuel' rest1 with
                      | Some (v, tail1) =>
                          match skip_ws tail1 with
                          | String c2 rest2 =>
                              if Ascii.eqb c2 "}"%char then Some ([(key, v)], rest2)
                              else if Ascii.eqb c2 ","%char then
                                match read_members fuel' rest2 with
                                | Some (kvs, tail2) => Some ((key, v) :: kvs, tail2)
                                | None => None
                                end
                              else None
                          | EmptyString => None
                          end
                      | None => None
                      end
                    else None
                | EmptyString => None
                end
            | None => None
            end
          else None
      | EmptyString => None
      end
  end.

Definition loads (s : string) : option json :=
  match read_value (S (String.length s)) s with
  | Some (v, tail) =>
      match skip_ws tail with
      | EmptyString => Some v
      | _ => None
      end
  | None => None
  end.

(** Fuel that [read_value] needs to read back what [dumps] wrote. *)
Fixpoint need (v : json) : nat :=
  match v with
  | JArr items => S (fold_right (fun x acc => S (Nat.max (need x) acc)) 0 items)
  | JObj members =>
      S (fold_right (fun kv acc => S (Nat.max (need (snd kv)) acc)) 0 members)
  | _ => 1
  end.

Definition need_items (items : list json) : nat :=
  fold_right (fun x acc => S (Nat.max (need x) acc)) 0 items.

Definition need_members (members : list (string * json)) : nat :=
  fold_right (fun kv acc => S (Nat.max (need (snd kv)) acc)) 0 members.

(** A text that does not go on with a digit: where a number may end. *)
Definition stops (rest : string) : Prop :=
  match rest with
  | String c _ => is_digit c = false
  | EmptyString => True
  end.

Fixpoint all_digits (s : string) : bool :=
  match s with
  | EmptyString => true
  | String c rest => is_digit c && all_digits rest
  end.

(** [read_value] reads back what [dumps] wrote for [v], whatever follows it
    (a comma, a closing bracket, the end of the text). *)
Definition reads_back (v : json) : Prop :=
  forall fuel rest,
    need v <= fuel -> stops rest ->
    read_value fuel (dumps v ++ rest) = Some (v, rest).

(** The driver parses the column; a text it cannot parse comes back as is. *)
Definition fetch (stored : string) : json :=
  match loads stored with
  | Some v => v
  | None => JStr stored
  end.

Definition pad (width : nat) (z : Z) : string :=
  let digits := show_Z z in
  String.concat EmptyString (repeat "0" (width - String.length digits)) ++ digits.

(** Days since the epoch to the civil date (year, month, day). *)
Definition civil_from_days (days : Z) : Z * Z * Z :=
  let z := (days + 719468)%Z in
  let era := (z / 146097)%Z in
  let doe := (z - era * 146097)%Z in
  let yoe := ((doe - doe / 1460 + doe / 36524 - doe / 146096) / 365)%Z in
  let doy := (doe - (365 * yoe + yoe / 4 - yoe / 100))%Z in
  let mp := ((5 * doy + 2) / 153)%Z in
  let d := (doy - (153 * mp + 2) / 5 + 1)%Z in
  let m := if (mp <? 10)%Z then (mp + 3)%Z else (mp - 9)%Z in
  let y := (yoe + era * 400 + (if (m <=? 2)%Z then 1 else 0))%Z in
  (y, m, d).

Definition iso (t : datetime) : string :=
  let micros := (t mod 1000000)%Z in
  let secs := (t / 1000000)%Z in
  let '(y, m, d) := civil_from_days (secs / 86400)%Z in
  let sod := (secs mod 86400)%Z in
  pad 4 y ++ "-" ++ pad 2 m ++ "-" ++ pad 2 d ++ "T" ++
  pad 2 (sod / 3600) ++ ":" ++ pad 2 (sod mod 3600 / 60) ++ ":" ++ pad 2 (sod mod 60) ++
  (if (micros =? 0)%Z then EmptyString else "." ++ pad 6 micros).

Definition millis (t : datetime) : Z := Z.quot t 1000.

Definition platform : platform :=
  {| json_dumps := dumps; json_loads := loads; jsonb_fetch := fetch;
     isoformat := iso; epoch_millis := millis |}.

End Concrete.

(** ** Observations on states and events *)

(** A store that injects no error. *)
Definition healthy (s : state) : Prop := forall n, faults s n = None.

(** The statements that change rows. *)
Definition is_write (q : statement) : bool :=
  match q with
  | InsertChat _ _ _ _ | UpdateChat _ _ | InsertMessage _ _ _ _ _ _
  | DeleteChat _ => true
  | _ => false
  end.

Definition no_write (e : event) : bool :=
  match e with
  | EvExecute q _ => negb (is_write q)
  | _ => true
  end.

(** The statements that read or change rows: all but the bootstrap and
    the liveness probe. *)
Definition touches_rows (q : statement) : bool :=
  match q with
  | CreateSchema | CreateTableChats | CreateTableMessages
  | CreateIndexChatId | CreateIndexCreatedAt | Select1 => false
  | _ => true
  end.

Definition no_row_statement (e : event) : bool :=
  match e with
  | EvExecute q _ => negb (touches_rows q)
  | _ => true
  end.

(** Neither a liveness probe nor a sleep. *)
Definition no_probe_no_sleep (e : event) : bool :=
  match e with
  | EvExecute Select1 _ => false
  | EvSleep _ => false
  | _ => true
  end.

(** The outcomes of the liveness probes among the events, in order:
    [true] for a probe that was answered. *)
Fixpoint probe_outcomes (evs : list event) : list bool :=
  match evs with
  | [] => []
  | EvExecute Select1 None :: rest => true :: probe_outcomes rest
  | EvExecute Select1 (Some _) :: rest => false :: probe_outcomes rest
  | _ :: rest => probe_outcomes rest
  end.

(** The delays slept among the events, in order. *)
Fixpoint sleeps (evs : list event) : list Q :=
  match evs with
  | [] => []
  | EvSleep d :: rest => d :: sleeps rest
  | _ :: rest => sleeps rest
  end.

Definition total (delays : list Q) : Q := fold_right Qplus 0%Q delays.

(** The first [n] delays of the backoff, starting from [delay]. *)
Fixpoint schedule (max_delay : Q) (n : nat) (delay : Q) : list Q :=
  match n with
  | O => []
  | S k => delay :: schedule max_delay k (next_delay max_delay delay)
  end.

(** The log records among the events. *)
Fixpoint logged (evs : list event) : list (level * log_msg) :=
  match evs with
  | [] => []
  | EvLog lvl msg :: rest => (lvl, msg) :: logged rest
  | _ :: rest => logged rest
  end.

(** The primary key of the messages table holds: no two rows agree on
    [(chat_id, id)]. *)
Definition message_key (m : message_row) : string * Z := (msg_chat_id m, msg_id m).

Definition primary_key_ok (d : database) : Prop :=
  NoDup (map message_key (messages d)).

(** [x] is within 50 percent of [target]. *)
Definition roughly (target x : Q) : Prop :=
  (Qabs (x - target) <= target * (1 # 2))%Q.

(** The rows of one chat, as [get_messages] is to return them. *)
Definition view_of (P : platform) (row : message_row) (metadata : json)
  : message_view :=
  {| m_id := msg_id row; m_chat_id := msg_chat_id row;
     m_role := msg_role row; m_content := msg_content row;
     m_created_at := isoformat P (msg_created_at row);
     m_metadata := metadata |}.

Definition created_at_le (a b : message_row) : Prop :=
  (msg_created_at a <= msg_created_at b)%Z.

(** The value [decode_metadata] gives for a stored text, [None] when it
    raises. *)
Definition decoded (P : platform) (stored : string) : option json :=
  match jsonb_fetch P stored with
  | JStr text => json_loads P text
  | v => Some v
  end.

(** A row of the messages table and the dict that shows it. *)
Definition shows (P : platform) (row : message_row) (view : message_view)
  : Prop :=
  exists metadata,
    decoded P (msg_metadata row) = Some metadata /\ view = view_of P row metadata.

(** The row [add_message] inserts. *)
Definition new_message (P : platform) (now : datetime)
  (chat role content : string) (metadata : option json) : message_row :=
  {| msg_id := epoch_millis P now; msg_chat_id := chat; msg_role := role;
     msg_content := content; msg_created_at := now;
     msg_metadata := json_dumps P (or_empty metadata) |}.

(** The dict [get_chat] builds from a row. *)
Definition chat_view_of (P : platform) (row : chat_row) (metadata : json)
  : chat_view :=
  {| c_id := chat_id row;
     c_created_at := isoformat P (chat_created_at row);
     c_updated_at := isoformat P (chat_updated_at row);
     c_metadata := metadata |}.

(** The rows [SELECT ... FROM chats WHERE id = %s] finds. *)
Definition chats_with (id : string) (d : database) : list chat_row :=
  filter (fun c => String.eqb (chat_id c) id) (chats d).

(** A document survives being written and read back. *)
Definition round_trips (P : platform) (v : json) : Prop :=
  decoded P (json_dumps P v) = Some v.

(** A metadata map: a dict. *)
Definition is_dict (v : json) : Prop :=
  match v with
  | JObj _ => True
  | _ => False
  end.

(** ** Sample states *)

Module Sample.

Definition chat1 : string := "3f2b8c1e-0d4a-4e6f-9a77-5b1c2d3e4f50".

Definition chat2 : string := "9a1d7e42-6c3b-4f08-8e2a-0b5c6d7e8f91".

Definition t0 : datetime := 1700000000000000%Z.

(** A chat with no message. *)
Definition one_chat : database :=
  {| chats := [{| chat_id := chat1; chat_created_at := t0;
                  chat_updated_at := t0; chat_metadata := "{}" |}];
     messages := [] |}.

Definition no_faults : nat -> option (exn * bool) := fun _ => None.

(** A client that is connected and ready, on a store that works. *)
Definition ready (d : database) : state :=
  {| conn := Some ConnOpen; is_query_service_ready := true;
     tables_created := true; db := d; faults := no_faults; ticks := 0 |}.

(** Two messages of one chat, the later one stored first. *)
Definition unordered : database :=
  {| chats := [{| chat_id := chat1; chat_created_at := t0;
                  chat_updated_at := (t0 + 9000)%Z; chat_metadata := "{}" |}];
     messages :=
       [{| msg_id := 1700000000009; msg_chat_id := chat1; msg_role := "assistant";
           msg_content := "hello"; msg_created_at := (t0 + 9000)%Z;
           msg_metadata := "{}" |};
        {| msg_id := 1700000000002; msg_chat_id := chat1; msg_role := "user";
           msg_content := "hi"; msg_created_at := (t0 + 2000)%Z;
           msg_metadata := "{}" |}] |}.

(** Two instants of one millisecond. *)
Definition t1 : datetime := (t0 + 5000123)%Z.

Definition t2 : datetime := (t0 + 5000456)%Z.

(** A new client object: nothing connected yet. *)
Definition fresh (d : database) (f : nat -> option (exn * bool)) : state :=
  {| conn := None; is_query_service_ready := false;
     tables_created := false; db := d; faults := f; ticks := 0 |}.

(** A connected client whose round trips fail as [f] says. *)
Definition connected (d : database) (f : nat -> option (exn * bool)) : state :=
  {| conn := Some ConnOpen; is_query_service_ready := false;
     tables_created := true; db := d; faults := f; ticks := 0 |}.

(** The first [n] round trips fail, the connection stays open. *)
Definition fail_first (n : nat) : nat -> option (exn * bool) :=
  fun k => if (k <? n)%nat then Some (OperationalError 0, false) else None.

(** Every round trip fails, the connection stays open. *)
Definition always_failing : nat -> option (exn * bool) :=
  fun _ => Some (OperationalError 0, false).

(** Only round trip [n] fails. *)
Definition fail_at (n : nat) : nat -> option (exn * bool) :=
  fun k => if (k =? n)%nat then Some (DatabaseError 7, false) else None.

End Sample.

(** ** Invariants of runs *)

(** Every run of [m] relates its first state to its last by [R], and causes
    only events that [ok] accepts. *)
Definition maintains (R : state -> state -> Prop) (ok : event -> bool)
  {A} (m : M A) : Prop :=
  forall s, R s (state_of (m s)) /\ forallb ok (events_of (m s)) = true.

(** A relation between states that the bookkeeping of the client respects. *)
Record frame (R : state -> state -> Prop) : Prop := {
  frame_refl : forall s, R s s;
  frame_trans : forall s1 s2 s3, R s1 s2 -> R s2 s3 -> R s1 s3;
  frame_tick : forall s, R s (tick s);
  frame_conn : forall c s, R s (set_conn c s);
  frame_ready : forall s, R s (set_is_query_service_ready true s);
  frame_tables : forall s, R s (set_tables_created true s);
  frame_db : forall s, R s (set_db (db s) s)
}.

(** The events of connecting and bootstrapping are accepted. *)
Record accepts_bootstrap (ok : event -> bool) : Prop := {
  accepts_connect : forall err, ok (EvConnect err) = true;
  accepts_log : forall lvl msg, ok (EvLog lvl msg) = true;
  accepts_schema : forall err, ok (EvExecute CreateSchema err) = true;
  accepts_chats : forall err, ok (EvExecute CreateTableChats err) = true;
  accepts_messages : forall err, ok (EvExecute CreateTableMessages err) = true;
  accepts_index1 : forall err, ok (EvExecute CreateIndexChatId err) = true;
  accepts_index2 : forall err, ok (EvExecute CreateIndexCreatedAt err) = true
}.

(** The store's rows, the fault schedule and a finished bootstrap stay. *)
Definition same_store (s s' : state) : Prop :=
  db s' = db s /\ faults s' = faults s /\
  (tables_created s = true -> tables_created s' = true).

(** The fault schedule and a finished bootstrap stay. *)
Definition same_faults (s s' : state) : Prop :=
  faults s' = faults s /\
  (tables_created s = true -> tables_created s' = true).

Definition any_state (s s' : state) : Prop := True.

Definition any_event (e : event) : bool := true.

(** The common opening of the five store methods. *)
Definition prelude : M unit := ensure_connected ;; init.

(** The opening of [get_messages] and [delete_chat], which also wait for
    the store. *)
Definition prelude_and_wait : M unit := prelude ;; await_up_default.

(** Rows of the chats table that are gone. *)
Definition chats_deleted (before after : database) : nat :=
  length (chats before) - length (chats after).

(** ** The context manager and the start of the application *)

(** [__enter__]: connect, then hand back the client. *)
Definition __enter__ : M unit := connect.

(** [__exit__]: close; it returns [None], so an exception of the block is
    not suppressed. *)
Definition __exit__ : M unit := close.

(** [with client: body].  When [__enter__] raises, neither the block nor
    [__exit__] runs; otherwise [__exit__] runs however the block ends, and
    the outcome of the block is the outcome of the statement. *)
Definition with_client {A} (body : M A) : M A :=
  __enter__ ;;
  (fun s =>
     match body s with
     | (r, s1, ev1) =>
         match __exit__ s1 with
         | (_, s2, ev2) => (r, s2, ev1 ++ ev2)
         end
     end).

(** [PostgresChatClient(...)]: the object [__init__] leaves, facing a store
    with rows [d] whose round trips fail as [f] says. *)
Definition new_client (d : database) (f : nat -> option (exn * bool)) : state :=
  {| conn := None; is_query_service_ready := false; tables_created := false;
     db := d; faults := f; ticks := 0 |}.

(** The log records of [main.py]. *)
Inductive app_msg : Type :=
| ConnectedToPostgres
| CouldntConnectToPostgres.

(** What the application does at its start: the events of its client, and
    its own log records. *)
Inductive app_event : Type :=
| ClientEvent (e : event)
| AppLog (lvl : level) (msg : app_msg).

(** Lines 18 to 28 of [lifespan]: the client is made, and a first
    [connect()] is tried inside [try ... except Exception]. *)
Definition lifespan (d : database) (f : nat -> option (exn * bool))
  : result unit * state * list app_event :=
  match connect (new_client d f) with
  | (Ok _, s1, ev) =>
      (Ok tt, s1, map ClientEvent ev ++ [AppLog INFO ConnectedToPostgres])
  | (Raise _, s1, ev) =>
      (Ok tt, s1, map ClientEvent ev ++ [AppLog WARNING CouldntConnectToPostgres])
  end.

(** ** More observations *)

(** The statements sent among the events, in order. *)
Fixpoint statements (evs : list event) : list statement :=
  match evs with
  | [] => []
  | EvExecute q _ :: rest => q :: statements rest
  | _ :: rest => statements rest
  end.

(** The statements of the bootstrap, in the order of [init]. *)
Definition bootstrap : list statement :=
  [CreateSchema; CreateTableChats; CreateTableMessages;
   CreateIndexChatId; CreateIndexCreatedAt].

(** The connection attempts among the events. *)
Fixpoint connects (evs : list event) : nat :=
  match evs with
  | [] => 0
  | EvConnect _ :: rest => S (connects rest)
  | _ :: rest => connects rest
  end.

(** The constraints the tables are declared with: the primary key of
    [chats], the primary key of [messages], and the reference from a
    message to its chat. *)
Definition chat_key_ok (d : database) : Prop := NoDup (map chat_id (chats d)).

Definition foreign_key_ok (d : database) : Prop :=
  forall m, In m (messages d) -> has_chat (msg_chat_id m) d = true.

Definition consistent (d : database) : Prop :=
  chat_key_ok d /\ primary_key_ok d /\ foreign_key_ok d.

Definition keeps_consistent (s s' : state) : Prop :=
  consistent (db s) -> consistent (db s').

(** From the round trip the client is at, the store works. *)
Definition healthy_from_now (s : state) : Prop :=
  forall n, (ticks s <= n)%nat -> faults s n = None.

(** The fault schedule stays and round trips are only counted up. *)
Definition later (s s' : state) : Prop :=
  faults s' = faults s /\ (ticks s <= ticks s')%nat.

(** The readiness flag and the bootstrap flag are not taken back. *)
Definition flags_stay (s s' : state) : Prop :=
  (is_query_service_ready s = true -> is_query_service_ready s' = true) /\
  (tables_created s = true -> tables_created s' = true).

(** The rows of one chat: its row of [chats] and its rows of [messages]. *)
Definition rows_of (id : string) (d : database)
  : list chat_row * list message_row :=
  (chats_with id d, filter (of_chat id) (messages d)).

Section Maintains.

Variable R : state -> state -> Prop.
Variable ok : event -> bool.
Hypothesis HR : frame R.

Lemma maintains_ret {A} (a : A) : maintains R ok (ret a).
Proof. intros s; split; [apply HR | reflexivity]. Qed.

Lemma maintains_raise {A} (e : exn) : maintains R ok (@raise A e).
Proof. intros s; split; [apply HR | reflexivity]. Qed.

Lemma maintains_get : maintains R ok get.
Proof. intros s; split; [apply HR | reflexivity]. Qed.

Lemma maintains_bind {A B} (m : M A) (k : A -> M B) :
  maintains R ok m -> (forall a, maintains R ok (k a)) ->
  maintains R ok (bind m k).
Proof.
  intros Hm Hk s. specialize (Hm s). unfold bind.
  destruct (m s) as [[[a | e] s1] ev1]; cbn in *; [| exact Hm].
  specialize (Hk a s1). destruct (k a s1) as [[r s2] ev2]; cbn in *.
  destruct Hm as [Hm1 Hm2], Hk as [Hk1 Hk2]. split.
  - eapply frame_trans; eassumption.
  - rewrite forallb_app, Hm2, Hk2. reflexivity.
Qed.

Lemma maintains_try_except {A} (m : M A) (h : exn -> M A) :
  maintains R ok m -> (forall e, maintains R ok (h e)) ->
  maintains R ok (try_except m h).
Proof.
  intros Hm Hh s. specialize (Hm s). unfold try_except.
  destruct (m s) as [[[a | e] s1] ev1]; cbn in *; [exact Hm |].
  specialize (Hh e s1). destruct (h e s1) as [[r s2] ev2]; cbn in *.
  destruct Hm as [Hm1 Hm2], Hh as [Hh1 Hh2]. split.
  - eapply frame_trans; eassumption.
  - rewrite forallb_app, Hm2, Hh2. reflexivity.
Qed.

Lemma maintains_modify (f : state -> state) :
  (forall s, R s (f s)) -> maintains R ok (modify f).
Proof. intros Hf s; split; [apply Hf | reflexivity]. Qed.

Lemma maintains_emit (e : event) : ok e = true -> maintains R ok (emit e).
Proof. intros He s; split; [apply HR | cbn; rewrite He; reflexivity]. Qed.

Lemma maintains_psycopg_connect :
  (forall err, ok (EvConnect err) = true) -> maintains R ok psycopg_connect.
Proof.
  intros Hok s. unfold psycopg_connect.
  destruct (faults s (ticks s)) as [[e b] |]; cbn; rewrite Hok;
    (split; [| reflexivity]).
  - apply HR.
  - eapply frame_trans; [exact HR | apply (frame_tick R HR) | apply (frame_conn R HR)].
Qed.

(** A statement whose effect on the rows [R] tolerates. *)
Lemma maintains_execute (q : statement) :
  (forall err, ok (EvExecute q err) = true) ->
  (forall s, R s (set_db (snd (run_statement q (db s))) s)) ->
  maintains R ok (execute q).
Proof.
  intros Hok Hdb s. unfold execute.
  destruct (conn s) as [[|] |]; cbn;
    try (rewrite Hok; split; [apply HR | reflexivity]).
  destruct (faults s (ticks s)) as [[e b] |]; cbn.
  - rewrite Hok; split; [| reflexivity].
    eapply frame_trans; [exact HR | apply (frame_tick R HR) | apply (frame_conn R HR)].
  - specialize (Hdb (tick s)). cbn in Hdb.
    destruct (run_statement q (db s)) as [[c | e] d]; cbn in *;
      rewrite Hok; (split; [| reflexivity]);
        (eapply frame_trans; [exact HR | apply (frame_tick R HR) | exact Hdb]).
Qed.

(** A statement that leaves the rows as they are. *)
Lemma maintains_query (q : statement) :
  (forall err, ok (EvExecute q err) = true) ->
  (forall d, snd (run_statement q d) = d) ->
  maintains R ok (execute q).
Proof.
  intros Hok Hq. apply maintains_execute; [exact Hok |].
  intros s. rewrite Hq. apply HR.
Qed.

Hypothesis Hok : accepts_bootstrap ok.

Lemma maintains_log lvl msg : maintains R ok (log lvl msg).
Proof. apply maintains_emit, Hok. Qed.

Lemma maintains_init_tables : maintains R ok init_tables.
Proof.
  unfold init_tables. apply maintains_bind; [apply maintains_get |].
  intros s0. destruct (tables_created s0); [apply maintains_ret |].
  apply maintains_try_except.
  - repeat (apply maintains_bind;
            [apply maintains_query; [apply Hok | reflexivity] | intros _]).
    apply maintains_bind; [| intros _; apply maintains_log].
    apply maintains_modify, HR.
  - intros e. apply maintains_bind;
      [apply maintains_log | intros _; apply maintains_raise].
Qed.

Lemma maintains_connect : maintains R ok connect.
Proof.
  unfold connect. apply maintains_try_except.
  - apply maintains_bind; [apply maintains_psycopg_connect, Hok | intros _].
    apply maintains_bind; [| intros _; apply maintains_log].
    apply maintains_try_except; [apply maintains_init_tables |].
    intros e; apply maintains_log.
  - intros e. apply maintains_bind;
      [apply maintains_log | intros _; apply maintains_raise].
Qed.

Lemma maintains_init : maintains R ok init.
Proof.
  unfold init. apply maintains_bind; [apply maintains_get | intros s0].
  apply maintains_bind; [| intros _; apply maintains_init_tables].
  destruct (conn s0); [apply maintains_ret | apply maintains_connect].
Qed.

Lemma maintains_ensure_connected : maintains R ok ensure_connected.
Proof.
  unfold ensure_connected. apply maintains_bind; [apply maintains_get | intros s0].
  destruct (conn s0) as [[|] |];
    [apply maintains_ret | apply maintains_connect | apply maintains_connect].
Qed.

Lemma maintains_prelude : maintains R ok prelude.
Proof.
  unfold prelude. apply maintains_bind;
    [apply maintains_ensure_connected | intros _; apply maintains_init].
Qed.

Lemma maintains_reconnect : maintains R ok reconnect.
Proof.
  unfold reconnect. apply maintains_try_except; [| intros _; apply maintains_ret].
  apply maintains_bind; [apply maintains_get | intros s0].
  destruct (conn s0) as [[|] |];
    [apply maintains_ret | apply maintains_connect | apply maintains_raise].
Qed.

Hypothesis Hprobe : forall err, ok (EvExecute Select1 err) = true.
Hypothesis Hsleep : forall d, ok (EvSleep d) = true.

Lemma maintains_probe : maintains R ok probe.
Proof.
  unfold probe.
  apply maintains_bind; [apply maintains_query; [apply Hprobe | reflexivity] | intros _].
  apply maintains_bind; [apply maintains_modify, HR | intros _; apply maintains_log].
Qed.

Lemma maintains_await_loop max_retries max_delay remaining :
  forall attempt delay,
    maintains R ok (await_loop max_retries max_delay remaining attempt delay).
Proof.
  induction remaining as [| k IH]; intros attempt delay; cbn [await_loop].
  - apply maintains_raise.
  - apply maintains_try_except; [apply maintains_probe | intros e].
    apply maintains_bind; [apply maintains_log | intros _].
    apply maintains_bind; [apply maintains_emit, Hsleep | intros _].
    apply maintains_bind; [apply maintains_reconnect | intros _].
    apply IH.
Qed.

Lemma maintains_await_up max_retries initial_delay max_delay :
  maintains R ok (await_up max_retries initial_delay max_delay).
Proof.
  unfold await_up. apply maintains_bind; [apply maintains_get | intros s0].
  destruct (is_query_service_ready s0); [apply maintains_ret |].
  apply maintains_bind; [| intros _; apply maintains_await_loop].
  destruct (conn s0); [apply maintains_ret | apply maintains_connect].
Qed.

Variable P : platform.

Lemma maintains_decode_metadata stored : maintains R ok (decode_metadata P stored).
Proof.
  unfold decode_metadata.
  destruct (jsonb_fetch P stored); try apply maintains_ret.
  destruct (json_loads P s); [apply maintains_ret | apply maintains_raise].
Qed.

Lemma maintains_get_chat id :
  (forall err, ok (EvExecute (SelectChat id) err) = true) ->
  maintains R ok (get_chat P id).
Proof.
  intros Hsel. unfold get_chat, get_chat_try.
  apply maintains_bind; [apply maintains_ensure_connected | intros _].
  apply maintains_bind; [apply maintains_init | intros _].
  apply maintains_try_except.
  - apply maintains_bind; [apply maintains_query; [apply Hsel | reflexivity] |].
    intros cur. destruct (fetchone cur); [| apply maintains_ret].
    apply maintains_bind; [apply maintains_decode_metadata |].
    intros md; apply maintains_ret.
  - intros e. apply maintains_bind;
      [apply maintains_log | intros _; apply maintains_ret].
Qed.

Lemma maintains_convert_rows rows : maintains R ok (convert_rows P rows).
Proof.
  induction rows as [| row rest IH]; cbn [convert_rows]; [apply maintains_ret |].
  apply maintains_bind; [apply maintains_decode_metadata | intros md].
  apply maintains_bind; [apply IH | intros vs; apply maintains_ret].
Qed.

Lemma maintains_get_messages id :
  (forall err, ok (EvExecute (SelectMessages id) err) = true) ->
  maintains R ok (get_messages P id).
Proof.
  intros Hsel. unfold get_messages, get_messages_try.
  apply maintains_bind; [apply maintains_ensure_connected | intros _].
  apply maintains_bind; [apply maintains_init | intros _].
  apply maintains_bind; [apply maintains_await_up | intros _].
  apply maintains_try_except.
  - apply maintains_bind; [apply maintains_query; [apply Hsel | reflexivity] |].
    intros cur. apply maintains_convert_rows.
  - intros e. apply maintains_bind;
      [apply maintains_log | intros _; apply maintains_raise].
Qed.

End Maintains.

(** The methods are kept folded while proofs step through them. *)
Arguments execute : simpl never.
Arguments psycopg_connect : simpl never.
Arguments init_tables : simpl never.
Arguments connect : simpl never.
Arguments init : simpl never.
Arguments probe : simpl never.
Arguments reconnect : simpl never.
Arguments await_loop : simpl never.
Arguments await_up : simpl never.
Arguments await_up_default : simpl never.
Arguments ensure_connected : simpl never.
Arguments prelude : simpl never.
Arguments prelude_and_wait : simpl never.
Arguments create_chat : simpl never.
Arguments create_chat_try : simpl never.
Arguments get_chat_try : simpl never.
Arguments add_message_try : simpl never.
Arguments get_messages_try : simpl never.
Arguments delete_chat_try : simpl never.
Arguments decode_metadata : simpl never.
Arguments get_chat : simpl never.
Arguments add_message : simpl never.
Arguments convert_rows : simpl never.
Arguments get_messages : simpl never.
Arguments delete_chat : simpl never.

(** ** Basic facts *)

Lemma frame_same_store : frame same_store.
Proof.
  constructor; unfold same_store; cbn; intros; try tauto.
  destruct H as (H1 & H2 & H3), H0 as (H4 & H5 & H6).
  repeat split; [congruence | congruence | tauto].
Qed.

Lemma frame_same_faults : frame same_faults.
Proof.
  constructor; unfold same_faults; cbn; intros; try tauto.
  destruct H as (H2 & H3), H0 as (H5 & H6).
  split; [congruence | tauto].
Qed.

Lemma frame_any_state : frame any_state.
Proof. constructor; unfold any_state; auto. Qed.

Lemma accepts_bootstrap_no_write : accepts_bootstrap no_write.
Proof. constructor; reflexivity. Qed.

Lemma accepts_bootstrap_no_probe_no_sleep : accepts_bootstrap no_probe_no_sleep.
Proof. constructor; reflexivity. Qed.

Lemma accepts_bootstrap_any_event : accepts_bootstrap any_event.
Proof. constructor; reflexivity. Qed.

Lemma bind_assoc {A B C} (m : M A) (f : A -> M B) (g : B -> M C) s :
  bind (bind m f) g s = bind m (fun a => bind (f a) g) s.
Proof.
  unfold bind. destruct (m s) as [[[a | e] s1] ev1]; [| reflexivity].
  destruct (f a s1) as [[[b | e] s2] ev2]; [| reflexivity].
  destruct (g b s2) as [[r s3] ev3]. rewrite app_assoc. reflexivity.
Qed.

Lemma bind_ok {A B} (m : M A) (k : A -> M B) s a s1 ev1 :
  m s = (Ok a, s1, ev1) ->
  bind m k s = (result_of (k a s1), state_of (k a s1), ev1 ++ events_of (k a s1)).
Proof.
  intros H. unfold bind. rewrite H. destruct (k a s1) as [[r s2] ev2]. reflexivity.
Qed.

Lemma bind_raise {A B} (m : M A) (k : A -> M B) s e s1 ev1 :
  m s = (Raise e, s1, ev1) -> bind m k s = (Raise e, s1, ev1).
Proof. intros H. unfold bind. rewrite H. reflexivity. Qed.

Lemma try_ok {A} (m : M A) (h : exn -> M A) s a s1 ev1 :
  m s = (Ok a, s1, ev1) -> try_except m h s = (Ok a, s1, ev1).
Proof. intros H. unfold try_except. rewrite H. reflexivity. Qed.

Lemma try_raise {A} (m : M A) (h : exn -> M A) s e s1 ev1 :
  m s = (Raise e, s1, ev1) ->
  try_except m h s = (result_of (h e s1), state_of (h e s1), ev1 ++ events_of (h e s1)).
Proof.
  intros H. unfold try_except. rewrite H. destruct (h e s1) as [[r s2] ev2]. reflexivity.
Qed.

Lemma run_eta {A} (x : result A * state * list event) :
  x = (result_of x, state_of x, events_of x).
Proof. destruct x as [[r s] ev]. reflexivity. Qed.

(** What a round trip that was answered tells. *)
Lemma execute_ok q s c s1 ev :
  execute q s = (Ok c, s1, ev) ->
  conn s = Some ConnOpen /\ faults s (ticks s) = None /\
  run_statement q (db s) = (Ok c, db s1) /\
  ev = [EvExecute q None] /\
  conn s1 = Some ConnOpen /\ faults s1 = faults s /\ ticks s1 = S (ticks s) /\
  tables_created s1 = tables_created s /\
  is_query_service_ready s1 = is_query_service_ready s.
Proof.
  unfold execute. intros H.
  destruct (conn s) as [[|] |] eqn:Ec; try discriminate.
  destruct (faults s (ticks s)) as [[e b] |] eqn:Ef; try discriminate.
  destruct (run_statement q (db s)) as [[c' | e] d] eqn:Er; try discriminate.
  inversion H; subst. cbn. repeat split; auto.
Qed.

Lemma run_statement_raise q d e d' :
  run_statement q d = (Raise e, d') -> d' = d.
Proof.
  destruct q; cbn; intros H; try (inversion H; reflexivity).
  - destruct (varchar 36 id); [destruct (has_chat s d) |];
      inversion H; reflexivity.
  - destruct (varchar 36 chat), (varchar 50 role);
      try (inversion H; reflexivity).
    destruct (negb (in_bigint id)); [inversion H; reflexivity |].
    destruct (has_message s id d); [inversion H; reflexivity |].
    destruct (negb (has_chat s d)); inversion H; reflexivity.
Qed.

(** A round trip that raised wrote nothing and left one event. *)
Lemma execute_raise q s e s1 ev :
  execute q s = (Raise e, s1, ev) ->
  db s1 = db s /\ ev = [EvExecute q (Some e)] /\ faults s1 = faults s /\
  tables_created s1 = tables_created s /\
  is_query_service_ready s1 = is_query_service_ready s.
Proof.
  unfold execute. intros H.
  destruct (conn s) as [[|] |]; try (inversion H; subst; auto; fail).
  destruct (faults s (ticks s)) as [[e' b] |];
    [inversion H; subst; cbn; auto |].
  destruct (run_statement q (db s)) as [[c | e'] d] eqn:E; [discriminate |].
  apply run_statement_raise in E. inversion H; subst. cbn. auto.
Qed.

Lemma execute_open q s :
  conn s = Some ConnOpen ->
  execute q s =
    match faults s (ticks s) with
    | Some (e, drops) =>
        (Raise e, set_conn (Some (if drops then ConnClosed else ConnOpen)) (tick s),
         [EvExecute q (Some e)])
    | None =>
        match run_statement q (db s) with
        | (Ok c, d) => (Ok c, set_db d (tick s), [EvExecute q None])
        | (Raise e, d) => (Raise e, set_db d (tick s), [EvExecute q (Some e)])
        end
    end.
Proof. intros H. unfold execute. rewrite H. reflexivity. Qed.

Ltac exec_step H :=
  match type of H with
  | context [execute ?q ?st] =>
      let E := fresh "E" in
      destruct (execute q st) as [[[? | ?] ?] ?] eqn:E; cbn in H;
      [apply execute_ok in E;
       destruct E as (? & ? & ? & ? & ? & ? & ? & ? & ?)
      | apply execute_raise in E; destruct E as (? & ? & ? & ? & ?)]
  end.

(** ** Connecting and bootstrapping *)

Lemma init_tables_done s :
  tables_created s = true -> init_tables s = (Ok tt, s, []).
Proof. intros H. unfold init_tables, bind, get. cbn. rewrite H. reflexivity. Qed.

Lemma init_tables_ok s s1 ev :
  init_tables s = (Ok tt, s1, ev) ->
  tables_created s1 = true /\
  (conn s = Some ConnOpen -> conn s1 = Some ConnOpen) /\
  (tables_created s = false -> conn s1 = Some ConnOpen).
Proof.
  unfold init_tables, bind, try_except, get, modify, log, emit, raise, ret.
  destruct (tables_created s) eqn:Ht.
  - intros H; inversion H; subst. repeat split; auto. discriminate.
  - intros H. cbn in H.
    repeat (exec_step H; [| discriminate H]).
    inversion H; subst. cbn. auto.
Qed.

Lemma init_tables_raise s e s1 ev :
  init_tables s = (Raise e, s1, ev) -> tables_created s1 = false.
Proof.
  unfold init_tables, bind, try_except, get, modify, log, emit, raise, ret.
  destruct (tables_created s) eqn:Ht; [discriminate |].
  intros H. cbn in H.
  repeat (exec_step H; [| inversion H; subst; congruence]).
  discriminate H.
Qed.

(** A connect that returned left the handle open, unless the bootstrap it
    tried failed. *)
Lemma connect_ok s s1 ev :
  connect s = (Ok tt, s1, ev) ->
  tables_created s1 = true -> conn s1 = Some ConnOpen.
Proof.
  unfold connect, try_except at 1, bind at 1, psycopg_connect.
  destruct (faults s (ticks s)) as [[e b] |]; cbn; [discriminate |].
  unfold bind, try_except.
  destruct (init_tables _) as [[[[] | e] s2] ev2] eqn:E; cbn; intros H Ht;
    inversion H; subst.
  - apply init_tables_ok in E. destruct E as (_ & E & _). apply E. reflexivity.
  - apply init_tables_raise in E. congruence.
Qed.

Lemma connect_raise s e s1 ev :
  connect s = (Raise e, s1, ev) ->
  conn s1 = conn s /\ ev = [EvConnect (Some e); EvLog WARNING (ConnectionFailed e)].
Proof.
  unfold connect, try_except at 1, bind at 1, psycopg_connect.
  destruct (faults s (ticks s)) as [[e' b] |]; cbn.
  - intros H; inversion H; subst. auto.
  - unfold bind, try_except.
    destruct (init_tables _) as [[[[] | e'] s2] ev2]; cbn; discriminate.
Qed.

Lemma init_tables_ok_open s s1 ev :
  init_tables s = (Ok tt, s1, ev) ->
  (tables_created s = true -> conn s = Some ConnOpen) ->
  conn s1 = Some ConnOpen /\ tables_created s1 = true.
Proof.
  intros H Hopen. apply init_tables_ok in H. destruct H as (H1 & H2 & H3).
  split; [| exact H1].
  destruct (tables_created s); [apply H2, Hopen | apply H3]; reflexivity.
Qed.

Lemma ensure_connected_ok s s1 ev :
  ensure_connected s = (Ok tt, s1, ev) ->
  tables_created s1 = true -> conn s1 = Some ConnOpen.
Proof.
  unfold ensure_connected, bind, get.
  destruct (conn s) as [[|] |] eqn:Ec.
  - cbn. intros X; inversion X; subst. auto.
  - destruct (connect s) as [[[[] | e] s'] ev'] eqn:E; intros X; inversion X; subst.
    eapply connect_ok; eauto.
  - destruct (connect s) as [[[[] | e] s'] ev'] eqn:E; intros X; inversion X; subst.
    eapply connect_ok; eauto.
Qed.

Lemma init_ok s s1 ev :
  init s = (Ok tt, s1, ev) ->
  (tables_created s = true -> conn s = Some ConnOpen) ->
  conn s1 = Some ConnOpen /\ tables_created s1 = true.
Proof.
  unfold init, bind at 1 2, get. intros H Hopen.
  destruct (conn s) as [c |] eqn:Ec; cbn in H.
  - destruct (init_tables s) as [[[[] | e] s'] ev'] eqn:E; inversion H; subst.
    eapply init_tables_ok_open; eauto. rewrite Ec. exact Hopen.
  - destruct (connect s) as [[[[] | e] s0] ev0] eqn:E0; [| discriminate H].
    destruct (init_tables s0) as [[[[] | e] s'] ev'] eqn:E; inversion H; subst.
    eapply init_tables_ok_open; eauto. eapply connect_ok; eauto.
Qed.

(** After the opening of a method the handle is open and the tables exist. *)
Lemma prelude_ok s s1 ev :
  prelude s = (Ok tt, s1, ev) ->
  conn s1 = Some ConnOpen /\ tables_created s1 = true.
Proof.
  unfold prelude, bind at 1.
  destruct (ensure_connected s) as [[[[] | e] s0] ev0] eqn:E0; [| discriminate].
  destruct (init s0) as [[[[] | e] s'] ev'] eqn:E; intros H; inversion H; subst.
  eapply init_ok; eauto. eapply ensure_connected_ok; eauto.
Qed.

(** On a client that is connected and bootstrapped the opening does nothing. *)
Lemma ensure_connected_open s :
  conn s = Some ConnOpen -> ensure_connected s = (Ok tt, s, []).
Proof. intros H. unfold ensure_connected, bind, get. rewrite H. reflexivity. Qed.

Lemma init_open s :
  conn s = Some ConnOpen -> tables_created s = true -> init s = (Ok tt, s, []).
Proof.
  intros H Ht. unfold init, bind, get. rewrite H. cbn.
  rewrite (init_tables_done s Ht). reflexivity.
Qed.

Lemma prelude_open s :
  conn s = Some ConnOpen -> tables_created s = true ->
  prelude s = (Ok tt, s, []).
Proof.
  intros H Ht. unfold prelude, bind.
  rewrite (ensure_connected_open s H), (init_open s H Ht). reflexivity.
Qed.

(** Each store method is its opening followed by the rest. *)
Lemma after_prelude {A} (rest : M A) s :
  (ensure_connected ;; init ;; rest) s = (prelude ;; rest) s.
Proof. unfold prelude. symmetry. apply bind_assoc. Qed.

Lemma prelude_same_store : maintains same_store no_write prelude.
Proof. apply maintains_prelude; [exact frame_same_store | exact accepts_bootstrap_no_write]. Qed.

(** On a store that works, the opening succeeds. *)
Lemma healthy_tick s : healthy s -> healthy (tick s).
Proof. intros H n. apply H. Qed.

Lemma execute_healthy q s :
  healthy s -> conn s = Some ConnOpen ->
  execute q s =
    match run_statement q (db s) with
    | (Ok c, d) => (Ok c, set_db d (tick s), [EvExecute q None])
    | (Raise e, d) => (Raise e, set_db d (tick s), [EvExecute q (Some e)])
    end.
Proof. intros Hh Hc. rewrite (execute_open q s Hc), Hh. reflexivity. Qed.

Lemma init_tables_healthy s :
  healthy s -> conn s = Some ConnOpen ->
  exists s1 ev, init_tables s = (Ok tt, s1, ev) /\ conn s1 = Some ConnOpen.
Proof.
  intros Hh Hc. unfold init_tables, bind at 1, get.
  destruct (tables_created s) eqn:Ht; [cbn; eauto |].
  unfold bind, try_except, modify, log, emit.
  repeat (rewrite execute_healthy;
          [cbn | repeat apply healthy_tick; exact Hh | cbn; exact Hc]).
  eauto.
Qed.

Lemma connect_healthy s :
  healthy s ->
  exists s1 ev, connect s = (Ok tt, s1, ev) /\ conn s1 = Some ConnOpen.
Proof.
  intros Hh. unfold connect, try_except at 1, bind at 1, psycopg_connect.
  rewrite Hh.
  destruct (init_tables_healthy (set_conn (Some ConnOpen) (tick s)))
    as (s1 & ev & E & Hc); [exact Hh | reflexivity |].
  unfold bind, try_except. rewrite E. cbn. eauto.
Qed.

Lemma healthy_same_faults s s' : faults s' = faults s -> healthy s -> healthy s'.
Proof. unfold healthy. intros E H n. rewrite E. apply H. Qed.

Lemma prelude_healthy s :
  healthy s ->
  exists s1 ev, prelude s = (Ok tt, s1, ev) /\
    conn s1 = Some ConnOpen /\ tables_created s1 = true /\
    db s1 = db s /\ healthy s1.
Proof.
  intros Hh.
  assert (exists s0 ev0, ensure_connected s = (Ok tt, s0, ev0) /\
                         conn s0 = Some ConnOpen) as (s0 & ev0 & E0 & Hc0).
  { unfold ensure_connected, bind, get.
    destruct (conn s) as [[|] |] eqn:Ec; cbn.
    - eauto.
    - destruct (connect_healthy s Hh) as (s1 & ev & E & Hc). rewrite E. eauto.
    - destruct (connect_healthy s Hh) as (s1 & ev & E & Hc). rewrite E. eauto. }
  assert (Hh0 : healthy s0).
  { pose proof (maintains_ensure_connected _ _ frame_same_store
                  accepts_bootstrap_no_write s) as [(_ & Hf & _) _].
    rewrite E0 in Hf. eapply healthy_same_faults; eauto. }
  destruct (init_tables_healthy s0 Hh0 Hc0) as (s1 & ev1 & E1 & Hc1).
  assert (E : prelude s = (Ok tt, s1, ev0 ++ ev1)).
  { unfold prelude, bind at 1. rewrite E0. unfold init, bind, get.
    rewrite Hc0. cbn. rewrite E1. reflexivity. }
  exists s1, (ev0 ++ ev1). split; [exact E |].
  destruct (prelude_ok _ _ _ E) as [H1 H2].
  pose proof (prelude_same_store s) as [(Hd & Hf & _) _]. rewrite E in Hd, Hf.
  repeat split; auto. eapply healthy_same_faults; eauto.
Qed.

(** ** Waiting for the store *)

Lemma probe_outcomes_app a b :
  probe_outcomes (a ++ b) = probe_outcomes a ++ probe_outcomes b.
Proof.
  induction a as [| [err | [] [err |] | d | lvl msg] a IH]; cbn; congruence.
Qed.

Lemma sleeps_app a b : sleeps (a ++ b) = sleeps a ++ sleeps b.
Proof.
  induction a as [| [err | q err | d | lvl msg] a IH]; cbn; congruence.
Qed.

Lemma logged_app a b : logged (a ++ b) = logged a ++ logged b.
Proof.
  induction a as [| [err | q err | d | lvl msg] a IH]; cbn; congruence.
Qed.

Lemma quiet_events evs :
  forallb no_probe_no_sleep evs = true ->
  probe_outcomes evs = [] /\ sleeps evs = [].
Proof.
  induction evs as [| [err | [] [err |] | d | lvl msg] evs IH]; cbn;
    intros H; try discriminate; auto.
Qed.

Lemma connect_quiet s :
  probe_outcomes (events_of (connect s)) = [] /\ sleeps (events_of (connect s)) = [].
Proof.
  apply quiet_events.
  apply (maintains_connect any_state no_probe_no_sleep frame_any_state
           accepts_bootstrap_no_probe_no_sleep s).
Qed.

Lemma reconnect_quiet s :
  probe_outcomes (events_of (reconnect s)) = [] /\
  sleeps (events_of (reconnect s)) = [].
Proof.
  apply quiet_events.
  apply (maintains_reconnect any_state no_probe_no_sleep frame_any_state
           accepts_bootstrap_no_probe_no_sleep s).
Qed.

Lemma reconnect_returns s : result_of (reconnect s) = Ok tt.
Proof.
  unfold reconnect, try_except, bind, get. cbn.
  destruct (conn s) as [[|] |]; cbn; try reflexivity.
  destruct (connect s) as [[[[] | e] s1] ev1]; reflexivity.
Qed.

(** One attempt: the probe is answered and the flag is set, or it raises
    and nothing but the connection may have changed. *)
Lemma probe_cases s :
  (exists s1, probe s = (Ok tt, s1, [EvExecute Select1 None; EvLog INFO DatabaseIsReady]) /\
              is_query_service_ready s1 = true /\ conn s1 = Some ConnOpen) \/
  (exists e s1, probe s = (Raise e, s1, [EvExecute Select1 (Some e)])).
Proof.
  unfold probe, bind, modify, log, emit.
  destruct (execute Select1 s) as [[[c | e] s1] ev1] eqn:E.
  - apply execute_ok in E. destruct E as (_ & _ & _ & -> & Hc & _).
    left. eexists. split; [reflexivity |]. cbn. auto.
  - apply execute_raise in E. destruct E as (_ & -> & _).
    right. eauto.
Qed.

Lemma await_loop_S max_retries max_delay k attempt delay :
  await_loop max_retries max_delay (S k) attempt delay =
  try_except probe
    (fun e =>
       log WARNING (NotAvailableYet attempt max_retries delay e) ;;
       sleep delay ;;
       reconnect ;;
       await_loop max_retries max_delay k (attempt + 1)%Z
                  (next_delay max_delay delay)).
Proof. reflexivity. Qed.

(** A failed attempt: the warning, the sleep, the try to reconnect, and
    the remaining attempts with the next delay. *)
Lemma await_loop_fail max_retries max_delay k attempt delay s e s1 ev1 :
  probe s = (Raise e, s1, ev1) ->
  let s2 := state_of (reconnect s1) in
  let rest := await_loop max_retries max_delay k (attempt + 1)%Z
                (next_delay max_delay delay) s2 in
  await_loop max_retries max_delay (S k) attempt delay s =
    (result_of rest, state_of rest,
     ev1 ++ [EvLog WARNING (NotAvailableYet attempt max_retries delay e);
             EvSleep delay] ++ events_of (reconnect s1) ++ events_of rest).
Proof.
  intros E. cbn zeta. rewrite await_loop_S. unfold try_except. rewrite E.
  unfold bind, log, sleep, emit.
  pose proof (reconnect_returns s1) as Hret.
  destruct (reconnect s1) as [[r2 s2] ev2]. cbn in Hret. subst r2. cbn.
  destruct (await_loop _ _ k _ _ s2) as [[r3 s3] ev3]. reflexivity.
Qed.

Lemma await_loop_success max_retries max_delay k attempt delay s s1 ev1 :
  probe s = (Ok tt, s1, ev1) ->
  await_loop max_retries max_delay (S k) attempt delay s = (Ok tt, s1, ev1).
Proof. intros E. rewrite await_loop_S. unfold try_except. rewrite E. reflexivity. Qed.

(** The loop of [await_up]: after [j] failed attempts, each followed by its
    sleep, either a probe is answered or the attempts are used up. *)
Lemma await_loop_spec max_retries max_delay remaining :
  forall attempt delay s,
    let run := await_loop max_retries max_delay remaining attempt delay s in
    exists j,
      sleeps (events_of run) = schedule max_delay j delay /\
      ((result_of run = Ok tt /\ (j < remaining)%nat /\
        probe_outcomes (events_of run) = repeat false j ++ [true] /\
        is_query_service_ready (state_of run) = true /\
        conn (state_of run) = Some ConnOpen) \/
       (result_of run = Raise (NotAvailable max_retries) /\ j = remaining /\
        probe_outcomes (events_of run) = repeat false j)).
Proof.
  induction remaining as [| k IH]; intros attempt delay s; cbn zeta.
  - exists 0%nat. cbn. split; [reflexivity |]. right. auto.
  - destruct (probe_cases s) as [(s1 & E & Hr & Hc) | (e & s1 & E)].
    + rewrite (await_loop_success _ _ _ _ _ _ _ _ E).
      exists 0%nat. cbn. split; [reflexivity |]. left.
      repeat split; auto. lia.
    + rewrite (await_loop_fail _ _ _ _ _ _ _ _ _ E). cbn zeta.
      destruct (reconnect_quiet s1) as [Hq1 Hq2].
      specialize (IH (attempt + 1)%Z (next_delay max_delay delay)
                     (state_of (reconnect s1))).
      cbn zeta in IH. destruct IH as (j & Hs & Hcase). exists (S j).
      destruct (await_loop _ _ k _ _ _) as [[r3 s3] ev3].
      destruct (reconnect s1) as [[r2 s2] ev2].
      cbn [events_of result_of state_of fst snd] in *.
      rewrite !sleeps_app, !probe_outcomes_app, Hq1, Hq2. cbn.
      split; [congruence |].
      destruct Hcase as [(H1 & H2 & H3 & H4 & H5) | (H1 & H2 & H3)].
      * left. repeat split; auto; [lia | congruence].
      * right. repeat split; auto; congruence.
Qed.

Lemma await_up_ready max_retries initial_delay max_delay s :
  is_query_service_ready s = true ->
  await_up max_retries initial_delay max_delay s = (Ok tt, s, []).
Proof. intros H. unfold await_up, bind, get. cbn. rewrite H. reflexivity. Qed.

(** [await_up] on a client that has not seen the store ready: the connect
    of a client without a handle raises, or the loop runs. *)
Lemma await_up_spec max_retries initial_delay max_delay s :
  is_query_service_ready s = false ->
  let run := await_up max_retries initial_delay max_delay s in
  (exists e, conn s = None /\ result_of run = Raise e /\
             result_of (connect s) = Raise e /\
             probe_outcomes (events_of run) = [] /\ sleeps (events_of run) = []) \/
  (exists j,
      sleeps (events_of run) = schedule max_delay j initial_delay /\
      ((result_of run = Ok tt /\ (j < Z.to_nat max_retries)%nat /\
        probe_outcomes (events_of run) = repeat false j ++ [true] /\
        is_query_service_ready (state_of run) = true /\
        conn (state_of run) = Some ConnOpen) \/
       (result_of run = Raise (NotAvailable max_retries) /\
        j = Z.to_nat max_retries /\
        probe_outcomes (events_of run) = repeat false j))).
Proof.
  intros Hr. cbn zeta. unfold await_up, bind at 1, get. cbn. rewrite Hr.
  unfold bind.
  assert (Hloop := fun s0 =>
    await_loop_spec max_retries max_delay (Z.to_nat max_retries) 1%Z initial_delay s0).
  cbn zeta in Hloop.
  destruct (conn s) as [c |] eqn:Ec.
  - cbn. specialize (Hloop s).
    destruct (await_loop _ _ _ _ _ s) as [[r1 s1] ev1].
    cbn [events_of result_of state_of fst snd] in *. right. exact Hloop.
  - destruct (connect_quiet s) as [Hq1 Hq2].
    destruct (connect s) as [[[[] | e] s0] ev0].
    + specialize (Hloop s0).
      destruct (await_loop _ _ _ _ _ s0) as [[r1 s1] ev1].
      cbn [events_of result_of state_of fst snd] in *. right.
      rewrite sleeps_app, probe_outcomes_app, Hq1, Hq2. exact Hloop.
    + left. exists e. cbn in *. auto.
Qed.

Lemma repeat_false_true j n : repeat false j ++ [true] <> repeat false n.
Proof.
  intros H. assert (Hin : In true (repeat false n)).
  { rewrite <- H. apply in_or_app. right. left. reflexivity. }
  apply repeat_spec in Hin. discriminate.
Qed.

Lemma schedule_default_2 : schedule 10 2 1 = [1%Q; (3 # 2)%Q].
Proof. reflexivity. Qed.

Lemma schedule_default_total : (total (schedule 10 30 1) == 26078125 # 100000)%Q.
Proof. vm_compute. reflexivity. Qed.


(** ** The opening of a method, and what follows it *)

Lemma accepts_bootstrap_no_row_statement : accepts_bootstrap no_row_statement.
Proof. constructor; reflexivity. Qed.

Lemma prelude_no_row_statement s :
  forallb no_row_statement (events_of (prelude s)) = true.
Proof.
  apply (maintains_prelude any_state no_row_statement frame_any_state
           accepts_bootstrap_no_row_statement s).
Qed.

Lemma await_up_no_row_statement s :
  forallb no_row_statement (events_of (await_up_default s)) = true.
Proof.
  apply (maintains_await_up any_state no_row_statement frame_any_state
           accepts_bootstrap_no_row_statement); reflexivity.
Qed.

Lemma await_up_same_store : maintains same_store no_write await_up_default.
Proof.
  apply (maintains_await_up _ _ frame_same_store accepts_bootstrap_no_write);
    reflexivity.
Qed.

Lemma no_row_statement_In evs q err :
  forallb no_row_statement evs = true -> In (EvExecute q err) evs ->
  touches_rows q = false.
Proof.
  intros H Hin. rewrite forallb_forall in H. specialize (H _ Hin). cbn in H.
  destruct (touches_rows q); [discriminate | reflexivity].
Qed.

(** A method that opens with the prelude: it stops where the prelude
    raises, and otherwise goes on from the state the prelude left. *)
Lemma run_after_prelude {A} (rest : M A) s :
  (prelude ;; rest) s =
    match prelude s with
    | (Ok _, s1, ev1) =>
        (result_of (rest s1), state_of (rest s1), ev1 ++ events_of (rest s1))
    | (Raise e, s1, ev1) => (Raise e, s1, ev1)
    end.
Proof.
  unfold bind. destruct (prelude s) as [[[[] | e] s1] ev1]; [| reflexivity].
  destruct (rest s1) as [[r s2] ev2]. reflexivity.
Qed.

(** ** Looking a chat up *)

Section Store.

Variable P : platform.

Lemma decode_metadata_eq stored s :
  decode_metadata P stored s =
    match decoded P stored with
    | Some v => (Ok v, s, [])
    | None => (Raise JSONDecodeError, s, [])
    end.
Proof.
  unfold decode_metadata, decoded.
  destruct (jsonb_fetch P stored); try reflexivity.
  destruct (json_loads P s0); reflexivity.
Qed.

Lemma has_chat_chats_with id d : has_chat id d = false -> chats_with id d = [].
Proof.
  unfold has_chat, chats_with. induction (chats d) as [| c l IH]; cbn; [reflexivity |].
  destruct (String.eqb (chat_id c) id); cbn; [discriminate | exact IH].
Qed.

Lemma chats_with_has_chat id d row rest :
  chats_with id d = row :: rest -> has_chat id d = true /\ chat_id row = id.
Proof.
  unfold has_chat, chats_with. intros H.
  assert (Hin : In row (filter (fun c => String.eqb (chat_id c) id) (chats d))).
  { rewrite H. left. reflexivity. }
  apply filter_In in Hin. destruct Hin as [Hin Heq]. split.
  - apply existsb_exists. eauto.
  - apply String.eqb_eq, Heq.
Qed.

(** The lookup on a connected client, case by case. *)
Lemma get_chat_try_open id s :
  conn s = Some ConnOpen ->
  get_chat_try P id s =
    match faults s (ticks s) with
    | Some (e, drops) =>
        (Ok None, set_conn (Some (if drops then ConnClosed else ConnOpen)) (tick s),
         [EvExecute (SelectChat id) (Some e); EvLog WARNING (FailedToGetChat e)])
    | None =>
        match chats_with id (db s) with
        | [] => (Ok None, tick s, [EvExecute (SelectChat id) None])
        | row :: _ =>
            match decoded P (chat_metadata row) with
            | Some metadata =>
                (Ok (Some (chat_view_of P row metadata)), tick s,
                 [EvExecute (SelectChat id) None])
            | None =>
                (Ok None, tick s,
                 [EvExecute (SelectChat id) None;
                  EvLog WARNING (FailedToGetChat JSONDecodeError)])
            end
        end
    end.
Proof.
  intros Hc. unfold get_chat_try, try_except, bind at 1.
  rewrite (execute_open _ _ Hc).
  destruct (faults s (ticks s)) as [[e drops] |]; [reflexivity |].
  cbn. fold (chats_with id (db s)).
  destruct (chats_with id (db s)) as [| row rest]; [reflexivity |].
  cbn. unfold bind. rewrite decode_metadata_eq.
  destruct (decoded P (chat_metadata row)); reflexivity.
Qed.

(** The lookup never raises. *)
Lemma get_chat_try_returns id s :
  exists v, result_of (get_chat_try P id s) = Ok v.
Proof.
  unfold get_chat_try, try_except, bind at 1.
  destruct (execute (SelectChat id) s) as [[[c | e] s1] ev1]; cbn.
  - destruct (fetchone c) as [row |]; cbn; [| eauto].
    unfold bind. rewrite decode_metadata_eq.
    destruct (decoded P (chat_metadata row)); cbn; eauto.
  - eauto.
Qed.

(** A lookup that found the chat went through an open connection without a
    fault, and changed nothing but the count of round trips. *)
Lemma get_chat_try_some id s v s1 ev :
  get_chat_try P id s = (Ok (Some v), s1, ev) ->
  conn s = Some ConnOpen /\ faults s (ticks s) = None /\
  s1 = tick s /\ ev = [EvExecute (SelectChat id) None] /\
  exists row rest metadata,
    chats_with id (db s) = row :: rest /\
    decoded P (chat_metadata row) = Some metadata /\
    v = chat_view_of P row metadata.
Proof.
  intros H.
  assert (Hc : conn s = Some ConnOpen).
  { revert H. unfold get_chat_try, try_except, bind at 1.
    destruct (execute (SelectChat id) s) as [[[c | e] s0] ev0] eqn:E.
    - intros _. apply execute_ok in E. apply E.
    - cbn. discriminate. }
  rewrite (get_chat_try_open id s Hc) in H.
  destruct (faults s (ticks s)) as [[e drops] |]; [discriminate H |].
  destruct (chats_with id (db s)) as [| row rest] eqn:Er; [discriminate H |].
  destruct (decoded P (chat_metadata row)) as [md |] eqn:Ed; [| discriminate H].
  inversion H; subst. repeat split; auto. eauto 6.
Qed.

(** A chat that is not in the table is not found. *)
Lemma get_chat_try_absent id s :
  has_chat id (db s) = false -> result_of (get_chat_try P id s) = Ok None.
Proof.
  intros Habs. destruct (get_chat_try_returns id s) as [[v |] Hv]; [| exact Hv].
  destruct (get_chat_try P id s) as [[r s1] ev] eqn:E. cbn in Hv. subst r.
  apply get_chat_try_some in E. destruct E as (_ & _ & _ & _ & row & rest & md & Hrow & _).
  rewrite (has_chat_chats_with _ _ Habs) in Hrow. discriminate Hrow.
Qed.

Lemma get_chat_try_same_store id : maintains same_store no_write (get_chat_try P id).
Proof.
  pose proof frame_same_store as F.
  unfold get_chat_try. apply (maintains_try_except _ _ F).
  - apply (maintains_bind _ _ F);
      [apply (maintains_query _ _ F); reflexivity |].
    intros cur. destruct (fetchone cur); [| apply (maintains_ret _ _ F)].
    apply (maintains_bind _ _ F); [apply (maintains_decode_metadata _ _ F) |].
    intros md. apply (maintains_ret _ _ F).
  - intros e. apply (maintains_bind _ _ F);
      [apply (maintains_log _ _ F accepts_bootstrap_no_write)
      | intros _; apply (maintains_ret _ _ F)].
Qed.

Lemma get_chat_eq id s : get_chat P id s = (prelude ;; get_chat_try P id) s.
Proof. apply after_prelude. Qed.

(** On a client that is connected and bootstrapped, [get_chat] is its
    lookup. *)
Lemma get_chat_prepared id s :
  conn s = Some ConnOpen -> tables_created s = true ->
  get_chat P id s = get_chat_try P id s.
Proof.
  intros Hc Ht. rewrite get_chat_eq, run_after_prelude, (prelude_open s Hc Ht).
  symmetry. apply run_eta.
Qed.

(** ** The [try] statements, step by step *)

Lemma add_message_try_eq now id role content metadata s :
  add_message_try P now id role content metadata s =
    match get_chat P id s with
    | (Raise e, s1, ev1) =>
        (Raise e, s1, ev1 ++ [EvLog ERROR (FailedToAddMessage e)])
    | (Ok None, s1, ev1) =>
        (Raise (ChatNotFound id), s1,
         ev1 ++ [EvLog ERROR (FailedToAddMessage (ChatNotFound id))])
    | (Ok (Some _), s1, ev1) =>
        match execute (UpdateChat now id) s1 with
        | (Raise e, s2, ev2) =>
            (Raise e, s2, ev1 ++ ev2 ++ [EvLog ERROR (FailedToAddMessage e)])
        | (Ok _, s2, ev2) =>
            match execute (InsertMessage (epoch_millis P now) id role content now
                             (json_dumps P (or_empty metadata))) s2 with
            | (Raise e, s3, ev3) =>
                (Raise e, s3,
                 ev1 ++ ev2 ++ ev3 ++ [EvLog ERROR (FailedToAddMessage e)])
            | (Ok _, s3, ev3) =>
                (Ok (epoch_millis P now, isoformat P now), s3,
                 ev1 ++ ev2 ++ ev3 ++
                 [EvLog INFO (AddedMessage (epoch_millis P now) id)])
            end
        end
    end.
Proof.
  unfold add_message_try, try_except, bind at 1.
  destruct (get_chat P id s) as [[[[v |] | e] s1] ev1]; cbn; try reflexivity;
    [| rewrite app_nil_r; reflexivity].
  unfold bind at 1.
  destruct (execute (UpdateChat now id) s1) as [[[c2 | e] s2] ev2]; cbn;
    [| rewrite <- app_assoc; reflexivity].
  unfold bind at 1.
  destruct (execute (InsertMessage _ _ _ _ _ _) s2) as [[[c3 | e] s3] ev3]; cbn;
    rewrite <- ?app_assoc; reflexivity.
Qed.

Lemma delete_chat_try_eq id s :
  delete_chat_try P id s =
    match get_chat P id s with
    | (Raise e, s1, ev1) => (Raise e, s1, ev1 ++ [EvLog ERROR FailedToDeleteChat])
    | (Ok None, s1, ev1) => (Ok false, s1, ev1)
    | (Ok (Some _), s1, ev1) =>
        match execute (DeleteChat id) s1 with
        | (Raise e, s2, ev2) =>
            (Raise e, s2, ev1 ++ ev2 ++ [EvLog ERROR FailedToDeleteChat])
        | (Ok cur, s2, ev2) =>
            if (0 <? rowcount cur)%nat
            then (Ok true, s2, ev1 ++ ev2 ++ [EvLog INFO (DeletedChat id)])
            else (Ok false, s2, ev1 ++ ev2)
        end
    end.
Proof.
  unfold delete_chat_try, try_except, bind at 1.
  destruct (get_chat P id s) as [[[[v |] | e] s1] ev1]; cbn; try reflexivity;
    [| rewrite app_nil_r; reflexivity].
  unfold bind at 1.
  destruct (execute (DeleteChat id) s1) as [[[c2 | e] s2] ev2]; cbn;
    [| rewrite <- app_assoc; reflexivity].
  destruct (rowcount c2); cbn; rewrite <- ?app_assoc, ?app_nil_r; reflexivity.
Qed.

Lemma convert_rows_events rows s :
  state_of (convert_rows P rows s) = s /\ events_of (convert_rows P rows s) = [].
Proof.
  induction rows as [| row rest IH]; [split; reflexivity |].
  change (convert_rows P (row :: rest))
    with (metadata <- decode_metadata P (msg_metadata row) ;;
          views <- convert_rows P rest ;;
          ret (view_of P row metadata :: views)).
  unfold bind. rewrite decode_metadata_eq.
  destruct (decoded P (msg_metadata row)); [| split; reflexivity].
  destruct (convert_rows P rest s) as [[[vs | e] s1] ev1]; cbn in *;
    destruct IH as [-> ->]; split; reflexivity.
Qed.

Lemma get_messages_try_eq id s :
  get_messages_try P id s =
    match execute (SelectMessages id) s with
    | (Raise e, s1, ev1) =>
        (Raise e, s1, ev1 ++ [EvLog ERROR (FailedToGetMessages e)])
    | (Ok cur, s1, ev1) =>
        match result_of (convert_rows P (fetchall cur) s1) with
        | Ok views => (Ok views, s1, ev1)
        | Raise e => (Raise e, s1, ev1 ++ [EvLog ERROR (FailedToGetMessages e)])
        end
    end.
Proof.
  unfold get_messages_try, try_except, bind at 1.
  destruct (execute (SelectMessages id) s) as [[[c | e] s1] ev1]; cbn;
    [| reflexivity].
  destruct (convert_rows_events (fetchall c) s1) as [Hs He].
  destruct (convert_rows P (fetchall c) s1) as [[[vs | e] s2] ev2];
    cbn in *; subst; rewrite ?app_nil_r; reflexivity.
Qed.

Lemma create_chat_try_eq fresh_id now metadata s :
  create_chat_try P fresh_id now metadata s =
    match execute (InsertChat fresh_id now now (json_dumps P (or_empty metadata))) s with
    | (Raise e, s1, ev1) => (Raise e, s1, ev1 ++ [EvLog ERROR (FailedToCreateChat e)])
    | (Ok _, s1, ev1) => (Ok fresh_id, s1, ev1 ++ [EvLog INFO (CreatedChat fresh_id)])
    end.
Proof.
  unfold create_chat_try, try_except, bind at 1.
  destruct (execute _ s) as [[[c | e] s1] ev1]; cbn; reflexivity.
Qed.

End Store.

(** ** The opening that also waits *)

Lemma run_after {A B} (m : M A) (rest : M B) s :
  (m ;; rest) s =
    match m s with
    | (Ok _, s1, ev1) =>
        (result_of (rest s1), state_of (rest s1), ev1 ++ events_of (rest s1))
    | (Raise e, s1, ev1) => (Raise e, s1, ev1)
    end.
Proof.
  unfold bind. destruct (m s) as [[[a | e] s1] ev1]; [| reflexivity].
  destruct (rest s1) as [[r s2] ev2]. reflexivity.
Qed.

Lemma after_prelude_and_wait {A} (rest : M A) s :
  (ensure_connected ;; init ;; await_up_default ;; rest) s =
  (prelude_and_wait ;; rest) s.
Proof.
  unfold prelude_and_wait, prelude. rewrite 2 bind_assoc. reflexivity.
Qed.

Lemma await_up_ok s s1 ev :
  await_up_default s = (Ok tt, s1, ev) ->
  conn s = Some ConnOpen -> conn s1 = Some ConnOpen.
Proof.
  intros E Hc. unfold await_up_default in E.
  destruct (is_query_service_ready s) eqn:Hr.
  - rewrite (await_up_ready _ _ _ s Hr) in E. inversion E; subst. exact Hc.
  - destruct (await_up_spec 30 1 10 s Hr)
      as [(e & _ & H & _) | (j & _ & [(_ & _ & _ & _ & H) | (H & _)])];
      rewrite E in H; cbn in H; [discriminate H | exact H | discriminate H].
Qed.

Lemma prelude_and_wait_same_store : maintains same_store no_write prelude_and_wait.
Proof.
  unfold prelude_and_wait. apply (maintains_bind _ _ frame_same_store).
  - apply prelude_same_store.
  - intros _. apply await_up_same_store.
Qed.

Lemma prelude_and_wait_no_row_statement s :
  forallb no_row_statement (events_of (prelude_and_wait s)) = true.
Proof.
  unfold prelude_and_wait.
  apply (maintains_bind any_state no_row_statement frame_any_state).
  - apply (maintains_prelude _ _ frame_any_state accepts_bootstrap_no_row_statement).
  - intros _. apply (maintains_await_up _ _ frame_any_state
                       accepts_bootstrap_no_row_statement); reflexivity.
Qed.

(** After the opening that waits, the handle is open, the tables exist and
    no row was touched. *)
Lemma prelude_and_wait_ok s s1 ev :
  prelude_and_wait s = (Ok tt, s1, ev) ->
  conn s1 = Some ConnOpen /\ tables_created s1 = true /\
  db s1 = db s /\ faults s1 = faults s.
Proof.
  intros E.
  destruct (prelude_and_wait_same_store s) as [(Hd & Hf & _) _].
  rewrite E in Hd, Hf. cbn in Hd, Hf.
  revert E. unfold prelude_and_wait. rewrite run_after.
  destruct (prelude s) as [[[[] | e] s0] ev0] eqn:E0; [| discriminate].
  apply prelude_ok in E0. destruct E0 as [Hc Ht].
  destruct (await_up_same_store s0) as [(_ & _ & Hm) _].
  destruct (await_up_default s0) as [[[[] | e] s2] ev2] eqn:E2; cbn; intros E;
    inversion E; subst.
  cbn in Hm. repeat split; auto. eapply await_up_ok; eauto.
Qed.

Lemma await_up_healthy s :
  healthy s -> conn s = Some ConnOpen ->
  exists s1 ev, await_up_default s = (Ok tt, s1, ev).
Proof.
  intros Hh Hc. unfold await_up_default.
  destruct (is_query_service_ready s) eqn:Hr.
  - rewrite (await_up_ready _ _ _ s Hr). eauto.
  - unfold await_up, bind at 1, get. cbn. rewrite Hr, Hc.
    unfold bind at 1. cbn.
    change (PosDef.Pos.to_nat 30) with 30%nat.
    assert (E : probe s = (Ok tt, set_is_query_service_ready true (tick s),
                           [EvExecute Select1 None; EvLog INFO DatabaseIsReady])).
    { unfold probe, bind, modify, log, emit.
      rewrite (execute_healthy _ _ Hh Hc). reflexivity. }
    rewrite (await_loop_success _ _ _ _ _ _ _ _ E). eauto.
Qed.

(** On a store that works, the opening that waits succeeds. *)
Lemma prelude_and_wait_healthy s :
  healthy s ->
  exists s1 ev, prelude_and_wait s = (Ok tt, s1, ev) /\
    conn s1 = Some ConnOpen /\ tables_created s1 = true /\
    db s1 = db s /\ healthy s1.
Proof.
  intros Hh.
  destruct (prelude_healthy s Hh) as (s0 & ev0 & E0 & Hc0 & Ht0 & Hd0 & Hh0).
  destruct (await_up_healthy s0 Hh0 Hc0) as (s1 & ev1 & E1).
  assert (E : prelude_and_wait s = (Ok tt, s1, ev0 ++ ev1)).
  { unfold prelude_and_wait. rewrite run_after, E0, E1. reflexivity. }
  exists s1, (ev0 ++ ev1). split; [exact E |].
  destruct (prelude_and_wait_ok _ _ _ E) as (H1 & H2 & H3 & H4).
  repeat split; auto. eapply healthy_same_faults; eauto.
Qed.

Lemma prelude_result_unit s u : result_of (prelude s) = Ok u -> u = tt.
Proof. destruct u. reflexivity. Qed.

(** ** Deleting *)

Lemma chats_with_length id l :
  (length (filter (fun c => negb (String.eqb (chat_id c) id)) l) +
   length (filter (fun c => String.eqb (chat_id c) id) l) = length l)%nat.
Proof.
  induction l as [| c l IH]; cbn; [reflexivity |].
  destruct (String.eqb (chat_id c) id); cbn; lia.
Qed.

Lemma has_chat_after_delete id l :
  existsb (fun c => String.eqb (chat_id c) id) (filter (not_chat id) l) = false.
Proof.
  induction l as [| c l IH]; cbn; [reflexivity |].
  unfold not_chat at 1. destruct (String.eqb (chat_id c) id) eqn:E; cbn; [exact IH |].
  rewrite E. exact IH.
Qed.

Section Prepared.

Variable P : platform.

Lemma delete_chat_eq id s :
  delete_chat P id s = (prelude_and_wait ;; delete_chat_try P id) s.
Proof. apply after_prelude_and_wait. Qed.

Lemma get_messages_eq id s :
  get_messages P id s = (prelude_and_wait ;; get_messages_try P id) s.
Proof. apply after_prelude_and_wait. Qed.

Lemma add_message_eq now id role content metadata s :
  add_message P now id role content metadata s =
  (prelude ;; add_message_try P now id role content metadata) s.
Proof. apply after_prelude. Qed.

Lemma create_chat_eq fresh_id now metadata s :
  create_chat P fresh_id now metadata s =
  (prelude ;; create_chat_try P fresh_id now metadata) s.
Proof. apply after_prelude. Qed.

(** The [try] of [delete_chat] on a connected, bootstrapped client, case by
    case: the lookup fails, finds nothing, finds a chat it cannot decode,
    or finds the chat; then the DELETE fails or removes the rows. *)
Lemma delete_chat_try_prepared id s :
  conn s = Some ConnOpen -> tables_created s = true ->
  delete_chat_try P id s =
    match faults s (ticks s) with
    | Some (e, drops) =>
        (Ok false, set_conn (Some (if drops then ConnClosed else ConnOpen)) (tick s),
         [EvExecute (SelectChat id) (Some e); EvLog WARNING (FailedToGetChat e)])
    | None =>
        match chats_with id (db s) with
        | [] => (Ok false, tick s, [EvExecute (SelectChat id) None])
        | row :: _ =>
            match decoded P (chat_metadata row) with
            | None =>
                (Ok false, tick s,
                 [EvExecute (SelectChat id) None;
                  EvLog WARNING (FailedToGetChat JSONDecodeError)])
            | Some _ =>
                match faults s (S (ticks s)) with
                | Some (e, drops) =>
                    (Raise e,
                     set_conn (Some (if drops then ConnClosed else ConnOpen))
                       (tick (tick s)),
                     [EvExecute (SelectChat id) None;
                      EvExecute (DeleteChat id) (Some e);
                      EvLog ERROR FailedToDeleteChat])
                | None =>
                    (Ok true,
                     set_db (snd (run_statement (DeleteChat id) (db s)))
                       (tick (tick s)),
                     [EvExecute (SelectChat id) None;
                      EvExecute (DeleteChat id) None;
                      EvLog INFO (DeletedChat id)])
                end
            end
        end
    end.
Proof.
  intros Hc Ht.
  rewrite delete_chat_try_eq, (get_chat_prepared P id s Hc Ht),
    (get_chat_try_open P id s Hc).
  destruct (faults s (ticks s)) as [[e drops] |]; [reflexivity |].
  destruct (chats_with id (db s)) as [| row rest] eqn:Er; [reflexivity |].
  destruct (decoded P (chat_metadata row)); [| reflexivity].
  rewrite execute_open by exact Hc. cbn [faults ticks tick db].
  destruct (faults s (S (ticks s))) as [[e drops] |]; [reflexivity |].
  unfold run_statement. fold (chats_with id (db s)). rewrite Er. reflexivity.
Qed.

(** The [try] of [add_message] on a connected, bootstrapped client, case by
    case. *)
Lemma add_message_try_prepared now id role content metadata s :
  conn s = Some ConnOpen -> tables_created s = true ->
  add_message_try P now id role content metadata s =
    match faults s (ticks s) with
    | Some (e, drops) =>
        (Raise (ChatNotFound id),
         set_conn (Some (if drops then ConnClosed else ConnOpen)) (tick s),
         [EvExecute (SelectChat id) (Some e); EvLog WARNING (FailedToGetChat e);
          EvLog ERROR (FailedToAddMessage (ChatNotFound id))])
    | None =>
        match chats_with id (db s) with
        | [] =>
            (Raise (ChatNotFound id), tick s,
             [EvExecute (SelectChat id) None;
              EvLog ERROR (FailedToAddMessage (ChatNotFound id))])
        | row :: _ =>
            match decoded P (chat_metadata row) with
            | None =>
                (Raise (ChatNotFound id), tick s,
                 [EvExecute (SelectChat id) None;
                  EvLog WARNING (FailedToGetChat JSONDecodeError);
                  EvLog ERROR (FailedToAddMessage (ChatNotFound id))])
            | Some _ =>
                let update := UpdateChat now id in
                let insert :=
                  InsertMessage (epoch_millis P now) id role content now
                    (json_dumps P (or_empty metadata)) in
                match faults s (S (ticks s)) with
                | Some (e, drops) =>
                    (Raise e,
                     set_conn (Some (if drops then ConnClosed else ConnOpen))
                       (tick (tick s)),
                     [EvExecute (SelectChat id) None;
                      EvExecute update (Some e);
                      EvLog ERROR (FailedToAddMessage e)])
                | None =>
                    let d1 := snd (run_statement update (db s)) in
                    match faults s (S (S (ticks s))) with
                    | Some (e, drops) =>
                        (Raise e,
                         set_conn (Some (if drops then ConnClosed else ConnOpen))
                           (set_db d1 (tick (tick (tick s)))),
                         [EvExecute (SelectChat id) None;
                          EvExecute update None;
                          EvExecute insert (Some e);
                          EvLog ERROR (FailedToAddMessage e)])
                    | None =>
                        match run_statement insert d1 with
                        | (Ok _, d2) =>
                            (Ok (epoch_millis P now, isoformat P now),
                             set_db d2 (tick (tick (tick s))),
                             [EvExecute (SelectChat id) None;
                              EvExecute update None;
                              EvExecute insert None;
                              EvLog INFO (AddedMessage (epoch_millis P now) id)])
                        | (Raise e, d2) =>
                            (Raise e, set_db d2 (tick (tick (tick s))),
                             [EvExecute (SelectChat id) None;
                              EvExecute update None;
                              EvExecute insert (Some e);
                              EvLog ERROR (FailedToAddMessage e)])
                        end
                    end
                end
            end
        end
    end.
Proof.
  intros Hc Ht.
  rewrite add_message_try_eq, (get_chat_prepared P id s Hc Ht),
    (get_chat_try_open P id s Hc).
  destruct (faults s (ticks s)) as [[e drops] |]; [reflexivity |].
  destruct (chats_with id (db s)) as [| row rest] eqn:Er; [reflexivity |].
  destruct (decoded P (chat_metadata row)); [| reflexivity].
  cbn zeta.
  rewrite execute_open by exact Hc. cbn [faults ticks tick db].
  destruct (faults s (S (ticks s))) as [[e drops] |]; [reflexivity |].
  change (run_statement (UpdateChat now id) (db s))
    with (Ok (Status (length (chats_with id (db s)))),
          snd (run_statement (UpdateChat now id) (db s))).
  cbv iota. rewrite execute_open by exact Hc.
  cbn [faults ticks tick db set_db].
  destruct (faults s (S (S (ticks s)))) as [[e drops] |]; [reflexivity |].
  destruct (run_statement (InsertMessage _ _ _ _ _ _) _) as [[c | e] d2];
    reflexivity.
Qed.

(** The [try] of [get_messages] on a connected client. *)
Lemma get_messages_try_open id s :
  conn s = Some ConnOpen ->
  get_messages_try P id s =
    match faults s (ticks s) with
    | Some (e, drops) =>
        (Raise e, set_conn (Some (if drops then ConnClosed else ConnOpen)) (tick s),
         [EvExecute (SelectMessages id) (Some e);
          EvLog ERROR (FailedToGetMessages e)])
    | None =>
        let rows := order_by_created_at (filter (of_chat id) (messages (db s))) in
        match result_of (convert_rows P rows (tick s)) with
        | Ok views => (Ok views, tick s, [EvExecute (SelectMessages id) None])
        | Raise e =>
            (Raise e, tick s,
             [EvExecute (SelectMessages id) None;
              EvLog ERROR (FailedToGetMessages e)])
        end
    end.
Proof.
  intros Hc. rewrite get_messages_try_eq, (execute_open _ _ Hc).
  destruct (faults s (ticks s)) as [[e drops] |]; reflexivity.
Qed.

End Prepared.

(** ** Reading the messages of a chat *)

Lemma insert_by_created_at_perm m l :
  Permutation (insert_by_created_at m l) (m :: l).
Proof.
  induction l as [| x rest IH]; cbn; [apply Permutation_refl |].
  destruct (msg_created_at m <=? msg_created_at x)%Z; [apply Permutation_refl |].
  eapply Permutation_trans; [apply perm_skip, IH | apply perm_swap].
Qed.

Lemma order_by_created_at_perm l : Permutation (order_by_created_at l) l.
Proof.
  induction l as [| x rest IH]; cbn; [apply perm_nil |].
  eapply Permutation_trans; [apply insert_by_created_at_perm |].
  apply perm_skip, IH.
Qed.

Lemma insert_by_created_at_hd m x l :
  created_at_le x m -> HdRel created_at_le x l ->
  HdRel created_at_le x (insert_by_created_at m l).
Proof.
  intros Hxm Hhd. destruct l as [| y rest]; cbn; [constructor; exact Hxm |].
  destruct (msg_created_at m <=? msg_created_at y)%Z; constructor;
    [exact Hxm | inversion Hhd; assumption].
Qed.

Lemma insert_by_created_at_sorted m l :
  Sorted created_at_le l -> Sorted created_at_le (insert_by_created_at m l).
Proof.
  induction 1 as [| x rest Hs IH Hhd]; cbn; [repeat constructor |].
  destruct (msg_created_at m <=? msg_created_at x)%Z eqn:E.
  - constructor; [constructor; assumption |].
    constructor. unfold created_at_le. apply Z.leb_le, E.
  - constructor; [exact IH |].
    apply insert_by_created_at_hd; [| exact Hhd].
    unfold created_at_le. apply Z.leb_gt in E. lia.
Qed.

Lemma order_by_created_at_sorted l : Sorted created_at_le (order_by_created_at l).
Proof.
  induction l as [| x rest IH]; cbn; [constructor |].
  apply insert_by_created_at_sorted, IH.
Qed.

Section Reading.

Variable P : platform.

Lemma convert_rows_cons row rest s :
  convert_rows P (row :: rest) s =
    match decoded P (msg_metadata row) with
    | None => (Raise JSONDecodeError, s, [])
    | Some metadata =>
        match result_of (convert_rows P rest s) with
        | Ok views => (Ok (view_of P row metadata :: views), s, [])
        | Raise e => (Raise e, s, [])
        end
    end.
Proof.
  change (convert_rows P (row :: rest))
    with (metadata <- decode_metadata P (msg_metadata row) ;;
          views <- convert_rows P rest ;;
          ret (view_of P row metadata :: views)).
  unfold bind. rewrite decode_metadata_eq.
  destruct (decoded P (msg_metadata row)); [| reflexivity].
  destruct (convert_rows_events P rest s) as [Hs He].
  destruct (convert_rows P rest s) as [[[vs | e] s1] ev1]; cbn in *; subst;
    reflexivity.
Qed.

Lemma convert_rows_ok rows s views :
  result_of (convert_rows P rows s) = Ok views -> Forall2 (shows P) rows views.
Proof.
  revert views. induction rows as [| row rest IH]; intros views.
  - unfold convert_rows, ret. cbn. intros H. inversion H; subst. constructor.
  - rewrite convert_rows_cons.
    destruct (decoded P (msg_metadata row)) as [md |] eqn:Ed; [| discriminate].
    destruct (result_of (convert_rows P rest s)) as [vs | e]; [| discriminate].
    cbn. intros H. inversion H; subst. constructor; [| apply IH; reflexivity].
    exists md. auto.
Qed.

Lemma convert_rows_total rows s :
  (forall row, In row rows -> decoded P (msg_metadata row) <> None) ->
  exists views, result_of (convert_rows P rows s) = Ok views.
Proof.
  induction rows as [| row rest IH]; intros Hdec; [exists []; reflexivity |].
  rewrite convert_rows_cons.
  destruct (decoded P (msg_metadata row)) as [md |] eqn:Ed.
  - destruct IH as [vs Hvs]; [intros r Hr; apply Hdec; right; exact Hr |].
    rewrite Hvs. eexists. reflexivity.
  - exfalso. apply (Hdec row); [left; reflexivity | exact Ed].
Qed.

End Reading.

(** ** Appending a message *)

Lemma touch_id now id c : chat_id (touch now id c) = chat_id c.
Proof. unfold touch. destruct (String.eqb (chat_id c) id); reflexivity. Qed.

Lemma chats_with_touch now id d :
  filter (fun c => String.eqb (chat_id c) id) (map (touch now id) (chats d)) =
  map (touch now id) (chats_with id d).
Proof.
  unfold chats_with. induction (chats d) as [| c l IH]; [reflexivity |].
  cbn [map filter]. rewrite touch_id, IH.
  destruct (String.eqb (chat_id c) id); reflexivity.
Qed.

Lemma touch_metadata now id c : chat_metadata (touch now id c) = chat_metadata c.
Proof. unfold touch. destruct (String.eqb (chat_id c) id); reflexivity. Qed.

Lemma touched_updated_at now id l c :
  In c (map (touch now id) l) -> chat_id c = id -> chat_updated_at c = now.
Proof.
  intros Hin Hid. apply in_map_iff in Hin. destruct Hin as (c0 & <- & _).
  revert Hid. unfold touch. destruct (String.eqb (chat_id c0) id) eqn:E; cbn.
  - reflexivity.
  - intros Hid. apply String.eqb_neq in E. contradiction.
Qed.

Lemma has_chat_touch now id d :
  existsb (fun c => String.eqb (chat_id c) id) (map (touch now id) (chats d)) =
  has_chat id d.
Proof.
  unfold has_chat. induction (chats d) as [| c l IH]; [reflexivity |].
  cbn [map existsb]. rewrite touch_id, IH. reflexivity.
Qed.

Lemma has_message_app chat id d row :
  existsb (fun m => String.eqb (msg_chat_id m) chat && (msg_id m =? id)%Z)
          (messages d ++ [row]) =
  has_message chat id d || (String.eqb (msg_chat_id row) chat && (msg_id row =? id)%Z).
Proof. unfold has_message. rewrite existsb_app. cbn. rewrite orb_false_r. reflexivity. Qed.

Lemma has_message_key chat id d :
  has_message chat id d = false -> ~ In (chat, id) (map message_key (messages d)).
Proof.
  unfold has_message. intros H Hin. apply in_map_iff in Hin.
  destruct Hin as (m & Hk & Hin). unfold message_key in Hk. inversion Hk; subst.
  assert (Ht : existsb (fun m0 => String.eqb (msg_chat_id m0) (msg_chat_id m)
                                  && (msg_id m0 =? msg_id m)%Z) (messages d) = true).
  { apply existsb_exists. exists m. split; [exact Hin |].
    rewrite String.eqb_refl, Z.eqb_refl. reflexivity. }
  congruence.
Qed.

(** What the INSERT of [add_message] does when the store accepts it. *)
Lemma insert_message_ok id chat role content created metadata d c d' :
  run_statement (InsertMessage id chat role content created metadata) d = (Ok c, d') ->
  exists chat' role',
    varchar 36 chat = Some chat' /\ varchar 50 role = Some role' /\
    in_bigint id = true /\ has_message chat' id d = false /\
    has_chat chat' d = true /\
    d' = {| chats := chats d;
            messages := messages d ++
              [{| msg_id := id; msg_chat_id := chat'; msg_role := role';
                  msg_content := content; msg_created_at := created;
                  msg_metadata := metadata |}] |}.
Proof.
  unfold run_statement.
  destruct (varchar 36 chat) as [chat' |]; [| destruct (varchar 50 role); discriminate].
  destruct (varchar 50 role) as [role' |]; [| discriminate].
  destruct (in_bigint id); cbn [negb]; [| discriminate].
  destruct (has_message chat' id d) eqn:Hm; [discriminate |].
  destruct (has_chat chat' d) eqn:Hc; cbn [negb]; [| discriminate].
  intros H. inversion H; subst. exists chat', role'. repeat split; auto.
Qed.

Section Appending.

Variable P : platform.

(** A call of [add_message] that returned: what it returned, and the state
    it left. *)
Lemma add_message_ok now id role content metadata s r :
  result_of (add_message P now id role content metadata s) = Ok r ->
  r = (epoch_millis P now, isoformat P now) /\
  exists chat' role' row0 rest metadata0,
    varchar 36 id = Some chat' /\ varchar 50 role = Some role' /\
    in_bigint (epoch_millis P now) = true /\
    has_message chat' (epoch_millis P now) (db s) = false /\
    chats_with id (db s) = row0 :: rest /\
    decoded P (chat_metadata row0) = Some metadata0 /\
    db (state_of (add_message P now id role content metadata s)) =
      {| chats := map (touch now id) (chats (db s));
         messages := messages (db s) ++
                     [new_message P now chat' role' content metadata] |} /\
    conn (state_of (add_message P now id role content metadata s)) = Some ConnOpen /\
    tables_created (state_of (add_message P now id role content metadata s)) = true /\
    faults (state_of (add_message P now id role content metadata s)) = faults s.
Proof.
  rewrite add_message_eq, run_after.
  destruct (prelude_same_store s) as [(Hd & Hf & _) _].
  pose proof (prelude_ok s) as Hok.
  destruct (prelude s) as [[[[] | e0] s1] ev1];
    cbn [result_of state_of events_of fst snd] in *; [| discriminate].
  destruct (Hok s1 ev1 eq_refl) as (Hc & Ht). clear Hok.
  rewrite (add_message_try_prepared P now id role content metadata s1 Hc Ht), Hd.
  destruct (faults s1 (ticks s1)) as [[e drops] |]; [discriminate |].
  destruct (chats_with id (db s)) as [| row0 rest] eqn:Er; [discriminate |].
  destruct (decoded P (chat_metadata row0)) as [md0 |] eqn:Ed; [| discriminate].
  cbn zeta.
  destruct (faults s1 (S (ticks s1))) as [[e drops] |]; [discriminate |].
  destruct (faults s1 (S (S (ticks s1)))) as [[e drops] |]; [discriminate |].
  destruct (run_statement (InsertMessage _ _ _ _ _ _) _) as [[c | e] d2] eqn:Ei;
    [| discriminate].
  cbn [result_of state_of events_of fst snd].
  intros H. inversion H; subst r. split; [reflexivity |].
  apply insert_message_ok in Ei.
  destruct Ei as (chat' & role' & Hv1 & Hv2 & Hb & Hm & Hch & ->).
  exists chat', role', row0, rest, md0.
  cbn [db conn tables_created faults set_db tick].
  repeat split; auto.
Qed.

End Appending.

Lemma primary_key_append d row :
  primary_key_ok d -> has_message (msg_chat_id row) (msg_id row) d = false ->
  NoDup (map message_key (messages d ++ [row])).
Proof.
  unfold primary_key_ok. intros Hnd Hm. rewrite map_app. apply NoDup_app.
  - exact Hnd.
  - cbn. constructor; [intros [] | constructor].
  - intros k Hin [Hk | []]. subst k.
    apply (has_message_key _ _ _ Hm). exact Hin.
Qed.

Lemma varchar_fits n s : (String.length s <= n)%nat -> varchar n s = Some s.
Proof.
  intros H. unfold varchar. apply Nat.leb_le in H. rewrite H. reflexivity.
Qed.

(** ** What a read hands back *)

Lemma Forall2_in_left {A B} (R : A -> B -> Prop) l l' x :
  Forall2 R l l' -> In x l -> exists y, In y l' /\ R x y.
Proof.
  induction 1 as [| a b l l' Hab _ IH]; intros Hin; [contradiction |].
  destruct Hin as [<- | Hin].
  - exists b. split; [left; reflexivity | exact Hab].
  - destruct (IH Hin) as (y & Hy & Hr). exists y. split; [right; exact Hy | exact Hr].
Qed.

Lemma or_empty_dict m : is_dict m -> or_empty (Some m) = m.
Proof.
  destruct m as [| | | | | members]; cbn; try contradiction.
  intros _. destruct members; reflexivity.
Qed.

Section Returned.

Variable P : platform.

(** A call of [get_messages] that returned. *)
Lemma get_messages_returned id s views :
  result_of (get_messages P id s) = Ok views ->
  Forall2 (shows P)
    (order_by_created_at (filter (of_chat id) (messages (db s)))) views /\
  db (state_of (get_messages P id s)) = db s.
Proof.
  rewrite get_messages_eq, run_after.
  pose proof (prelude_and_wait_ok s) as Hok.
  destruct (prelude_and_wait s) as [[[[] | e0] s1] ev1];
    cbn [result_of state_of events_of fst snd]; [| discriminate].
  destruct (Hok s1 ev1 eq_refl) as (Hc & _ & Hd & _).
  rewrite (get_messages_try_open P id s1 Hc), Hd.
  destruct (faults s1 (ticks s1)) as [[e drops] |]; [discriminate |].
  cbn zeta.
  destruct (result_of (convert_rows P _ (tick s1))) as [vs | e] eqn:E;
    cbn [result_of state_of events_of fst snd]; [| discriminate].
  intros H. inversion H; subst vs.
  split; [eapply convert_rows_ok; exact E | exact Hd].
Qed.

(** On a store that works, [create_chat] with an id that is new and fits
    the column inserts the row and returns the id. *)
Lemma create_chat_healthy fresh_id now metadata s :
  healthy s -> has_chat fresh_id (db s) = false ->
  (String.length fresh_id <= 36)%nat ->
  result_of (create_chat P fresh_id now metadata s) = Ok fresh_id /\
  conn (state_of (create_chat P fresh_id now metadata s)) = Some ConnOpen /\
  tables_created (state_of (create_chat P fresh_id now metadata s)) = true /\
  healthy (state_of (create_chat P fresh_id now metadata s)) /\
  db (state_of (create_chat P fresh_id now metadata s)) =
    {| chats := chats (db s) ++
         [{| chat_id := fresh_id; chat_created_at := now; chat_updated_at := now;
             chat_metadata := json_dumps P (or_empty metadata) |}];
       messages := messages (db s) |}.
Proof.
  intros Hh Habs Hlen. rewrite create_chat_eq, run_after.
  destruct (prelude_healthy s Hh) as (s1 & ev1 & E & Hc & Ht & Hd & Hh1).
  rewrite E. cbn [result_of state_of events_of fst snd].
  rewrite create_chat_try_eq, (execute_healthy _ _ Hh1 Hc).
  unfold run_statement. rewrite (varchar_fits 36 fresh_id Hlen), Hd, Habs.
  cbn [result_of state_of events_of fst snd db conn tables_created set_db tick].
  repeat split; auto.
Qed.

End Returned.

(** ** The concrete codec reads back what it writes *)

Module ConcreteFacts.

Import Concrete.
Local Open Scope string_scope.

Lemma json_induction (Q : json -> Prop) :
  Q JNull -> (forall b, Q (JBool b)) -> (forall n, Q (JNum n)) ->
  (forall s, Q (JStr s)) ->
  (forall items, Forall Q items -> Q (JArr items)) ->
  (forall members, Forall (fun kv => Q (snd kv)) members -> Q (JObj members)) ->
  forall v, Q v.
Proof.
  intros Hnull Hbool Hnum Hstr Harr Hobj. fix IH 1. intros [| b | n | s | items | members].
  - exact Hnull.
  - apply Hbool.
  - apply Hnum.
  - apply Hstr.
  - apply Harr. induction items as [| x xs IHxs]; constructor; [apply IH | exact IHxs].
  - apply Hobj. induction members as [| [k x] xs IHxs]; constructor;
      [apply IH | exact IHxs].
Qed.

Lemma append_assoc (a b c : string) : (a ++ b) ++ c = a ++ (b ++ c).
Proof. induction a as [| x a IH]; cbn; [reflexivity | rewrite IH; reflexivity]. Qed.

Lemma append_nil_r (a : string) : a ++ EmptyString = a.
Proof. induction a as [| x a IH]; cbn; [reflexivity | rewrite IH; reflexivity]. Qed.

Lemma length_append (a b : string) :
  String.length (a ++ b) = (String.length a + String.length b)%nat.
Proof. induction a as [| x a IH]; cbn; [reflexivity | rewrite IH; reflexivity]. Qed.

(** Strings *)

Lemma read_string_escape s rest :
  read_string (escape s ++ String dquote rest) = Some (s, rest).
Proof.
  induction s as [| c s IH]; [reflexivity |].
  cbn [escape].
  destruct (Ascii.eqb c dquote || Ascii.eqb c "\"%char) eqn:E.
  - cbn [append read_string]. change (Ascii.eqb "\" dquote) with false.
    rewrite Ascii.eqb_refl. cbn [orb]. rewrite E, IH. reflexivity.
  - apply orb_false_elim in E. destruct E as [E1 E2].
    cbn [append read_string]. rewrite E1, E2, IH. reflexivity.
Qed.

Lemma quote_eq s rest :
  quote s ++ rest = String dquote (escape s ++ String dquote rest).
Proof. unfold quote. cbn [append]. rewrite append_assoc. reflexivity. Qed.

(** Numbers *)

Lemma digit_not_special c :
  is_digit c = true ->
  Ascii.eqb c " " = false /\ Ascii.eqb c dquote = false /\
  Ascii.eqb c "[" = false /\ Ascii.eqb c "{" = false /\
  Ascii.eqb c "n" = false /\ Ascii.eqb c "t" = false /\
  Ascii.eqb c "f" = false /\ Ascii.eqb c "-" = false /\
  Ascii.eqb c "]" = false /\ Ascii.eqb c "}" = false.
Proof.
  destruct c as [[|] [|] [|] [|] [|] [|] [|] [|]]; cbn; intros H;
    try discriminate H; repeat split; reflexivity.
Qed.

Lemma uint_digits d : all_digits (NilEmpty.string_of_uint d) = true.
Proof. induction d; cbn; auto. Qed.

Lemma read_digits_app ds rest :
  all_digits ds = true -> stops rest -> read_digits (ds ++ rest) = (ds, rest).
Proof.
  induction ds as [| c ds IH]; cbn; intros H Hs.
  - destruct rest as [| c rest]; [reflexivity |]. cbn in *. rewrite Hs. reflexivity.
  - apply andb_prop in H. destruct H as [Hc Hds]. rewrite Hc, (IH Hds Hs). reflexivity.
Qed.

Lemma uint_text d :
  d <> Decimal.Nil ->
  exists c tl, NilEmpty.string_of_uint d = String c tl /\ is_digit c = true.
Proof.
  intros Hd. pose proof (uint_digits d) as H.
  destruct d; try contradiction; cbn in *; eauto.
Qed.

Lemma read_number_pos p rest :
  stops rest ->
  read_number (NilEmpty.string_of_uint (Pos.to_uint p) ++ rest) = Some (JNum (Zpos p), rest).
Proof.
  intros Hs. pose proof (DecimalPos.Unsigned.to_uint_nonnil p) as Hnn.
  destruct (uint_text _ Hnn) as (c & tl & E & Hc).
  unfold read_number. rewrite E at 1. cbn [append].
  destruct (digit_not_special c Hc) as (_ & _ & _ & _ & _ & _ & _ & Hm & _).
  rewrite Hm, (read_digits_app _ _ (uint_digits _) Hs), E.
  change (NilZero.uint_of_string (String c tl)) with (NilEmpty.uint_of_string (String c tl)).
  rewrite <- E, NilEmpty.usu.
  unfold N.of_uint. rewrite DecimalPos.Unsigned.of_to. reflexivity.
Qed.

Lemma read_number_neg p rest :
  stops rest ->
  read_number (String "-" (NilEmpty.string_of_uint (Pos.to_uint p) ++ rest))
    = Some (JNum (Zneg p), rest).
Proof.
  intros Hs. pose proof (DecimalPos.Unsigned.to_uint_nonnil p) as Hnn.
  destruct (uint_text _ Hnn) as (c & tl & E & Hc).
  unfold read_number. rewrite Ascii.eqb_refl.
  rewrite (read_digits_app _ _ (uint_digits _) Hs), E.
  change (NilZero.uint_of_string (String c tl)) with (NilEmpty.uint_of_string (String c tl)).
  rewrite <- E, NilEmpty.usu.
  unfold N.of_uint. rewrite DecimalPos.Unsigned.of_to. reflexivity.
Qed.

Lemma show_Z_pos p : show_Z (Zpos p) = NilEmpty.string_of_uint (Pos.to_uint p).
Proof.
  unfold show_Z. cbn. pose proof (DecimalPos.Unsigned.to_uint_nonnil p) as Hnn.
  destruct (Pos.to_uint p); try contradiction; reflexivity.
Qed.

Lemma show_Z_neg p :
  show_Z (Zneg p) = String "-" (NilEmpty.string_of_uint (Pos.to_uint p)).
Proof.
  unfold show_Z. cbn. pose proof (DecimalPos.Unsigned.to_uint_nonnil p) as Hnn.
  destruct (Pos.to_uint p); try contradiction; reflexivity.
Qed.

(** Where a written number begins: a digit or the sign. *)
Lemma show_Z_head n rest :
  exists c tl, show_Z n ++ rest = String c tl /\
    Ascii.eqb c " " = false /\ Ascii.eqb c dquote = false /\
    Ascii.eqb c "[" = false /\ Ascii.eqb c "{" = false /\
    Ascii.eqb c "n" = false /\ Ascii.eqb c "t" = false /\
    Ascii.eqb c "f" = false /\ Ascii.eqb c "]" = false /\ Ascii.eqb c "}" = false.
Proof.
  destruct n as [| p | p].
  - exists "0"%char, rest. repeat split; reflexivity.
  - rewrite show_Z_pos.
    destruct (uint_text _ (DecimalPos.Unsigned.to_uint_nonnil p)) as (c & tl & E & Hc).
    rewrite E. exists c, (tl ++ rest). split; [reflexivity |].
    destruct (digit_not_special c Hc) as (H1 & H2 & H3 & H4 & H5 & H6 & H7 & _ & H9 & H10).
    auto 10.
  - rewrite show_Z_neg. eexists _, _. split; [reflexivity |]. repeat split; reflexivity.
Qed.

Lemma read_number_show_Z n rest :
  stops rest -> read_number (show_Z n ++ rest) = Some (JNum n, rest).
Proof.
  intros Hs. destruct n as [| p | p].
  - change (show_Z 0 ++ rest) with (String "0" rest).
    unfold read_number. change (Ascii.eqb "0" "-") with false.
    cbn [read_digits]. change (is_digit "0") with true. cbn iota.
    change (read_digits rest) with (read_digits (EmptyString ++ rest)).
    rewrite (read_digits_app EmptyString rest eq_refl Hs). reflexivity.
  - rewrite show_Z_pos. apply read_number_pos, Hs.
  - rewrite show_Z_neg. apply read_number_neg, Hs.
Qed.

(** Documents *)

Lemma read_value_space fuel s : read_value fuel (String " " s) = read_value fuel s.
Proof. destruct fuel; reflexivity. Qed.

Lemma read_items_space fuel s : read_items fuel (String " " s) = read_items fuel s.
Proof. destruct fuel as [| fuel]; [reflexivity |]. cbn [read_items]. rewrite read_value_space. reflexivity. Qed.

(** Where a written document begins. *)
Lemma dumps_head v rest :
  exists c tl, dumps v ++ rest = String c tl /\
    Ascii.eqb c " " = false /\ Ascii.eqb c "]" = false /\ Ascii.eqb c "}" = false.
Proof.
  destruct v as [| [|] | n | s | items | members];
    try (eexists _, _; split; [reflexivity |]; repeat split; reflexivity).
  - destruct (show_Z_head n rest) as (c & tl & E & H1 & _ & _ & _ & _ & _ & _ & H8 & H9).
    exists c, tl. auto.
Qed.

Lemma skip_ws_dumps v rest : skip_ws (dumps v ++ rest) = dumps v ++ rest.
Proof.
  destruct (dumps_head v rest) as (c & tl & E & H1 & _). rewrite E. cbn. rewrite H1.
  reflexivity.
Qed.

Lemma reads_back_items items :
  Forall reads_back items -> items <> [] ->
  forall fuel rest,
    need_items items <= fuel ->
    read_items fuel (join ", " (map dumps items) ++ String "]" rest)
      = Some (items, rest).
Proof.
  induction 1 as [| x xs Hx Hxs IH]; intros Hne fuel rest Hfuel; [contradiction |].
  destruct fuel as [| fuel]; [cbn in Hfuel; lia |].
  cbn [need_items fold_right] in Hfuel. fold (need_items xs) in Hfuel.
  cbn [read_items].
  destruct xs as [| y ys].
  - cbn [map join]. rewrite (Hx fuel (String "]" rest)); [| lia | reflexivity].
    reflexivity.
  - change (join ", " (map dumps (x :: y :: ys)))
      with (dumps x ++ ", " ++ join ", " (map dumps (y :: ys))).
    rewrite !append_assoc.
    rewrite (Hx fuel _); [| lia | reflexivity].
    cbn [append skip_ws]. change (Ascii.eqb "," " ") with false.
    change (Ascii.eqb "," "]") with false. cbn iota.
    rewrite Ascii.eqb_refl, read_items_space.
    rewrite (IH ltac:(discriminate) fuel rest); [reflexivity | lia].
Qed.

Lemma read_members_space fuel s :
  read_members fuel (String " " s) = read_members fuel s.
Proof. destruct fuel; reflexivity. Qed.

Lemma reads_back_members members :
  Forall (fun kv => reads_back (snd kv)) members -> members <> [] ->
  forall fuel rest,
    need_members members <= fuel ->
    read_members fuel (join ", " (map member_text members) ++ String "}" rest)
      = Some (members, rest).
Proof.
  induction 1 as [| [k x] xs Hx Hxs IH]; intros Hne fuel rest Hfuel; [contradiction |].
  destruct fuel as [| fuel]; [cbn in Hfuel; lia |].
  cbn [need_members fold_right snd] in Hfuel. fold (need_members xs) in Hfuel.
  cbn [snd] in Hx.
  assert (Hstep : forall tail,
             stops tail ->
             read_members (S fuel) (member_text (k, x) ++ tail) =
               match skip_ws tail with
               | String c2 rest2 =>
                   if Ascii.eqb c2 "}" then Some ([(k, x)], rest2)
                   else if Ascii.eqb c2 "," then
                     match read_members fuel rest2 with
                     | Some (kvs, tail2) => Some ((k, x) :: kvs, tail2)
                     | None => None
                     end
                   else None
               | EmptyString => None
               end).
  { intros tail Hs. unfold member_text. cbn [fst snd].
    rewrite !append_assoc, quote_eq. cbn [read_members skip_ws].
    change (Ascii.eqb dquote " ") with false. cbn iota.
    rewrite Ascii.eqb_refl, read_string_escape.
    cbn [append skip_ws]. change (Ascii.eqb ":" " ") with false. cbn iota.
    rewrite Ascii.eqb_refl, read_value_space.
    rewrite (Hx fuel tail); [reflexivity | lia | exact Hs]. }
  destruct xs as [| y ys].
  - cbn [map join]. rewrite Hstep by reflexivity. reflexivity.
  - change (join ", " (map member_text ((k, x) :: y :: ys)))
      with (member_text (k, x) ++ ", " ++ join ", " (map member_text (y :: ys))).
    rewrite !append_assoc. rewrite Hstep by reflexivity.
    cbn [append skip_ws]. change (Ascii.eqb "," " ") with false.
    change (Ascii.eqb "," "}") with false. cbn iota.
    rewrite Ascii.eqb_refl, read_members_space.
    rewrite (IH ltac:(discriminate) fuel rest); [reflexivity | lia].
Qed.

Lemma dumps_obj members :
  dumps (JObj members) = "{" ++ join ", " (map member_text members) ++ "}".
Proof. reflexivity. Qed.

(** Every document is read back. *)
Lemma reads_back_all v : reads_back v.
Proof.
  induction v as [| b | n | s | items Hitems | members Hmembers] using json_induction;
    intros fuel rest Hfuel Hs;
    (destruct fuel as [| fuel]; [cbn in Hfuel; lia |]).
  - reflexivity.
  - destruct b; reflexivity.
  - cbn [dumps].
    destruct (show_Z_head n rest)
      as (c & tl & E & H1 & H2 & H3 & H4 & H5 & H6 & H7 & _).
    rewrite <- (read_number_show_Z n rest Hs), E.
    cbn [read_value skip_ws]. rewrite H1, H2, H3, H4, H5, H6, H7. reflexivity.
  - cbn [dumps]. rewrite quote_eq. cbn [read_value skip_ws].
    change (Ascii.eqb dquote " ") with false. cbn iota.
    rewrite Ascii.eqb_refl, read_string_escape. reflexivity.
  - cbn [need] in Hfuel. fold (need_items items) in Hfuel.
    cbn [dumps]. rewrite !append_assoc. cbn [append read_value skip_ws].
    change (Ascii.eqb "[" " ") with false. change (Ascii.eqb "[" dquote) with false.
    cbn iota. rewrite Ascii.eqb_refl.
    destruct items as [| x xs]; [reflexivity |].
    assert (Hne : x :: xs <> []) by discriminate.
    pose proof (reads_back_items _ Hitems Hne fuel rest ltac:(lia)) as Hread.
    destruct (dumps_head x (match xs with
                            | [] => String "]" rest
                            | _ => ", " ++ join ", " (map dumps xs) ++ String "]" rest
                            end)) as (c & tl & E & H1 & H2 & _).
    assert (Etext : join ", " (map dumps (x :: xs)) ++ String "]" rest = String c tl).
    { rewrite <- E. destruct xs; cbn [map join]; rewrite ?append_assoc; reflexivity. }
    rewrite Etext in Hread |- *. cbn [skip_ws]. rewrite H1, H2, Hread. reflexivity.
  - cbn [need] in Hfuel. fold (need_members members) in Hfuel.
    rewrite dumps_obj, !append_assoc. cbn [append read_value skip_ws].
    change (Ascii.eqb "{" " ") with false. change (Ascii.eqb "{" dquote) with false.
    change (Ascii.eqb "{" "[") with false.
    cbn iota. rewrite Ascii.eqb_refl.
    destruct members as [| [k x] xs]; [reflexivity |].
    assert (Hne : (k, x) :: xs <> []) by discriminate.
    pose proof (reads_back_members _ Hmembers Hne fuel rest ltac:(lia)) as Hread.
    assert (Etext : exists tl,
               join ", " (map member_text ((k, x) :: xs)) ++ String "}" rest
               = String dquote tl).
    { destruct xs; cbn [map join]; unfold member_text at 1; cbn [fst snd];
        rewrite ?append_assoc, quote_eq; eexists; reflexivity. }
    destruct Etext as [tl Etext]. rewrite Etext in Hread |- *.
    cbn [skip_ws]. change (Ascii.eqb dquote " ") with false.
    change (Ascii.eqb dquote "}") with false. cbn iota. rewrite Hread. reflexivity.
Qed.

(** The fuel [loads] gives is enough. *)

Lemma dumps_nonempty v : 1 <= String.length (dumps v).
Proof.
  destruct (dumps_head v EmptyString) as (c & tl & E & _).
  rewrite append_nil_r in E. rewrite E. cbn. lia.
Qed.

Lemma need_items_length items :
  Forall (fun v => need v <= S (String.length (dumps v))) items ->
  need_items items <= String.length (join ", " (map dumps items)) + 2.
Proof.
  induction 1 as [| x xs Hx Hxs IH]; [cbn; lia |].
  cbn [need_items fold_right]. fold (need_items xs).
  destruct xs as [| y ys].
  - cbn [map join need_items fold_right]. lia.
  - change (join ", " (map dumps (x :: y :: ys)))
      with (dumps x ++ ", " ++ join ", " (map dumps (y :: ys))).
    rewrite !length_append. cbn [String.length]. lia.
Qed.

Lemma need_members_length members :
  Forall (fun kv => need (snd kv) <= S (String.length (dumps (snd kv)))) members ->
  need_members members <= String.length (join ", " (map member_text members)) + 2.
Proof.
  assert (Hm : forall kv, String.length (dumps (snd kv)) + 4
                          <= String.length (member_text kv)).
  { intros kv. unfold member_text, quote. cbn [append String.length].
    rewrite !length_append. cbn [String.length]. lia. }
  induction 1 as [| x xs Hx Hxs IH]; [cbn; lia |].
  cbn [need_members fold_right]. fold (need_members xs).
  specialize (Hm x).
  destruct xs as [| y ys].
  - cbn [map join need_members fold_right]. lia.
  - change (join ", " (map member_text (x :: y :: ys)))
      with (member_text x ++ ", " ++ join ", " (map member_text (y :: ys))).
    rewrite !length_append. cbn [String.length]. lia.
Qed.

Lemma need_length v : need v <= S (String.length (dumps v)).
Proof.
  induction v as [| b | n | s | items Hitems | members Hmembers] using json_induction;
    try (cbn [need]; lia).
  - cbn [need]. fold (need_items items). pose proof (need_items_length _ Hitems).
    cbn [dumps]. rewrite !length_append. cbn [String.length]. lia.
  - cbn [need]. fold (need_members members).
    pose proof (need_members_length _ Hmembers).
    rewrite dumps_obj, !length_append. cbn [String.length]. lia.
Qed.

(** [loads] reads back what [dumps] wrote, for every document. *)
Lemma loads_dumps v : loads (dumps v) = Some v.
Proof.
  unfold loads.
  pose proof (reads_back_all v (S (String.length (dumps v))) EmptyString
                (need_length v) I) as H.
  rewrite append_nil_r in H. rewrite H. reflexivity.
Qed.

(** The concrete platform round-trips every dict. *)
Lemma round_trips_dict v : is_dict v -> round_trips platform v.
Proof.
  intros Hd. unfold round_trips, decoded. cbn [jsonb_fetch json_dumps platform].
  unfold fetch. rewrite loads_dumps.
  destruct v; try contradiction. reflexivity.
Qed.

End ConcreteFacts.

(** * The claims *)



(** C2. [delete_chat] answers [True] exactly when a row of the chats table
    is gone: then the chat and (by the cascade) its messages are removed;
    when it answers [False] the tables are as before.  On an id that is not
    in the table nothing is changed and no DELETE is sent, and the answer
    is [False] whenever the opening of the call (reconnect, bootstrap,
    readiness wait) did not raise. *)
Theorem delete_chat_true_iff_deleted (P : platform) (id : string) (s : state) :
  (forall b, result_of (delete_chat P id s) = Ok b ->
     (b = true <->
      (0 < chats_deleted (db s) (db (state_of (delete_chat P id s))))%nat) /\
     (b = true ->
      db (state_of (delete_chat P id s)) = snd (run_statement (DeleteChat id) (db s)) /\
      has_chat id (db (state_of (delete_chat P id s))) = false) /\
     (b = false -> db (state_of (delete_chat P id s)) = db s)) /\
  (has_chat id (db s) = false ->
     db (state_of (delete_chat P id s)) = db s /\
     forallb no_write (events_of (delete_chat P id s)) = true /\
     (result_of (prelude_and_wait s) = Ok tt ->
      result_of (delete_chat P id s) = Ok false) /\
     (forall e, result_of (prelude_and_wait s) = Raise e ->
                result_of (delete_chat P id s) = Raise e)).
Proof.
  rewrite delete_chat_eq, run_after.
  destruct (prelude_and_wait_same_store s) as [(Hd0 & _) Hev].
  pose proof (prelude_and_wait_ok s) as Hok.
  destruct (prelude_and_wait s) as [[[[] | e0] s1] ev1]; cbn in Hev, Hd0;
    cbn [result_of state_of events_of fst snd].
  - destruct (Hok s1 ev1 eq_refl) as (Hc & Ht & Hd & _). clear Hok.
    rewrite (delete_chat_try_prepared P id s1 Hc Ht), Hd.
    assert (Hsame : chats_deleted (db s) (db s) = 0%nat)
      by (unfold chats_deleted; lia).
    split.
    + intros b.
      destruct (faults s1 (ticks s1)) as [[e drops] |];
        [| destruct (chats_with id (db s)) as [| row rest] eqn:Er;
           [| destruct (decoded P (chat_metadata row));
              [destruct (faults s1 (S (ticks s1))) as [[e drops] |] |]]];
        cbn [result_of state_of events_of fst snd db set_conn set_db tick];
        intros Hb; inversion Hb; subst b; rewrite ?Hd, ?Hsame;
        try (split; [split; [discriminate | lia] | split; [discriminate | reflexivity]]).
      split; [| split; [| discriminate]].
      * split; [intros _ | reflexivity].
        unfold chats_deleted, run_statement; cbn [snd chats].
        pose proof (chats_with_length id (chats (db s))) as Hlen.
        fold (chats_with id (db s)) in Hlen. rewrite Er in Hlen.
        unfold not_chat. cbn [length] in Hlen. lia.
      * intros _. split; [reflexivity |].
        unfold has_chat, run_statement; cbn [snd chats].
        apply has_chat_after_delete.
    + intros Habs. rewrite (has_chat_chats_with _ _ Habs).
      destruct (faults s1 (ticks s1)) as [[e drops] |];
        cbn [result_of state_of events_of fst snd db set_conn set_db tick];
        rewrite ?Hd, forallb_app, Hev; repeat split; auto; discriminate.
  - split.
    + intros b Hb. discriminate Hb.
    + intros _. repeat split; auto.
      * intros H. discriminate H.
      * intros e H. inversion H. reflexivity.
Qed.

Lemma delete_chat_true_iff_deleted_witness :
  result_of (delete_chat Concrete.platform Sample.chat1
               (Sample.ready Sample.one_chat)) = Ok true /\
  db (state_of (delete_chat Concrete.platform Sample.chat1
                  (Sample.ready Sample.one_chat)))
    = {| chats := []; messages := [] |} /\
  has_chat Sample.chat2 (db (Sample.ready Sample.one_chat)) = false /\
  result_of (delete_chat Concrete.platform Sample.chat2
               (Sample.ready Sample.one_chat)) = Ok false /\
  db (state_of (delete_chat Concrete.platform Sample.chat2
                  (Sample.ready Sample.one_chat))) = Sample.one_chat.
Proof.
  destruct (delete_chat_true_iff_deleted Concrete.platform Sample.chat1
              (Sample.ready Sample.one_chat)) as [H1 _].
  destruct (H1 true eq_refl) as (_ & H2 & _).
  destruct (delete_chat_true_iff_deleted Concrete.platform Sample.chat2
              (Sample.ready Sample.one_chat)) as [_ H3].
  destruct (H3 eq_refl) as (H4 & _ & H5 & _).
  split; [reflexivity |]. split; [exact (proj1 (H2 eq_refl)) |].
  split; [reflexivity |]. split; [exact (H5 eq_refl) | exact H4].
Defined.

(** C3, as the code has it.  After a call of [add_message] that returned, a
    second call on the same chat whose clock reading has the same
    millisecond stamp computes the same message id and never returns: it
    raises, the messages table keeps the first message only, and the primary
    key still holds.  On a store that works, with a role that fits the
    column, the error is the unique violation of the primary key, raised
    after the chat's [updated_at] was already set to the second reading. *)
Theorem add_message_same_millisecond (P : platform) (now1 now2 : datetime)
  (id role1 content1 role2 content2 : string) (metadata1 metadata2 : option json)
  (s : state) (r1 : Z * string) :
  result_of (add_message P now1 id role1 content1 metadata1 s) = Ok r1 ->
  epoch_millis P now1 = epoch_millis P now2 ->
  (exists e,
      result_of (add_message P now2 id role2 content2 metadata2
                   (state_of (add_message P now1 id role1 content1 metadata1 s)))
        = Raise e) /\
  messages (db (state_of (add_message P now2 id role2 content2 metadata2
                   (state_of (add_message P now1 id role1 content1 metadata1 s)))))
    = messages (db (state_of (add_message P now1 id role1 content1 metadata1 s))) /\
  (primary_key_ok (db s) ->
   primary_key_ok
     (db (state_of (add_message P now2 id role2 content2 metadata2
            (state_of (add_message P now1 id role1 content1 metadata1 s)))))) /\
  (healthy s -> (String.length role2 <= 50)%nat ->
   result_of (add_message P now2 id role2 content2 metadata2
                (state_of (add_message P now1 id role1 content1 metadata1 s)))
     = Raise UniqueViolation /\
   forall c,
     In c (chats (db (state_of (add_message P now2 id role2 content2 metadata2
                        (state_of (add_message P now1 id role1 content1 metadata1 s)))))) ->
     chat_id c = id -> chat_updated_at c = now2).
Proof.
  intros H Hms. apply add_message_ok in H.
  destruct H as (_ & chat' & role' & row0 & rest & md0 & Hv & _ & Hb & Hm & Hrow & Hdec
                 & Hdb & Hc & Ht & Hf).
  assert (Hb' : in_bigint (epoch_millis P now2) = true) by (rewrite <- Hms; exact Hb).
  set (s1 := state_of (add_message P now1 id role1 content1 metadata1 s)) in *.
  assert (Hkey : primary_key_ok (db s) -> primary_key_ok (db s1)).
  { intros Hpk. unfold primary_key_ok at 1. rewrite Hdb. cbn [messages].
    apply primary_key_append; [exact Hpk | exact Hm]. }
  assert (Hdup : forall d, messages d = messages (db s1) ->
                           has_message chat' (epoch_millis P now2) d = true).
  { intros d Hd. unfold has_message. rewrite Hd, Hdb. cbn [messages].
    rewrite has_message_app. cbn. rewrite String.eqb_refl, Hms, Z.eqb_refl.
    apply orb_true_r. }
  assert (Hrow1 : chats_with id (db s1) =
                  touch now1 id row0 :: map (touch now1 id) rest).
  { unfold chats_with at 1. rewrite Hdb. cbn [chats].
    rewrite chats_with_touch, Hrow. reflexivity. }
  rewrite add_message_eq, run_after, (prelude_open s1 Hc Ht).
  cbn [result_of state_of events_of fst snd app].
  rewrite (add_message_try_prepared P now2 id role2 content2 metadata2 s1 Hc Ht).
  rewrite Hrow1, touch_metadata, Hdec. cbn zeta.
  set (d1 := snd (run_statement (UpdateChat now2 id) (db s1))).
  assert (Hd1 : messages d1 = messages (db s1)) by reflexivity.
  assert (Hins : forall c d2,
             run_statement (InsertMessage (epoch_millis P now2) id role2 content2
                              now2 (json_dumps P (or_empty metadata2))) d1
             <> (Ok c, d2)).
  { intros c d2 Hi. apply insert_message_ok in Hi.
    destruct Hi as (chat'' & role'' & Hv'' & _ & _ & Hm'' & _).
    rewrite Hv in Hv''. inversion Hv''; subst chat''.
    rewrite (Hdup d1 Hd1) in Hm''. discriminate Hm''. }
  split; [| split; [| split]].
  - destruct (faults s1 (ticks s1)) as [[e drops] |]; [eexists; reflexivity |].
    destruct (faults s1 (S (ticks s1))) as [[e drops] |]; [eexists; reflexivity |].
    destruct (faults s1 (S (S (ticks s1)))) as [[e drops] |]; [eexists; reflexivity |].
    destruct (run_statement _ d1) as [[c | e] d2] eqn:Ei;
      [exfalso; exact (Hins _ _ eq_refl) | eexists; reflexivity].
  - destruct (faults s1 (ticks s1)) as [[e drops] |]; [reflexivity |].
    destruct (faults s1 (S (ticks s1))) as [[e drops] |]; [reflexivity |].
    destruct (faults s1 (S (S (ticks s1)))) as [[e drops] |]; [reflexivity |].
    destruct (run_statement _ d1) as [[c | e] d2] eqn:Ei;
      [exfalso; exact (Hins _ _ eq_refl) |].
    apply run_statement_raise in Ei. subst d2. reflexivity.
  - intros Hpk. specialize (Hkey Hpk). unfold primary_key_ok in *.
    destruct (faults s1 (ticks s1)) as [[e drops] |]; [exact Hkey |].
    destruct (faults s1 (S (ticks s1))) as [[e drops] |]; [exact Hkey |].
    destruct (faults s1 (S (S (ticks s1)))) as [[e drops] |]; [exact Hkey |].
    destruct (run_statement _ d1) as [[c | e] d2] eqn:Ei;
      [exfalso; exact (Hins _ _ eq_refl) |].
    apply run_statement_raise in Ei. subst d2. exact Hkey.
  - intros Hh Hlen. rewrite !Hf, !Hh.
    assert (Ei : run_statement
                   (InsertMessage (epoch_millis P now2) id role2 content2 now2
                      (json_dumps P (or_empty metadata2))) d1
                 = (Raise UniqueViolation, d1)).
    { unfold run_statement at 1.
      rewrite Hv, (varchar_fits 50 role2 Hlen), Hb', (Hdup d1 Hd1). reflexivity. }
    rewrite Ei. cbn [result_of state_of events_of fst snd db set_db].
    split; [reflexivity |].
    intros c. unfold d1, run_statement. cbn [snd chats]. apply touched_updated_at.
Qed.

Lemma add_message_same_millisecond_witness :
  result_of (add_message Concrete.platform Sample.t1 Sample.chat1 "user" "hi" None
               (Sample.ready Sample.one_chat))
    = Ok (1700000005000%Z, "2023-11-14T22:13:25.000123") /\
  epoch_millis Concrete.platform Sample.t1 = epoch_millis Concrete.platform Sample.t2 /\
  healthy (Sample.ready Sample.one_chat) /\
  (String.length "user" <= 50)%nat /\
  result_of (add_message Concrete.platform Sample.t2 Sample.chat1 "user" "again" None
               (state_of (add_message Concrete.platform Sample.t1 Sample.chat1
                            "user" "hi" None (Sample.ready Sample.one_chat))))
    = Raise UniqueViolation.
Proof.
  assert (Hh : healthy (Sample.ready Sample.one_chat)) by (intros n; reflexivity).
  assert (Hlen : (String.length "user" <= 50)%nat) by (cbn; lia).
  destruct (add_message_same_millisecond Concrete.platform Sample.t1 Sample.t2
              Sample.chat1 "user" "hi" "user" "again" None None
              (Sample.ready Sample.one_chat)
              (1700000005000%Z, "2023-11-14T22:13:25.000123") eq_refl eq_refl)
    as (_ & _ & _ & H4).
  destruct (H4 Hh Hlen) as [H5 _].
  split; [reflexivity |]. split; [reflexivity |].
  split; [exact Hh |]. split; [exact Hlen | exact H5].
Defined.

(** C3 as the spec has it fails: two calls within one millisecond, on a
    store that works, do not both succeed.  The second computes the id of
    the first and is rejected by the primary key. *)
Lemma add_message_same_millisecond_collides :
  epoch_millis Concrete.platform Sample.t1 = epoch_millis Concrete.platform Sample.t2 /\
  result_of (add_message Concrete.platform Sample.t1 Sample.chat1 "user" "hi" None
               (Sample.ready Sample.one_chat))
    = Ok (1700000005000%Z, "2023-11-14T22:13:25.000123") /\
  result_of (add_message Concrete.platform Sample.t2 Sample.chat1 "user" "again" None
               (state_of (add_message Concrete.platform Sample.t1 Sample.chat1
                            "user" "hi" None (Sample.ready Sample.one_chat))))
    = Raise UniqueViolation.
Proof. repeat split; reflexivity. Qed.

(** C4, as the code has it.  [get_chat] raises exactly when its opening
    (the reconnect and the bootstrap before the [try]) raises, and then with
    that error.  Past the opening it never raises: a chat that is not in
    the table gives [None], and a lookup that the store fails with [e] is
    logged as a warning naming [e] and gives [None] too. *)
Theorem get_chat_raises_only_in_prelude (P : platform) (id : string) (s : state) :
  (forall e, result_of (get_chat P id s) = Raise e <->
             result_of (prelude s) = Raise e) /\
  (result_of (prelude s) = Ok tt -> has_chat id (db s) = false ->
   result_of (get_chat P id s) = Ok None) /\
  (forall e,
      In (EvExecute (SelectChat id) (Some e)) (events_of (get_chat P id s)) ->
      result_of (get_chat P id s) = Ok None /\
      In (WARNING, FailedToGetChat e) (logged (events_of (get_chat P id s)))).
Proof.
  rewrite get_chat_eq, run_after_prelude.
  destruct (prelude_same_store s) as [(Hd & _ & _) _].
  pose proof (prelude_no_row_statement s) as Hev.
  pose proof (prelude_ok s) as Hok.
  destruct (prelude s) as [[[[] | e0] s1] ev1]; cbn in Hd, Hev;
    cbn [result_of state_of events_of fst snd].
  - destruct (Hok s1 ev1 eq_refl) as [Hc Ht]. clear Hok.
    destruct (get_chat_try_returns P id s1) as [v Hv].
    split; [| split].
    + intros e. rewrite Hv. split; discriminate.
    + intros _ Habs. apply get_chat_try_absent. congruence.
    + intros e Hin. apply in_app_or in Hin. destruct Hin as [Hin | Hin].
      { apply (no_row_statement_In _ _ _ Hev) in Hin. discriminate Hin. }
      revert Hin. rewrite logged_app, (get_chat_try_open P id s1 Hc).
      destruct (faults s1 (ticks s1)) as [[e1 drops] |].
      * cbn. intros [Hin | [Hin | []]]; inversion Hin; subst.
        split; [reflexivity |]. apply in_or_app. right. left. reflexivity.
      * destruct (chats_with id (db s1)) as [| row rest];
          [cbn; intros [Hin | []]; discriminate Hin |].
        destruct (decoded P (chat_metadata row)); cbn;
          intros [Hin | Hin]; try discriminate Hin; try contradiction.
        destruct Hin as [Hin | []]. discriminate Hin.
  - split; [| split].
    + intros e. split; intros H; inversion H; reflexivity.
    + intros H. discriminate H.
    + intros e Hin. apply (no_row_statement_In _ _ _ Hev) in Hin. discriminate Hin.
Qed.

Lemma get_chat_raises_only_in_prelude_witness :
  In (EvExecute (SelectChat Sample.chat1) (Some (DatabaseError 7)))
     (events_of (get_chat Concrete.platform Sample.chat1
                   (Sample.connected Sample.one_chat (Sample.fail_at 0)))) /\
  result_of (get_chat Concrete.platform Sample.chat1
               (Sample.connected Sample.one_chat (Sample.fail_at 0))) = Ok None /\
  In (WARNING, FailedToGetChat (DatabaseError 7))
     (logged (events_of (get_chat Concrete.platform Sample.chat1
                           (Sample.connected Sample.one_chat (Sample.fail_at 0))))).
Proof.
  split; [left; reflexivity |].
  apply (get_chat_raises_only_in_prelude Concrete.platform Sample.chat1
           (Sample.connected Sample.one_chat (Sample.fail_at 0))).
  left. reflexivity.
Defined.

(** C4 as the spec has it fails: on a client without a connection, when the
    store cannot be reached, [get_chat] raises the error of the connect. *)
Lemma get_chat_raises_when_connect_fails :
  result_of (get_chat Concrete.platform Sample.chat1
               (Sample.fresh Sample.one_chat (Sample.fail_first 1)))
    = Raise (OperationalError 0).
Proof. reflexivity. Qed.

Ltac in_events H :=
  cbn [In events_of result_of state_of fst snd] in H;
  repeat match type of H with
         | _ \/ _ => destruct H as [H | H]
         | False => contradiction
         | _ = _ => first [discriminate H | inversion H; subst; clear H]
         end.

Ltac raised_and_logged :=
  cbn [result_of state_of events_of fst snd];
  split; [reflexivity |];
  rewrite logged_app; apply in_or_app; right; cbn; auto.

(** C5, as the code has it.  When the statement of the method itself is
    failed by the store with [e] (the SELECT of [get_messages], the UPDATE
    or INSERT of [add_message], the DELETE of [delete_chat]) the method logs
    at error level and raises [e].  When the lookup that opens [add_message]
    and [delete_chat] is failed with [e], that error is logged as a warning
    by [get_chat] and taken for an absent chat: [add_message] raises the
    chat-not-found error and [delete_chat] returns [False]. *)
Theorem store_error_raised_or_collapsed (P : platform) (s : state) (e : exn) :
  (forall id,
      In (EvExecute (SelectMessages id) (Some e)) (events_of (get_messages P id s)) ->
      result_of (get_messages P id s) = Raise e /\
      In (ERROR, FailedToGetMessages e) (logged (events_of (get_messages P id s)))) /\
  (forall now id role content metadata q,
      is_write q = true ->
      In (EvExecute q (Some e))
         (events_of (add_message P now id role content metadata s)) ->
      result_of (add_message P now id role content metadata s) = Raise e /\
      In (ERROR, FailedToAddMessage e)
         (logged (events_of (add_message P now id role content metadata s)))) /\
  (forall id q,
      is_write q = true ->
      In (EvExecute q (Some e)) (events_of (delete_chat P id s)) ->
      result_of (delete_chat P id s) = Raise e /\
      In (ERROR, FailedToDeleteChat) (logged (events_of (delete_chat P id s)))) /\
  (forall now id role content metadata,
      In (EvExecute (SelectChat id) (Some e))
         (events_of (add_message P now id role content metadata s)) ->
      result_of (add_message P now id role content metadata s)
        = Raise (ChatNotFound id) /\
      In (WARNING, FailedToGetChat e)
         (logged (events_of (add_message P now id role content metadata s)))) /\
  (forall id,
      In (EvExecute (SelectChat id) (Some e)) (events_of (delete_chat P id s)) ->
      result_of (delete_chat P id s) = Ok false /\
      In (WARNING, FailedToGetChat e) (logged (events_of (delete_chat P id s)))).
Proof.
  pose proof (prelude_and_wait_no_row_statement s) as Hq2.
  pose proof (prelude_and_wait_ok s) as Hok2.
  pose proof (prelude_no_row_statement s) as Hq1.
  pose proof (prelude_ok s) as Hok1.
  assert (Hw : forall q, is_write q = true -> touches_rows q = true)
    by (intros []; cbn; congruence).
  split; [| split; [| split; [| split]]].
  - (* get_messages *)
    intros id. rewrite get_messages_eq, run_after.
    destruct (prelude_and_wait s) as [[[[] | e0] s1] ev1];
      cbn [result_of state_of events_of fst snd] in *.
    + destruct (Hok2 s1 ev1 eq_refl) as (Hc & _).
      rewrite (get_messages_try_open P id s1 Hc). intros Hin.
      apply in_app_or in Hin. destruct Hin as [Hin | Hin];
        [apply (no_row_statement_In _ _ _ Hq2) in Hin; discriminate Hin |].
      destruct (faults s1 (ticks s1)) as [[e1 drops] |].
      * in_events Hin. raised_and_logged.
      * cbn zeta in *.
        destruct (result_of (convert_rows P _ (tick s1))); in_events Hin.
    + intros Hin. apply (no_row_statement_In _ _ _ Hq2) in Hin. discriminate Hin.
  - (* add_message, its UPDATE and INSERT *)
    intros now id role content metadata q Hq.
    rewrite add_message_eq, run_after.
    destruct (prelude s) as [[[[] | e0] s1] ev1];
      cbn [result_of state_of events_of fst snd] in *.
    + destruct (Hok1 s1 ev1 eq_refl) as (Hc & Ht).
      rewrite (add_message_try_prepared P now id role content metadata s1 Hc Ht).
      intros Hin.
      apply in_app_or in Hin. destruct Hin as [Hin | Hin];
        [apply (no_row_statement_In _ _ _ Hq1) in Hin;
         rewrite (Hw _ Hq) in Hin; discriminate Hin |].
      destruct (faults s1 (ticks s1)) as [[e1 drops] |];
        [in_events Hin; discriminate Hq |].
      destruct (chats_with id (db s1)) as [| row rest];
        [in_events Hin |].
      destruct (decoded P (chat_metadata row)); [| in_events Hin].
      cbn zeta in *.
      destruct (faults s1 (S (ticks s1))) as [[e1 drops] |];
        [in_events Hin; raised_and_logged |].
      destruct (faults s1 (S (S (ticks s1)))) as [[e1 drops] |];
        [in_events Hin; raised_and_logged |].
      destruct (run_statement _ _) as [[c | e1] d2];
        in_events Hin; raised_and_logged.
    + intros Hin. apply (no_row_statement_In _ _ _ Hq1) in Hin.
      rewrite (Hw _ Hq) in Hin. discriminate Hin.
  - (* delete_chat, its DELETE *)
    intros id q Hq. rewrite delete_chat_eq, run_after.
    destruct (prelude_and_wait s) as [[[[] | e0] s1] ev1];
      cbn [result_of state_of events_of fst snd] in *.
    + destruct (Hok2 s1 ev1 eq_refl) as (Hc & Ht & _).
      rewrite (delete_chat_try_prepared P id s1 Hc Ht). intros Hin.
      apply in_app_or in Hin. destruct Hin as [Hin | Hin];
        [apply (no_row_statement_In _ _ _ Hq2) in Hin;
         rewrite (Hw _ Hq) in Hin; discriminate Hin |].
      destruct (faults s1 (ticks s1)) as [[e1 drops] |];
        [in_events Hin; discriminate Hq |].
      destruct (chats_with id (db s1)) as [| row rest];
        [in_events Hin |].
      destruct (decoded P (chat_metadata row)); [| in_events Hin].
      destruct (faults s1 (S (ticks s1))) as [[e1 drops] |];
        in_events Hin; raised_and_logged.
    + intros Hin. apply (no_row_statement_In _ _ _ Hq2) in Hin.
      rewrite (Hw _ Hq) in Hin. discriminate Hin.
  - (* add_message, its lookup *)
    intros now id role content metadata.
    rewrite add_message_eq, run_after.
    destruct (prelude s) as [[[[] | e0] s1] ev1];
      cbn [result_of state_of events_of fst snd] in *.
    + destruct (Hok1 s1 ev1 eq_refl) as (Hc & Ht).
      rewrite (add_message_try_prepared P now id role content metadata s1 Hc Ht).
      intros Hin.
      apply in_app_or in Hin. destruct Hin as [Hin | Hin];
        [apply (no_row_statement_In _ _ _ Hq1) in Hin; discriminate Hin |].
      destruct (faults s1 (ticks s1)) as [[e1 drops] |];
        [in_events Hin; raised_and_logged |].
      destruct (chats_with id (db s1)) as [| row rest];
        [in_events Hin |].
      destruct (decoded P (chat_metadata row)); [| in_events Hin].
      cbn zeta in *.
      destruct (faults s1 (S (ticks s1))) as [[e1 drops] |];
        [in_events Hin |].
      destruct (faults s1 (S (S (ticks s1)))) as [[e1 drops] |];
        [in_events Hin |].
      destruct (run_statement _ _) as [[c | e1] d2]; in_events Hin.
    + intros Hin. apply (no_row_statement_In _ _ _ Hq1) in Hin. discriminate Hin.
  - (* delete_chat, its lookup *)
    intros id. rewrite delete_chat_eq, run_after.
    destruct (prelude_and_wait s) as [[[[] | e0] s1] ev1];
      cbn [result_of state_of events_of fst snd] in *.
    + destruct (Hok2 s1 ev1 eq_refl) as (Hc & Ht & _).
      rewrite (delete_chat_try_prepared P id s1 Hc Ht). intros Hin.
      apply in_app_or in Hin. destruct Hin as [Hin | Hin];
        [apply (no_row_statement_In _ _ _ Hq2) in Hin; discriminate Hin |].
      destruct (faults s1 (ticks s1)) as [[e1 drops] |];
        [in_events Hin; raised_and_logged |].
      destruct (chats_with id (db s1)) as [| row rest];
        [in_events Hin |].
      destruct (decoded P (chat_metadata row)); [| in_events Hin].
      destruct (faults s1 (S (ticks s1))) as [[e1 drops] |]; in_events Hin.
    + intros Hin. apply (no_row_statement_In _ _ _ Hq2) in Hin. discriminate Hin.
Qed.

Lemma store_error_raised_or_collapsed_witness :
  In (EvExecute (DeleteChat Sample.chat1) (Some (DatabaseError 7)))
     (events_of (delete_chat Concrete.platform Sample.chat1
                   (Sample.connected Sample.one_chat (Sample.fail_at 2)))) /\
  result_of (delete_chat Concrete.platform Sample.chat1
               (Sample.connected Sample.one_chat (Sample.fail_at 2)))
    = Raise (DatabaseError 7) /\
  In (ERROR, FailedToDeleteChat)
     (logged (events_of (delete_chat Concrete.platform Sample.chat1
                           (Sample.connected Sample.one_chat (Sample.fail_at 2))))).
Proof.
  assert (Hin : In (EvExecute (DeleteChat Sample.chat1) (Some (DatabaseError 7)))
                  (events_of (delete_chat Concrete.platform Sample.chat1
                     (Sample.connected Sample.one_chat (Sample.fail_at 2))))).
  { vm_compute. right. right. right. left. reflexivity. }
  split; [exact Hin |].
  destruct (store_error_raised_or_collapsed Concrete.platform
              (Sample.connected Sample.one_chat (Sample.fail_at 2))
              (DatabaseError 7)) as (_ & _ & H3 & _).
  exact (H3 Sample.chat1 (DeleteChat Sample.chat1) eq_refl Hin).
Defined.

(** C5 as the spec has it fails: when the store fails the lookup that opens
    [delete_chat], the call neither raises nor deletes; it returns [False]
    for a chat that is there. *)
Lemma delete_chat_collapses_store_error :
  has_chat Sample.chat1 (db (Sample.connected Sample.one_chat (Sample.fail_at 1)))
    = true /\
  In (EvExecute (SelectChat Sample.chat1) (Some (DatabaseError 7)))
     (events_of (delete_chat Concrete.platform Sample.chat1
                   (Sample.connected Sample.one_chat (Sample.fail_at 1)))) /\
  result_of (delete_chat Concrete.platform Sample.chat1
               (Sample.connected Sample.one_chat (Sample.fail_at 1))) = Ok false.
Proof.
  split; [reflexivity |]. split; [| reflexivity].
  vm_compute. right. right. left. reflexivity.
Qed.

(** C6. [await_up()] with the defaults, when the liveness probe fails twice
    and is answered at the third attempt: the call returns, it has slept
    1.0 and then 1.5 seconds (the first two delays of the backoff, each 1.5
    times the one before, capped at [max_delay]), the readiness flag is set,
    and a second call returns at once: no probe, no event, no change. *)
Theorem await_up_third_attempt (s : state) :
  probe_outcomes (events_of (await_up_default s)) = [false; false; true] ->
  result_of (await_up_default s) = Ok tt /\
  sleeps (events_of (await_up_default s)) = [1%Q; (3 # 2)%Q] /\
  sleeps (events_of (await_up_default s)) = schedule 10 2 1 /\
  is_query_service_ready (state_of (await_up_default s)) = true /\
  await_up_default (state_of (await_up_default s)) =
    (Ok tt, state_of (await_up_default s), []).
Proof.
  intros Hp. unfold await_up_default in *.
  destruct (is_query_service_ready s) eqn:Hr.
  { rewrite (await_up_ready _ _ _ s Hr) in Hp. discriminate Hp. }
  destruct (await_up_spec 30 1 10 s Hr)
    as [(e & _ & _ & _ & Hq & _) | (j & Hs & [(H1 & _ & H3 & H4 & _) | (_ & H2 & H3)])].
  - rewrite Hq in Hp. discriminate Hp.
  - rewrite H3 in Hp.
    assert (j = 2%nat) as ->.
    { destruct j as [| [| [| j]]]; cbn in Hp; try discriminate Hp. reflexivity. }
    repeat split; auto.
    apply await_up_ready, H4.
  - rewrite H3, H2 in Hp. discriminate Hp.
Qed.

(** The run of C6 exists: two round trips fail, the third is answered. *)
Lemma await_up_third_attempt_witness :
  probe_outcomes (events_of (await_up_default
     (Sample.connected Sample.one_chat (Sample.fail_first 2))))
    = [false; false; true] /\
  result_of (await_up_default
     (Sample.connected Sample.one_chat (Sample.fail_first 2))) = Ok tt /\
  sleeps (events_of (await_up_default
     (Sample.connected Sample.one_chat (Sample.fail_first 2))))
    = [1%Q; (3 # 2)%Q].
Proof.
  split; [reflexivity |].
  destruct (await_up_third_attempt
              (Sample.connected Sample.one_chat (Sample.fail_first 2)))
    as (H1 & H2 & _); [reflexivity |].
  split; [exact H1 | exact H2].
Defined.

(** C7, as the code has it.  [await_up()] with the defaults, when all 30
    liveness probes fail: the call raises the not-available error, and it
    has slept the 30 delays of the capped backoff, 1, 1.5, 2.25, 3.375,
    5.0625, 7.59375 and then 10 seconds 24 times: 260.78125 seconds. *)
Theorem await_up_exhausted (s : state) :
  probe_outcomes (events_of (await_up_default s)) = repeat false 30 ->
  result_of (await_up_default s) = Raise (NotAvailable 30) /\
  sleeps (events_of (await_up_default s)) = schedule 10 30 1 /\
  (total (sleeps (events_of (await_up_default s))) == 26078125 # 100000)%Q.
Proof.
  intros Hp. unfold await_up_default in *.
  destruct (is_query_service_ready s) eqn:Hr.
  { rewrite (await_up_ready _ _ _ s Hr) in Hp. discriminate Hp. }
  destruct (await_up_spec 30 1 10 s Hr)
    as [(e & _ & _ & _ & Hq & _) | (j & Hs & [(H1 & _ & H3 & H4 & _) | (H1 & H2 & H3)])].
  - rewrite Hq in Hp. discriminate Hp.
  - rewrite H3 in Hp. apply repeat_false_true in Hp. contradiction.
  - subst j. split; [exact H1 |]. split; [exact Hs |].
    rewrite Hs. apply schedule_default_total.
Qed.

Lemma await_up_exhausted_witness :
  probe_outcomes (events_of (await_up_default
     (Sample.connected Sample.one_chat Sample.always_failing)))
    = repeat false 30 /\
  result_of (await_up_default
     (Sample.connected Sample.one_chat Sample.always_failing))
    = Raise (NotAvailable 30) /\
  (total (sleeps (events_of (await_up_default
     (Sample.connected Sample.one_chat Sample.always_failing))))
    == 26078125 # 100000)%Q.
Proof.
  split; [vm_compute; reflexivity |].
  destruct (await_up_exhausted
              (Sample.connected Sample.one_chat Sample.always_failing))
    as (H1 & _ & H3); [vm_compute; reflexivity |].
  split; [exact H1 | exact H3].
Defined.

(** C7 as the spec has it fails: on a store whose every round trip fails,
    the defaults sleep 260.78125 seconds in all, which is not within 50
    percent of 170 seconds. *)
Lemma await_up_total_not_170 :
  result_of (await_up_default
     (Sample.connected Sample.one_chat Sample.always_failing))
    = Raise (NotAvailable 30) /\
  probe_outcomes (events_of (await_up_default
     (Sample.connected Sample.one_chat Sample.always_failing)))
    = repeat false 30 /\
  ~ roughly 170 (total (sleeps (events_of (await_up_default
       (Sample.connected Sample.one_chat Sample.always_failing))))).
Proof.
  repeat split; try (vm_compute; reflexivity).
  unfold roughly. vm_compute. intros H. apply H. reflexivity.
Qed.

(** C8. Whenever [get_messages] returns, it returns the rows of the messages
    table that belong to the chat, each shown as a dict, in ascending order
    of [created_at], and it leaves the tables as they are.  On a store that
    works it does return: the empty list when the chat has no message,
    whether or not a chat with that id exists, and a list whenever every
    stored metadata of the chat can be decoded. *)
Theorem get_messages_sorted (P : platform) (id : string) (s : state) :
  (forall views, result_of (get_messages P id s) = Ok views ->
     exists rows,
       Permutation rows (filter (of_chat id) (messages (db s))) /\
       Sorted created_at_le rows /\
       Forall2 (shows P) rows views /\
       db (state_of (get_messages P id s)) = db s) /\
  (healthy s -> filter (of_chat id) (messages (db s)) = [] ->
   result_of (get_messages P id s) = Ok []) /\
  (healthy s ->
   (forall row, In row (messages (db s)) -> of_chat id row = true ->
                decoded P (msg_metadata row) <> None) ->
   exists views, result_of (get_messages P id s) = Ok views).
Proof.
  rewrite get_messages_eq, run_after.
  split; [| split].
  - intros views H.
    rewrite <- (run_after prelude_and_wait (get_messages_try P id) s),
      <- get_messages_eq in H |- *.
    destruct (get_messages_returned P id s views H) as [Hshow Hd].
    exists (order_by_created_at (filter (of_chat id) (messages (db s)))).
    split; [apply order_by_created_at_perm |].
    split; [apply order_by_created_at_sorted |].
    split; [exact Hshow | exact Hd].
  - intros Hh Hnone.
    destruct (prelude_and_wait_healthy s Hh) as (s1 & ev1 & E & Hc & _ & Hd & Hh1).
    rewrite E. cbn [result_of state_of events_of fst snd].
    rewrite (get_messages_try_open P id s1 Hc), Hh1, Hd, Hnone. reflexivity.
  - intros Hh Hdec.
    destruct (prelude_and_wait_healthy s Hh) as (s1 & ev1 & E & Hc & _ & Hd & Hh1).
    rewrite E. cbn [result_of state_of events_of fst snd].
    rewrite (get_messages_try_open P id s1 Hc), Hh1, Hd. cbn zeta.
    destruct (convert_rows_total P
                (order_by_created_at (filter (of_chat id) (messages (db s))))
                (tick s1)) as [vs Hvs].
    + intros row Hin.
      apply (Permutation_in _ (order_by_created_at_perm _)) in Hin.
      apply filter_In in Hin. destruct Hin as [Hin Hof]. apply Hdec; assumption.
    + rewrite Hvs. eexists. reflexivity.
Qed.

Lemma get_messages_sorted_witness :
  healthy (Sample.ready Sample.one_chat) /\
  has_chat Sample.chat1 Sample.one_chat = true /\
  result_of (get_messages Concrete.platform Sample.chat1
               (Sample.ready Sample.one_chat)) = Ok [] /\
  has_chat Sample.chat2 Sample.one_chat = false /\
  result_of (get_messages Concrete.platform Sample.chat2
               (Sample.ready Sample.one_chat)) = Ok [] /\
  map m_id (match result_of (get_messages Concrete.platform Sample.chat1
                               (Sample.ready Sample.unordered)) with
            | Ok views => views
            | Raise _ => []
            end)
    = [1700000000002%Z; 1700000000009%Z] /\
  exists rows,
    Sorted created_at_le rows /\
    Permutation rows (filter (of_chat Sample.chat1) (messages Sample.unordered)).
Proof.
  assert (Hh : healthy (Sample.ready Sample.one_chat)) by (intros n; reflexivity).
  destruct (get_messages_sorted Concrete.platform Sample.chat1
              (Sample.ready Sample.one_chat)) as (_ & H1 & _).
  destruct (get_messages_sorted Concrete.platform Sample.chat2
              (Sample.ready Sample.one_chat)) as (_ & H2 & _).
  destruct (get_messages_sorted Concrete.platform Sample.chat1
              (Sample.ready Sample.unordered)) as (H3 & _).
  destruct (H3 _ eq_refl) as (rows & Hperm & Hsorted & _).
  split; [exact Hh |]. split; [reflexivity |].
  split; [exact (H1 Hh eq_refl) |]. split; [reflexivity |].
  split; [exact (H2 Hh eq_refl) |]. split; [reflexivity |].
  exists rows. split; [exact Hsorted | exact Hperm].
Defined.



(** C10. A call of [add_message] that returns has read the clock once, and
    everything it writes and returns is that one reading [now]: the id is
    the millisecond stamp of [now], the string is [now] in ISO form, the row
    appended to the messages table has [created_at = now] and that id, and
    every row of the chat in the chats table has [updated_at = now], so the
    chat's [updated_at] is the new message's [created_at], also as
    [get_chat] shows it afterwards. *)
Theorem add_message_single_timestamp (P : platform) (now : datetime)
  (id role content : string) (metadata : option json) (s : state)
  (mid : Z) (iso : string) :
  result_of (add_message P now id role content metadata s) = Ok (mid, iso) ->
  mid = epoch_millis P now /\
  iso = isoformat P now /\
  (exists row,
      messages (db (state_of (add_message P now id role content metadata s)))
        = messages (db s) ++ [row] /\
      msg_id row = mid /\ msg_created_at row = now /\
      isoformat P (msg_created_at row) = iso) /\
  has_chat id (db (state_of (add_message P now id role content metadata s))) = true /\
  (forall c,
      In c (chats (db (state_of (add_message P now id role content metadata s)))) ->
      chat_id c = id -> chat_updated_at c = now) /\
  (forall v,
      result_of (get_chat P id (state_of (add_message P now id role content metadata s)))
        = Ok (Some v) ->
      c_updated_at v = iso).
Proof.
  intros H. apply add_message_ok in H.
  destruct H as (Hr & chat' & role' & row0 & rest & md0 & _ & _ & _ & _ & Hrow & _
                 & Hdb & Hc & Ht & _).
  inversion Hr; subst mid iso. clear Hr.
  set (s' := state_of (add_message P now id role content metadata s)) in *.
  split; [reflexivity |]. split; [reflexivity |].
  split; [| split; [| split]].
  - exists (new_message P now chat' role' content metadata).
    rewrite Hdb. cbn. auto.
  - rewrite Hdb. unfold has_chat. cbn [chats]. rewrite has_chat_touch.
    apply (chats_with_has_chat _ _ _ _ Hrow).
  - rewrite Hdb. cbn [chats]. apply touched_updated_at.
  - intros v Hv. rewrite (get_chat_prepared P id s' Hc Ht) in Hv.
    destruct (get_chat_try P id s') as [[r s2] ev2] eqn:E. cbn in Hv. subst r.
    apply get_chat_try_some in E.
    destruct E as (_ & _ & _ & _ & row & rest' & md & Hrow' & _ & ->).
    cbn. f_equal.
    assert (Hin : In row (chats_with id (db s'))) by (rewrite Hrow'; left; reflexivity).
    unfold chats_with in Hin. apply filter_In in Hin. destruct Hin as [Hin Hid].
    rewrite Hdb in Hin. cbn [chats] in Hin.
    apply (touched_updated_at _ _ _ _ Hin), String.eqb_eq, Hid.
Qed.

Lemma add_message_single_timestamp_witness :
  result_of (add_message Concrete.platform Sample.t1 Sample.chat1 "user" "hi" None
               (Sample.ready Sample.one_chat))
    = Ok (1700000005000%Z, "2023-11-14T22:13:25.000123") /\
  1700000005000%Z = epoch_millis Concrete.platform Sample.t1 /\
  "2023-11-14T22:13:25.000123" = isoformat Concrete.platform Sample.t1.
Proof.
  split; [reflexivity |].
  destruct (add_message_single_timestamp Concrete.platform Sample.t1 Sample.chat1
              "user" "hi" None (Sample.ready Sample.one_chat)
              1700000005000%Z "2023-11-14T22:13:25.000123" eq_refl)
    as (H1 & H2 & _).
  split; [exact H1 | exact H2].
Defined.

(** * Further properties *)

(** ** The constraints of the tables *)

Lemma has_chat_app id d row :
  existsb (fun c => String.eqb (chat_id c) id) (chats d ++ [row]) =
  has_chat id d || String.eqb (chat_id row) id.
Proof.
  unfold has_chat. rewrite existsb_app. cbn. now rewrite orb_false_r.
Qed.

Lemma has_chat_In id d :
  has_chat id d = true <-> In id (map chat_id (chats d)).
Proof.
  unfold has_chat. rewrite existsb_exists, in_map_iff. split.
  - intros (c & Hin & Heq). apply String.eqb_eq in Heq. eauto.
  - intros (c & Heq & Hin). exists c. split; [assumption |].
    now apply String.eqb_eq.
Qed.

Lemma NoDup_map_filter {A B} (f : A -> B) (p : A -> bool) l :
  NoDup (map f l) -> NoDup (map f (filter p l)).
Proof.
  induction l as [| x l IH]; cbn; intros H; [constructor |].
  inversion H as [| ? ? Hnot Hrest]; subst.
  destruct (p x); cbn; [| now apply IH].
  constructor; [| now apply IH].
  intros Hin. apply Hnot. apply in_map_iff in Hin.
  destruct Hin as (y & Hy & Hin). apply filter_In in Hin.
  apply in_map_iff. exists y. tauto.
Qed.

Lemma map_touch_ids now id l : map chat_id (map (touch now id) l) = map chat_id l.
Proof.
  rewrite map_map. apply map_ext. intros c. apply touch_id.
Qed.

Lemma has_chat_touched now id id' l :
  existsb (fun c => String.eqb (chat_id c) id') (map (touch now id) l) =
  existsb (fun c => String.eqb (chat_id c) id') l.
Proof.
  induction l as [| c l IH]; cbn; [reflexivity |].
  now rewrite touch_id, IH.
Qed.

Lemma insert_chat_consistent id created updated metadata d :
  consistent d ->
  consistent (snd (run_statement (InsertChat id created updated metadata) d)).
Proof.
  intros (Hc & Hp & Hf). cbn.
  destruct (varchar 36 id) as [id' |]; cbn; [| now repeat split].
  destruct (has_chat id' d) eqn:Hhas; cbn; [now repeat split |].
  split; [| split].
  - unfold chat_key_ok. cbn. rewrite map_app. cbn.
    apply NoDup_app; [assumption | constructor; [intros [] | constructor] |].
    intros x Hin [Hx | []]. subst x.
    apply has_chat_In in Hin. congruence.
  - exact Hp.
  - intros m Hin. unfold has_chat. cbn. rewrite has_chat_app.
    cbn in Hin. rewrite (Hf m Hin). reflexivity.
Qed.

Lemma update_chat_consistent now id d :
  consistent d -> consistent (snd (run_statement (UpdateChat now id) d)).
Proof.
  intros (Hc & Hp & Hf). cbn. split; [| split].
  - unfold chat_key_ok. cbn. now rewrite map_touch_ids.
  - exact Hp.
  - intros m Hin. unfold has_chat. cbn. rewrite has_chat_touched.
    now apply Hf.
Qed.

Lemma insert_message_consistent id chat role content created metadata d :
  consistent d ->
  consistent
    (snd (run_statement (InsertMessage id chat role content created metadata) d)).
Proof.
  intros H.
  destruct (run_statement (InsertMessage id chat role content created metadata) d)
    as [[c | e] d'] eqn:E; cbn.
  - apply insert_message_ok in E.
    destruct E as (chat' & role' & _ & _ & _ & Hnew & Hhas & ->).
    destruct H as (Hc & Hp & Hf). split; [| split].
    + exact Hc.
    + unfold primary_key_ok. cbn. now apply primary_key_append.
    + intros m Hin. cbn in Hin. apply in_app_or in Hin.
      destruct Hin as [Hin | [<- | []]]; [now apply Hf | exact Hhas].
  - apply run_statement_raise in E. now subst.
Qed.

Lemma delete_chat_consistent id d :
  consistent d -> consistent (snd (run_statement (DeleteChat id) d)).
Proof.
  intros (Hc & Hp & Hf). cbn. split; [| split].
  - unfold chat_key_ok. cbn. now apply NoDup_map_filter.
  - unfold primary_key_ok. cbn. now apply NoDup_map_filter.
  - intros m Hin. cbn in Hin. apply filter_In in Hin.
    destruct Hin as [Hin Hother]. unfold has_chat. cbn.
    specialize (Hf m Hin). unfold has_chat in Hf.
    apply existsb_exists in Hf. destruct Hf as (c & Hc' & Heq).
    apply existsb_exists. exists c. split; [| assumption].
    apply filter_In. split; [assumption |].
    unfold not_chat. unfold of_chat in Hother.
    apply String.eqb_eq in Heq. rewrite Heq. exact Hother.
Qed.

Lemma run_statement_consistent q d :
  consistent d -> consistent (snd (run_statement q d)).
Proof.
  destruct q; try (intros H; exact H).
  - apply insert_chat_consistent.
  - apply update_chat_consistent.
  - apply insert_message_consistent.
  - apply delete_chat_consistent.
Qed.

Lemma frame_keeps_consistent : frame keeps_consistent.
Proof.
  split; unfold keeps_consistent; cbn; auto.
Qed.

Lemma frame_flags_stay : frame flags_stay.
Proof.
  split; unfold flags_stay; cbn; tauto.
Qed.

(** ** Invariants of the methods that write *)

Section MaintainsWrites.

Variable R : state -> state -> Prop.
Hypothesis HR : frame R.
Hypothesis Hrun : forall q s, R s (set_db (snd (run_statement q (db s))) s).
Variable P : platform.

Lemma maintains_any_execute q : maintains R any_event (execute q).
Proof. apply (maintains_execute R any_event HR); [reflexivity | apply Hrun]. Qed.

Lemma maintains_any_prelude : maintains R any_event prelude.
Proof. apply (maintains_prelude R any_event HR accepts_bootstrap_any_event). Qed.

Lemma maintains_any_log lvl msg : maintains R any_event (log lvl msg).
Proof. apply (maintains_log R any_event HR accepts_bootstrap_any_event). Qed.

Lemma maintains_any_await_up : maintains R any_event await_up_default.
Proof.
  apply (maintains_await_up R any_event HR accepts_bootstrap_any_event);
    reflexivity.
Qed.

Lemma maintains_any_get_chat id : maintains R any_event (get_chat P id).
Proof.
  apply (maintains_get_chat R any_event HR accepts_bootstrap_any_event).
  reflexivity.
Qed.

Lemma maintains_create_chat fresh_id now metadata :
  maintains R any_event (create_chat P fresh_id now metadata).
Proof.
  unfold create_chat, create_chat_try.
  apply (maintains_bind R any_event HR);
    [apply (maintains_ensure_connected R any_event HR accepts_bootstrap_any_event) |].
  intros _. apply (maintains_bind R any_event HR);
    [apply (maintains_init R any_event HR accepts_bootstrap_any_event) |].
  intros _. apply (maintains_try_except R any_event HR).
  - apply (maintains_bind R any_event HR); [apply maintains_any_execute |].
    intros _. apply (maintains_bind R any_event HR); [apply maintains_any_log |].
    intros _. apply (maintains_ret R any_event HR).
  - intros e. apply (maintains_bind R any_event HR); [apply maintains_any_log |].
    intros _. apply (maintains_raise R any_event HR).
Qed.

Lemma maintains_add_message now id role content metadata :
  maintains R any_event (add_message P now id role content metadata).
Proof.
  unfold add_message, add_message_try.
  apply (maintains_bind R any_event HR);
    [apply (maintains_ensure_connected R any_event HR accepts_bootstrap_any_event) |].
  intros _. apply (maintains_bind R any_event HR);
    [apply (maintains_init R any_event HR accepts_bootstrap_any_event) |].
  intros _. apply (maintains_try_except R any_event HR).
  - apply (maintains_bind R any_event HR); [apply maintains_any_get_chat |].
    intros [v |]; [| apply (maintains_raise R any_event HR)].
    apply (maintains_bind R any_event HR); [apply maintains_any_execute |].
    intros _. apply (maintains_bind R any_event HR); [apply maintains_any_execute |].
    intros _. apply (maintains_bind R any_event HR); [apply maintains_any_log |].
    intros _. apply (maintains_ret R any_event HR).
  - intros e. apply (maintains_bind R any_event HR); [apply maintains_any_log |].
    intros _. apply (maintains_raise R any_event HR).
Qed.

Lemma maintains_delete_chat id : maintains R any_event (delete_chat P id).
Proof.
  unfold delete_chat, delete_chat_try.
  apply (maintains_bind R any_event HR);
    [apply (maintains_ensure_connected R any_event HR accepts_bootstrap_any_event) |].
  intros _. apply (maintains_bind R any_event HR);
    [apply (maintains_init R any_event HR accepts_bootstrap_any_event) |].
  intros _. apply (maintains_bind R any_event HR); [apply maintains_any_await_up |].
  intros _. apply (maintains_try_except R any_event HR).
  - apply (maintains_bind R any_event HR); [apply maintains_any_get_chat |].
    intros [v |]; [| apply (maintains_ret R any_event HR)].
    apply (maintains_bind R any_event HR); [apply maintains_any_execute |].
    intros cur. destruct (0 <? rowcount cur)%nat.
    + apply (maintains_bind R any_event HR); [apply maintains_any_log |].
      intros _. apply (maintains_ret R any_event HR).
    + apply (maintains_ret R any_event HR).
  - intros e. apply (maintains_bind R any_event HR); [apply maintains_any_log |].
    intros _. apply (maintains_raise R any_event HR).
Qed.

Lemma maintains_any_get_messages id : maintains R any_event (get_messages P id).
Proof.
  apply (maintains_get_messages R any_event HR accepts_bootstrap_any_event);
    reflexivity.
Qed.

Lemma maintains_close : maintains R any_event close.
Proof.
  unfold close.
  apply (maintains_bind R any_event HR); [apply (maintains_get R any_event HR) |].
  intros s0. destruct (conn s0) as [[|] |];
    try apply (maintains_ret R any_event HR).
  apply (maintains_bind R any_event HR);
    [apply maintains_modify; intros s; apply HR |].
  intros _. apply maintains_any_log.
Qed.

End MaintainsWrites.

(** ** The backoff *)

Lemma next_delay_capped max_delay delay : (next_delay max_delay delay <= max_delay)%Q.
Proof. unfold next_delay. apply Q.le_min_l. Qed.

Lemma schedule_length max_delay n : forall delay, length (schedule max_delay n delay) = n.
Proof. induction n as [| n IH]; intros delay; cbn; [reflexivity | now rewrite IH]. Qed.

Lemma schedule_capped max_delay n :
  forall delay,
    Forall (fun d => (d <= Qmax delay max_delay)%Q) (schedule max_delay n delay).
Proof.
  induction n as [| n IH]; intros delay; cbn; constructor.
  - apply Q.le_max_l.
  - eapply Forall_impl; [| apply IH].
    intros d Hd. cbn in Hd. eapply Qle_trans; [exact Hd |].
    apply Q.max_lub.
    + eapply Qle_trans; [apply next_delay_capped | apply Q.le_max_r].
    + apply Q.le_max_r.
Qed.

Lemma failed_probes_repeat j :
  filter negb (repeat false j) = repeat false j.
Proof. induction j as [| j IH]; cbn; [reflexivity | now rewrite IH]. Qed.


(** X2. The constraints the tables are declared with (the primary key of
    [chats], the primary key [(chat_id, id)] of [messages], and the
    reference of every message to a chat that exists) hold after every
    method when they held before it, whatever the store fails. *)
Theorem constraints_preserved (P : platform) (s : state) :
  consistent (db s) ->
  (forall fresh_id now metadata,
      consistent (db (state_of (create_chat P fresh_id now metadata s)))) /\
  (forall now id role content metadata,
      consistent (db (state_of (add_message P now id role content metadata s)))) /\
  (forall id, consistent (db (state_of (get_chat P id s)))) /\
  (forall id, consistent (db (state_of (get_messages P id s)))) /\
  (forall id, consistent (db (state_of (delete_chat P id s)))).
Proof.
  intros H.
  assert (Hrun : forall q s0,
             keeps_consistent s0 (set_db (snd (run_statement q (db s0))) s0)).
  { intros q s0. unfold keeps_consistent. cbn. apply run_statement_consistent. }
  split; [| split; [| split; [| split]]]; intros.
  - now apply (maintains_create_chat _ frame_keeps_consistent Hrun P).
  - now apply (maintains_add_message _ frame_keeps_consistent Hrun P).
  - now apply (maintains_any_get_chat _ frame_keeps_consistent P).
  - now apply (maintains_any_get_messages _ frame_keeps_consistent P).
  - now apply (maintains_delete_chat _ frame_keeps_consistent Hrun P).
Qed.

Lemma consistent_one_chat : consistent Sample.one_chat.
Proof.
  split; [| split].
  - unfold chat_key_ok. cbn. constructor; [intros [] | constructor].
  - unfold primary_key_ok. cbn. constructor.
  - intros m [].
Qed.

Lemma constraints_preserved_witness :
  consistent (db (Sample.ready Sample.one_chat)) /\
  consistent
    (db (state_of (add_message Concrete.platform Sample.t1 Sample.chat1
                     "user" "hi" None (Sample.ready Sample.one_chat)))).
Proof.
  split; [exact consistent_one_chat |].
  exact (proj1 (proj2 (constraints_preserved Concrete.platform
                         (Sample.ready Sample.one_chat) consistent_one_chat))
           Sample.t1 Sample.chat1 "user" "hi" None).
Defined.

(** X3. The two read methods change no row and send no INSERT, UPDATE or
    DELETE, whatever the state of the client and whatever the store fails:
    when they return, when they raise, and when [get_chat] gives [None]. *)
Theorem reads_leave_rows (P : platform) (id : string) (s : state) :
  db (state_of (get_chat P id s)) = db s /\
  forallb no_write (events_of (get_chat P id s)) = true /\
  db (state_of (get_messages P id s)) = db s /\
  forallb no_write (events_of (get_messages P id s)) = true.
Proof.
  pose proof (maintains_get_chat same_store no_write frame_same_store
                accepts_bootstrap_no_write P id (fun _ => eq_refl) s)
    as [(Hd & _) He].
  assert (Hm : maintains same_store no_write (get_messages P id)).
  { apply (maintains_get_messages same_store no_write frame_same_store
             accepts_bootstrap_no_write); reflexivity. }
  destruct (Hm s) as [(Hd' & _) He'].
  auto.
Qed.

Section Quiet.

Variable P : platform.

Lemma get_messages_try_quiet id :
  maintains any_state no_probe_no_sleep (get_messages_try P id).
Proof.
  unfold get_messages_try.
  apply (maintains_try_except _ _ frame_any_state).
  - apply (maintains_bind _ _ frame_any_state).
    + apply (maintains_execute _ _ frame_any_state); [reflexivity | easy].
    + intros cur. apply (maintains_convert_rows _ _ frame_any_state).
  - intros e. apply (maintains_bind _ _ frame_any_state).
    + apply (maintains_log _ _ frame_any_state accepts_bootstrap_no_probe_no_sleep).
    + intros _. apply (maintains_raise _ _ frame_any_state).
Qed.

Lemma delete_chat_try_quiet id :
  maintains any_state no_probe_no_sleep (delete_chat_try P id).
Proof.
  unfold delete_chat_try.
  apply (maintains_try_except _ _ frame_any_state).
  - apply (maintains_bind _ _ frame_any_state).
    + apply (maintains_get_chat _ _ frame_any_state
               accepts_bootstrap_no_probe_no_sleep). reflexivity.
    + intros [v |]; [| apply (maintains_ret _ _ frame_any_state)].
      apply (maintains_bind _ _ frame_any_state).
      * apply (maintains_execute _ _ frame_any_state); [reflexivity | easy].
      * intros cur. destruct (0 <? rowcount cur)%nat.
        -- apply (maintains_bind _ _ frame_any_state).
           ++ apply (maintains_log _ _ frame_any_state
                       accepts_bootstrap_no_probe_no_sleep).
           ++ intros _. apply (maintains_ret _ _ frame_any_state).
        -- apply (maintains_ret _ _ frame_any_state).
  - intros e. apply (maintains_bind _ _ frame_any_state).
    + apply (maintains_log _ _ frame_any_state accepts_bootstrap_no_probe_no_sleep).
    + intros _. apply (maintains_raise _ _ frame_any_state).
Qed.

End Quiet.

Lemma prelude_and_wait_quiet s :
  is_query_service_ready s = true ->
  forallb no_probe_no_sleep (events_of (prelude_and_wait s)) = true.
Proof.
  intros Hready. unfold prelude_and_wait. rewrite run_after.
  pose proof (maintains_prelude any_state no_probe_no_sleep frame_any_state
                accepts_bootstrap_no_probe_no_sleep s) as [_ Hq].
  pose proof (maintains_prelude flags_stay any_event frame_flags_stay
                accepts_bootstrap_any_event s) as [(Hf & _) _].
  destruct (prelude s) as [[[u | e] s1] ev1]; cbn in *; [| exact Hq].
  unfold await_up_default.
  rewrite (await_up_ready _ _ _ s1 (Hf Hready)). cbn.
  now rewrite app_nil_r.
Qed.

Lemma flags_stay_run : forall q s,
  flags_stay s (set_db (snd (run_statement q (db s))) s).
Proof. intros q s. split; auto. Qed.

Lemma quiet_after_opening {A} (rest : M A) s :
  is_query_service_ready s = true ->
  maintains any_state no_probe_no_sleep rest ->
  forallb no_probe_no_sleep (events_of ((prelude_and_wait ;; rest) s)) = true.
Proof.
  intros Hready Hrest. rewrite run_after.
  pose proof (prelude_and_wait_quiet s Hready) as Hq.
  destruct (prelude_and_wait s) as [[[u | e] s1] ev1]; cbn in *; [| exact Hq].
  rewrite forallb_app, Hq. apply Hrest.
Qed.

(** X4. The store is probed for readiness once in the life of a client:
    after the readiness flag is set, [get_messages] and [delete_chat] send
    no liveness probe and never sleep, whatever the store fails from then
    on, and they leave the flag set. *)
Theorem readiness_checked_once (P : platform) (id : string) (s : state) :
  is_query_service_ready s = true ->
  (probe_outcomes (events_of (get_messages P id s)) = [] /\
   sleeps (events_of (get_messages P id s)) = [] /\
   is_query_service_ready (state_of (get_messages P id s)) = true) /\
  (probe_outcomes (events_of (delete_chat P id s)) = [] /\
   sleeps (events_of (delete_chat P id s)) = [] /\
   is_query_service_ready (state_of (delete_chat P id s)) = true).
Proof.
  intros Hready. split.
  - pose proof (maintains_any_get_messages _ frame_flags_stay P id s)
      as [(Hf & _) _].
    rewrite get_messages_eq.
    destruct (quiet_events _ (quiet_after_opening _ s Hready
                                (get_messages_try_quiet P id))) as [Hp Hs].
    rewrite get_messages_eq in Hf. auto.
  - pose proof (maintains_delete_chat _ frame_flags_stay flags_stay_run P id s)
      as [(Hf & _) _].
    rewrite delete_chat_eq.
    destruct (quiet_events _ (quiet_after_opening _ s Hready
                                (delete_chat_try_quiet P id))) as [Hp Hs].
    rewrite delete_chat_eq in Hf. auto.
Qed.

Lemma readiness_checked_once_witness :
  is_query_service_ready
    (set_is_query_service_ready true
       (Sample.connected Sample.one_chat Sample.always_failing)) = true /\
  probe_outcomes
    (events_of (get_messages Concrete.platform Sample.chat1
                  (set_is_query_service_ready true
                     (Sample.connected Sample.one_chat Sample.always_failing))))
    = [].
Proof.
  split; [reflexivity |].
  apply (readiness_checked_once Concrete.platform Sample.chat1
           (set_is_query_service_ready true
              (Sample.connected Sample.one_chat Sample.always_failing))).
  reflexivity.
Defined.

(** ** A store that has recovered *)

Lemma frame_later : frame later.
Proof.
  split; unfold later; cbn; intros; try (split; [reflexivity | lia]).
  destruct H as [H1 H2], H0 as [H3 H4]. split; [congruence | lia].
Qed.

Lemma later_run : forall q s, later s (set_db (snd (run_statement q (db s))) s).
Proof. intros q s. split; cbn; [reflexivity | lia]. Qed.

Lemma healthy_later s s' : later s s' -> healthy_from_now s -> healthy_from_now s'.
Proof.
  intros [Hf Ht] H n Hn. rewrite Hf. apply H. lia.
Qed.

Lemma healthy_from_now_healthy s : healthy s -> healthy_from_now s.
Proof. intros H n _. apply H. Qed.

Lemma init_tables_recovers s :
  healthy_from_now s -> conn s = Some ConnOpen ->
  exists s1 ev, init_tables s = (Ok tt, s1, ev) /\ conn s1 = Some ConnOpen /\
                tables_created s1 = true.
Proof.
  intros Hh Hc. unfold init_tables, bind at 1, get.
  destruct (tables_created s) eqn:Ht; [cbn; eauto |].
  unfold bind, try_except, modify, log, emit.
  repeat (rewrite execute_open by (cbn; exact Hc); cbn;
          rewrite Hh by (cbn; lia); cbn).
  eauto.
Qed.

Lemma connect_recovers s :
  healthy_from_now s ->
  exists s1 ev, connect s = (Ok tt, s1, ev) /\ conn s1 = Some ConnOpen.
Proof.
  intros Hh. unfold connect, try_except at 1, bind at 1, psycopg_connect.
  rewrite Hh by lia.
  destruct (init_tables_recovers (set_conn (Some ConnOpen) (tick s)))
    as (s1 & ev & E & Hc & _);
    [intros n Hn; cbn in *; apply Hh; lia | reflexivity |].
  unfold bind, try_except. rewrite E. cbn. eauto.
Qed.

Lemma prelude_recovers s :
  healthy_from_now s ->
  exists s1 ev, prelude s = (Ok tt, s1, ev) /\
    conn s1 = Some ConnOpen /\ tables_created s1 = true /\
    db s1 = db s /\ healthy_from_now s1.
Proof.
  intros Hh.
  assert (exists s0 ev0, ensure_connected s = (Ok tt, s0, ev0) /\
                         conn s0 = Some ConnOpen) as (s0 & ev0 & E0 & Hc0).
  { unfold ensure_connected, bind, get.
    destruct (conn s) as [[|] |] eqn:Ec; cbn.
    - eauto.
    - destruct (connect_recovers s Hh) as (s1 & ev & E & Hc). rewrite E. eauto.
    - destruct (connect_recovers s Hh) as (s1 & ev & E & Hc). rewrite E. eauto. }
  assert (Hh0 : healthy_from_now s0).
  { pose proof (maintains_ensure_connected _ _ frame_later
                  accepts_bootstrap_any_event s) as [Hl _].
    rewrite E0 in Hl. eapply healthy_later; eauto. }
  destruct (init_tables_recovers s0 Hh0 Hc0) as (s1 & ev1 & E1 & Hc1 & _).
  assert (E : prelude s = (Ok tt, s1, ev0 ++ ev1)).
  { unfold prelude, bind at 1. rewrite E0. unfold init, bind, get.
    rewrite Hc0. cbn. rewrite E1. reflexivity. }
  exists s1, (ev0 ++ ev1). split; [exact E |].
  destruct (prelude_ok _ _ _ E) as [H1 H2].
  pose proof (prelude_same_store s) as [(Hd & _) _]. rewrite E in Hd.
  pose proof (maintains_prelude _ _ frame_later accepts_bootstrap_any_event s)
    as [Hl _].
  rewrite E in Hl.
  repeat split; auto. eapply healthy_later; eauto.
Qed.

(** [get_chat] on a store that works from now on. *)
Lemma get_chat_recovers (P : platform) (id : string) (s : state)
  (row : chat_row) (rest : list chat_row) (metadata : json) :
  healthy_from_now s ->
  chats_with id (db s) = row :: rest ->
  decoded P (chat_metadata row) = Some metadata ->
  result_of (get_chat P id s) = Ok (Some (chat_view_of P row metadata)).
Proof.
  intros Hh Hrow Hdec.
  destruct (prelude_recovers s Hh) as (s1 & ev & E & Hc & Ht & Hd & Hh1).
  rewrite get_chat_eq, run_after_prelude, E.
  rewrite (get_chat_try_open P id s1 Hc), (Hh1 _ (le_n _)), Hd, Hrow, Hdec.
  reflexivity.
Qed.

(** X5. On a store that works from now on, whatever state the client is in
    (never connected, closed, or left behind by earlier failures),
    [get_chat] on a chat that is in the table, with metadata that can be
    decoded, returns the dict of its row: the id asked for, the two
    timestamps in ISO form, and the decoded metadata. *)
Theorem get_chat_found (P : platform) (id : string) (s : state)
  (row : chat_row) (rest : list chat_row) (metadata : json) :
  healthy_from_now s ->
  chats_with id (db s) = row :: rest ->
  decoded P (chat_metadata row) = Some metadata ->
  result_of (get_chat P id s) = Ok (Some (chat_view_of P row metadata)) /\
  c_id (chat_view_of P row metadata) = id /\
  c_created_at (chat_view_of P row metadata) = isoformat P (chat_created_at row) /\
  c_updated_at (chat_view_of P row metadata) = isoformat P (chat_updated_at row) /\
  c_metadata (chat_view_of P row metadata) = metadata.
Proof.
  intros Hh Hrow Hdec.
  split; [exact (get_chat_recovers P id s row rest metadata Hh Hrow Hdec) |].
  cbn. repeat split; try reflexivity.
  now destruct (chats_with_has_chat _ _ _ _ Hrow).
Qed.

Lemma get_chat_found_witness :
  healthy_from_now (Sample.fresh Sample.one_chat Sample.no_faults) /\
  result_of (get_chat Concrete.platform Sample.chat1
               (Sample.fresh Sample.one_chat Sample.no_faults))
    = Ok (Some {| c_id := Sample.chat1;
                  c_created_at := "2023-11-14T22:13:20";
                  c_updated_at := "2023-11-14T22:13:20";
                  c_metadata := JObj [] |}).
Proof.
  split; [intros n _; reflexivity |].
  apply (get_chat_found Concrete.platform Sample.chat1
           (Sample.fresh Sample.one_chat Sample.no_faults)
           {| chat_id := Sample.chat1; chat_created_at := Sample.t0;
              chat_updated_at := Sample.t0; chat_metadata := "{}" |}
           [] (JObj [])).
  - intros n _; reflexivity.
  - reflexivity.
  - reflexivity.
Defined.

(** ** Connecting, bootstrapping, closing *)

Ltac stopped_at q sent rest :=
  exists q, sent, rest; cbn;
  split; [reflexivity | split; [reflexivity | auto 10]].

Lemma init_tables_raise_logged s e s1 ev :
  init_tables s = (Raise e, s1, ev) ->
  In (ERROR, ErrorInitializingTables e) (logged ev) /\
  exists q sent rest,
    statements ev = sent ++ [q] /\ sent ++ q :: rest = bootstrap /\
    In (EvExecute q (Some e)) ev.
Proof.
  unfold init_tables, bind, try_except, get, modify, log, emit, raise, ret.
  destruct (tables_created s) eqn:Ht; [discriminate |].
  intros H. cbn in H.
  exec_step H.
  2: { inversion H; subst. cbn. split; [auto |].
       stopped_at CreateSchema (@nil statement) (tl bootstrap). }
  exec_step H.
  2: { inversion H; subst. cbn. split; [auto |].
       stopped_at CreateTableChats [CreateSchema] (tl (tl bootstrap)). }
  exec_step H.
  2: { inversion H; subst. cbn. split; [auto |].
       stopped_at CreateTableMessages [CreateSchema; CreateTableChats]
         (tl (tl (tl bootstrap))). }
  exec_step H.
  2: { inversion H; subst. cbn. split; [auto |].
       stopped_at CreateIndexChatId
         [CreateSchema; CreateTableChats; CreateTableMessages]
         [CreateIndexCreatedAt]. }
  exec_step H.
  2: { inversion H; subst. cbn. split; [auto |].
       stopped_at CreateIndexCreatedAt
         [CreateSchema; CreateTableChats; CreateTableMessages; CreateIndexChatId]
         (@nil statement). }
  discriminate H.
Qed.

Lemma init_tables_ok_statements s s1 ev :
  init_tables s = (Ok tt, s1, ev) -> tables_created s = false ->
  statements ev = bootstrap /\ In (INFO, TablesInitialized) (logged ev).
Proof.
  unfold init_tables, bind, try_except, get, modify, log, emit, raise, ret.
  intros H Ht. rewrite Ht in H. cbn in H.
  repeat (exec_step H; [| discriminate H]).
  inversion H; subst. cbn. auto.
Qed.

Lemma init_with_handle s :
  conn s <> None -> init s = init_tables s.
Proof.
  intros Hc. unfold init, bind, get.
  destruct (conn s) as [c |]; [| contradiction]. cbn.
  destruct (init_tables s) as [[[[] | e] s1] ev1]; reflexivity.
Qed.

(** X6. [init] bootstraps once.  A call that returned has set the flag,
    and a second call then sends nothing and changes nothing.  On a client
    that holds a connection handle and has not bootstrapped, a call that
    returns has sent the five statements of the bootstrap in their order,
    and a call that raises [e] has stopped at the statement the store
    failed with [e], has logged [e] at error level, and has left the flag
    unset.  No row is changed either way. *)
Theorem init_bootstraps_once (s : state) :
  (result_of (init s) = Ok tt ->
   tables_created (state_of (init s)) = true /\
   init (state_of (init s)) = (Ok tt, state_of (init s), [])) /\
  (conn s <> None -> tables_created s = false ->
   (result_of (init s) = Ok tt ->
    statements (events_of (init s)) = bootstrap) /\
   (forall e, result_of (init s) = Raise e ->
      tables_created (state_of (init s)) = false /\
      In (ERROR, ErrorInitializingTables e) (logged (events_of (init s))) /\
      exists q sent rest,
        statements (events_of (init s)) = sent ++ [q] /\
        sent ++ q :: rest = bootstrap /\
        In (EvExecute q (Some e)) (events_of (init s)))) /\
  db (state_of (init s)) = db s.
Proof.
  split; [| split].
  - intros Hr.
    assert (Ht : tables_created (state_of (init s)) = true /\
                 conn (state_of (init s)) <> None).
    { revert Hr. unfold init, bind, get. cbn.
      destruct (conn s) as [c |] eqn:Ec; cbn.
      - destruct (init_tables s) as [[[[] | e] s1] ev1] eqn:E; cbn;
          [intros _ | discriminate].
        destruct (init_tables_ok _ _ _ E) as (Ht & _ & Hc). split; [exact Ht |].
        destruct (tables_created s) eqn:Hts.
        + rewrite (init_tables_done s Hts) in E. inversion E; subst. congruence.
        + rewrite (Hc eq_refl). discriminate.
      - destruct (connect s) as [[[[] | e] s0] ev0] eqn:E0; cbn; [| discriminate].
        destruct (init_tables s0) as [[[[] | e] s1] ev1] eqn:E; cbn;
          [intros _ | discriminate].
        destruct (init_tables_ok _ _ _ E) as (Ht & _ & Hc). split; [exact Ht |].
        destruct (tables_created s0) eqn:Hts.
        + rewrite (init_tables_done s0 Hts) in E. inversion E; subst.
          rewrite (connect_ok _ _ _ E0 Hts). discriminate.
        + rewrite (Hc eq_refl). discriminate. }
    destruct Ht as [Ht Hc]. split; [exact Ht |].
    rewrite (init_with_handle _ Hc). now apply init_tables_done.
  - intros Hc Ht. rewrite (init_with_handle _ Hc). split.
    + intros Hr. destruct (init_tables s) as [[[[] | e] s1] ev1] eqn:E;
        [| discriminate Hr].
      now destruct (init_tables_ok_statements _ _ _ E Ht).
    + intros e Hr. destruct (init_tables s) as [[[[] | e'] s1] ev1] eqn:E;
        [discriminate Hr |].
      cbn in Hr. inversion Hr; subst e'. cbn.
      split; [exact (init_tables_raise _ _ _ _ E) |].
      exact (init_tables_raise_logged _ _ _ _ E).
  - pose proof (maintains_init same_store no_write frame_same_store
                  accepts_bootstrap_no_write s) as [(Hd & _) _].
    exact Hd.
Qed.

Lemma init_bootstraps_once_witness :
  conn (set_tables_created false
          (Sample.connected Sample.one_chat Sample.no_faults)) <> None /\
  tables_created (set_tables_created false
                    (Sample.connected Sample.one_chat Sample.no_faults)) = false /\
  init (state_of (init (Sample.fresh Sample.one_chat Sample.no_faults))) =
    (Ok tt, state_of (init (Sample.fresh Sample.one_chat Sample.no_faults)), []) /\
  statements
    (events_of (init (set_tables_created false
                        (Sample.connected Sample.one_chat Sample.no_faults))))
    = bootstrap.
Proof.
  split; [discriminate |]. split; [reflexivity |]. split.
  - apply (init_bootstraps_once (Sample.fresh Sample.one_chat Sample.no_faults)).
    reflexivity.
  - apply (init_bootstraps_once
             (set_tables_created false
                (Sample.connected Sample.one_chat Sample.no_faults)));
      [discriminate | reflexivity | reflexivity].
Defined.

Lemma connect_attempted s :
  faults s (ticks s) = None ->
  connect s =
    match init_tables (set_conn (Some ConnOpen) (tick s)) with
    | (Ok _, s1, ev1) =>
        (Ok tt, s1, EvConnect None :: ev1 ++ [EvLog INFO ConnectedToDatabase])
    | (Raise e, s1, ev1) =>
        (Ok tt, s1,
         EvConnect None ::
         (ev1 ++ [EvLog WARNING (TablesNotReadyYet e)]) ++
         [EvLog INFO ConnectedToDatabase])
    end.
Proof.
  intros Hf. unfold connect, try_except at 1, bind at 1, psycopg_connect.
  rewrite Hf. unfold bind, try_except, log, emit.
  destruct (init_tables (set_conn (Some ConnOpen) (tick s)))
    as [[[[] | e] s1] ev1]; reflexivity.
Qed.

Lemma connect_refused s e drops :
  faults s (ticks s) = Some (e, drops) ->
  connect s =
    (Raise e, tick s, [EvConnect (Some e); EvLog WARNING (ConnectionFailed e)]).
Proof.
  intros Hf. unfold connect, try_except at 1, bind at 1, psycopg_connect.
  rewrite Hf. reflexivity.
Qed.

(** X7. [connect] returns exactly when the connection attempt succeeded,
    whether or not the bootstrap it then tries succeeds: a bootstrap that
    fails with [e] is logged (at error level by [init], as a warning by
    [connect]) and dropped, and the tables flag stays unset.  When the
    attempt fails with [e], [connect] logs a warning and raises [e], nothing
    else was sent, and the client is as it was. *)
Theorem connect_drops_bootstrap_failure (s : state) :
  (faults s (ticks s) = None ->
   result_of (connect s) = Ok tt /\
   In (INFO, ConnectedToDatabase) (logged (events_of (connect s))) /\
   (tables_created (state_of (connect s)) = true ->
    conn (state_of (connect s)) = Some ConnOpen) /\
   (tables_created (state_of (connect s)) = false ->
    exists e,
      In (ERROR, ErrorInitializingTables e) (logged (events_of (connect s))) /\
      In (WARNING, TablesNotReadyYet e) (logged (events_of (connect s))))) /\
  (forall e drops, faults s (ticks s) = Some (e, drops) ->
   result_of (connect s) = Raise e /\
   state_of (connect s) = tick s /\
   events_of (connect s) = [EvConnect (Some e); EvLog WARNING (ConnectionFailed e)]) /\
  db (state_of (connect s)) = db s.
Proof.
  split; [| split].
  - intros Hf. rewrite (connect_attempted s Hf).
    destruct (init_tables (set_conn (Some ConnOpen) (tick s)))
      as [[[[] | e] s1] ev1] eqn:E; cbn [result_of state_of events_of fst snd].
    + split; [reflexivity |]. split.
      * change (EvConnect None :: ev1 ++ [EvLog INFO ConnectedToDatabase])
          with ((EvConnect None :: ev1) ++ [EvLog INFO ConnectedToDatabase]).
        rewrite logged_app. apply in_or_app. right. cbn. auto.
      * destruct (init_tables_ok _ _ _ E) as (Ht & Hc & _).
        split; [intros _; now apply Hc | congruence].
    + split; [reflexivity |].
      pose proof (init_tables_raise _ _ _ _ E) as Ht.
      destruct (init_tables_raise_logged _ _ _ _ E) as [Hl _].
      change (EvConnect None :: (ev1 ++ [EvLog WARNING (TablesNotReadyYet e)]) ++
              [EvLog INFO ConnectedToDatabase])
        with ([EvConnect None] ++ (ev1 ++ [EvLog WARNING (TablesNotReadyYet e)]) ++
              [EvLog INFO ConnectedToDatabase]).
      rewrite !logged_app. cbn [logged app].
      split; [rewrite !in_app_iff; cbn; auto |].
      split; [congruence |]. intros _. exists e.
      split; rewrite !in_app_iff; cbn; auto.
  - intros e drops Hf. rewrite (connect_refused s e drops Hf). cbn. auto.
  - pose proof (maintains_connect same_store no_write frame_same_store
                  accepts_bootstrap_no_write s) as [(Hd & _) _].
    exact Hd.
Qed.

Lemma connect_drops_bootstrap_failure_witness :
  faults (Sample.fresh Sample.one_chat (Sample.fail_at 2))
         (ticks (Sample.fresh Sample.one_chat (Sample.fail_at 2))) = None /\
  result_of (connect (Sample.fresh Sample.one_chat (Sample.fail_at 2))) = Ok tt /\
  tables_created (state_of (connect (Sample.fresh Sample.one_chat (Sample.fail_at 2))))
    = false.
Proof.
  split; [reflexivity |]. split; [| reflexivity].
  apply (connect_drops_bootstrap_failure
           (Sample.fresh Sample.one_chat (Sample.fail_at 2))).
  reflexivity.
Defined.

(** ** Closing and reopening *)

Lemma connect_first_event s :
  exists err rest, events_of (connect s) = EvConnect err :: rest.
Proof.
  destruct (faults s (ticks s)) as [[e drops] |] eqn:Hf.
  - rewrite (connect_refused s e drops Hf). cbn. eauto.
  - rewrite (connect_attempted s Hf).
    destruct (init_tables _) as [[[[] | e] s1] ev1]; cbn; eauto.
Qed.

Lemma reconnects_first {A} (rest : M A) s :
  conn s <> Some ConnOpen ->
  exists err tail,
    events_of ((ensure_connected ;; rest) s) = EvConnect err :: tail.
Proof.
  intros Hc.
  assert (E : ensure_connected s = connect s).
  { unfold ensure_connected, bind, get. cbn.
    destruct (conn s) as [[|] |]; [contradiction | |];
      destruct (connect s) as [[[[] | e] s1] ev1]; cbn; now rewrite ?app_nil_r. }
  destruct (connect_first_event s) as (err & tail & Hev).
  rewrite run_after, E.
  destruct (connect s) as [[[u | e] s1] ev1]; cbn in *; subst ev1; cbn; eauto.
Qed.

Lemma close_eq s :
  close s =
    match conn s with
    | Some ConnOpen =>
        (Ok tt, set_conn (Some ConnClosed) s, [EvLog INFO ConnectionClosed])
    | _ => (Ok tt, s, [])
    end.
Proof.
  unfold close, bind, get, modify, log, emit, ret. cbn.
  destruct (conn s) as [[|] |]; reflexivity.
Qed.

(** X8. [close] never raises and leaves no open connection; it changes no
    row and forgets neither flag; closing twice is closing once (the
    second call does nothing, and logs nothing).  A client that was closed
    is usable again: each of the five store methods then starts with a new
    connection attempt. *)
Theorem close_then_reconnect (P : platform) (s : state) :
  result_of (close s) = Ok tt /\
  conn (state_of (close s)) <> Some ConnOpen /\
  db (state_of (close s)) = db s /\
  tables_created (state_of (close s)) = tables_created s /\
  is_query_service_ready (state_of (close s)) = is_query_service_ready s /\
  close (state_of (close s)) = (Ok tt, state_of (close s), []) /\
  (forall fresh_id now metadata, exists err tail,
      events_of (create_chat P fresh_id now metadata (state_of (close s)))
        = EvConnect err :: tail) /\
  (forall now id role content metadata, exists err tail,
      events_of (add_message P now id role content metadata (state_of (close s)))
        = EvConnect err :: tail) /\
  (forall id, exists err tail,
      events_of (get_chat P id (state_of (close s))) = EvConnect err :: tail) /\
  (forall id, exists err tail,
      events_of (get_messages P id (state_of (close s))) = EvConnect err :: tail) /\
  (forall id, exists err tail,
      events_of (delete_chat P id (state_of (close s))) = EvConnect err :: tail).
Proof.
  assert (Hc : conn (state_of (close s)) <> Some ConnOpen).
  { rewrite close_eq. destruct (conn s) as [[|] |] eqn:Ec; cbn;
      rewrite ?Ec; discriminate. }
  split; [rewrite close_eq; destruct (conn s) as [[|] |]; reflexivity |].
  split; [exact Hc |].
  split; [rewrite close_eq; destruct (conn s) as [[|] |]; reflexivity |].
  split; [rewrite close_eq; destruct (conn s) as [[|] |]; reflexivity |].
  split; [rewrite close_eq; destruct (conn s) as [[|] |]; reflexivity |].
  split.
  { rewrite (close_eq (state_of (close s))).
    destruct (conn (state_of (close s))) as [[|] |]; [contradiction | |];
      reflexivity. }
  split; [| split; [| split; [| split]]]; intros.
  - unfold create_chat. now apply reconnects_first.
  - unfold add_message. now apply reconnects_first.
  - unfold get_chat. now apply reconnects_first.
  - unfold get_messages. now apply reconnects_first.
  - unfold delete_chat. now apply reconnects_first.
Qed.

(** X9. The context manager.  When [__enter__] cannot connect, the error of
    the connect is raised and neither the block nor [__exit__] runs.
    Otherwise the outcome of the [with] statement is the outcome of its
    block, returned or raised, the events of the block are followed by
    those of [close], no connection is left open, and the rows are as the
    block left them. *)
Theorem with_client_closes {A : Type} (body : M A) (s : state) :
  (forall e, result_of (connect s) = Raise e ->
     with_client body s = (Raise e, state_of (connect s), events_of (connect s))) /\
  (result_of (connect s) = Ok tt ->
     result_of (with_client body s) = result_of (body (state_of (connect s))) /\
     events_of (with_client body s) =
       events_of (connect s) ++ events_of (body (state_of (connect s))) ++
       events_of (close (state_of (body (state_of (connect s))))) /\
     conn (state_of (with_client body s)) <> Some ConnOpen /\
     db (state_of (with_client body s)) =
       db (state_of (body (state_of (connect s))))).
Proof.
  unfold with_client, __enter__, __exit__, bind.
  destruct (connect s) as [[[[] | e] s0] ev0];
    cbn [result_of state_of events_of fst snd].
  - split; [discriminate |]. intros _.
    destruct (body s0) as [[r s1] ev1].
    cbn [result_of state_of events_of fst snd]. rewrite close_eq.
    destruct (conn s1) as [[|] |] eqn:Ec; cbn;
      rewrite ?Ec; repeat split; try reflexivity; discriminate.
  - split; [| discriminate]. intros e' He'. now inversion He'.
Qed.

Lemma with_client_closes_witness :
  result_of (connect (Sample.fresh Sample.one_chat Sample.no_faults)) = Ok tt /\
  result_of (with_client (get_chat Concrete.platform Sample.chat2)
               (Sample.fresh Sample.one_chat Sample.no_faults)) = Ok None /\
  conn (state_of (with_client (get_chat Concrete.platform Sample.chat2)
                    (Sample.fresh Sample.one_chat Sample.no_faults)))
    = Some ConnClosed.
Proof.
  split; [reflexivity |].
  destruct (with_client_closes (get_chat Concrete.platform Sample.chat2)
              (Sample.fresh Sample.one_chat Sample.no_faults)) as [_ H].
  destruct (H eq_refl) as (Hr & _).
  split; [rewrite Hr; reflexivity | reflexivity].
Defined.

(** ** The start of the application *)

(** X10. The start of the application never fails on the store.  When the
    first connection attempt succeeds, the application logs that it is
    connected.  When it fails, the error is logged and dropped, the client
    is left without a connection, and, as the warning says, the next
    request retries: every store method starts with a new connection
    attempt, and once the store works again a [get_chat] finds the chat. *)
Theorem lifespan_retries_on_request (P : platform) (d : database)
  (f : nat -> option (exn * bool)) :
  fst (fst (lifespan d f)) = Ok tt /\
  db (snd (fst (lifespan d f))) = d /\
  (f 0%nat = None ->
   In (AppLog INFO ConnectedToPostgres) (snd (lifespan d f)) /\
   snd (fst (lifespan d f)) = state_of (connect (new_client d f))) /\
  (forall e drops, f 0%nat = Some (e, drops) ->
   snd (lifespan d f) =
     [ClientEvent (EvConnect (Some e));
      ClientEvent (EvLog WARNING (ConnectionFailed e));
      AppLog WARNING CouldntConnectToPostgres] /\
   conn (snd (fst (lifespan d f))) = None /\
   (forall id, exists err tail,
       events_of (get_chat P id (snd (fst (lifespan d f)))) = EvConnect err :: tail) /\
   ((forall n, (1 <= n)%nat -> f n = None) ->
    forall id row rest metadata,
      chats_with id d = row :: rest ->
      decoded P (chat_metadata row) = Some metadata ->
      result_of (get_chat P id (snd (fst (lifespan d f))))
        = Ok (Some (chat_view_of P row metadata)))).
Proof.
  assert (Hd : db (state_of (connect (new_client d f))) = d).
  { pose proof (maintains_connect same_store no_write frame_same_store
                  accepts_bootstrap_no_write (new_client d f)) as [(Hd & _) _].
    exact Hd. }
  unfold lifespan. split; [| split; [| split]].
  - destruct (connect (new_client d f)) as [[[u | e] s1] ev]; reflexivity.
  - destruct (connect (new_client d f)) as [[[u | e] s1] ev]; exact Hd.
  - intros Hf. rewrite (connect_attempted (new_client d f) Hf).
    destruct (init_tables _) as [[[[] | e] s1] ev1];
      cbn [fst snd state_of];
      (split; [apply in_or_app; right; cbn; auto | reflexivity]).
  - intros e drops Hf. rewrite (connect_refused (new_client d f) e drops Hf).
    cbn [fst snd map app].
    split; [reflexivity |]. split; [reflexivity |]. split.
    + intros id. unfold get_chat. apply reconnects_first. discriminate.
    + intros Hlater id row rest metadata Hrow Hdec.
      apply (get_chat_recovers P id (tick (new_client d f)) row rest metadata);
        [| exact Hrow | exact Hdec].
      intros n Hn. cbn in *. now apply Hlater.
Qed.

Lemma lifespan_retries_on_request_witness :
  Sample.fail_first 1 0%nat = Some (OperationalError 0, false) /\
  (forall n, (1 <= n)%nat -> Sample.fail_first 1 n = None) /\
  conn (snd (fst (lifespan Sample.one_chat (Sample.fail_first 1)))) = None /\
  result_of (get_chat Concrete.platform Sample.chat1
               (snd (fst (lifespan Sample.one_chat (Sample.fail_first 1)))))
    = Ok (Some {| c_id := Sample.chat1;
                  c_created_at := "2023-11-14T22:13:20";
                  c_updated_at := "2023-11-14T22:13:20";
                  c_metadata := JObj [] |}).
Proof.
  assert (Hlater : forall n, (1 <= n)%nat -> Sample.fail_first 1 n = None).
  { intros n Hn. unfold Sample.fail_first.
    destruct (Nat.ltb_spec n 1); [lia | reflexivity]. }
  split; [reflexivity |]. split; [exact Hlater |].
  destruct (lifespan_retries_on_request Concrete.platform Sample.one_chat
              (Sample.fail_first 1)) as (_ & _ & _ & H).
  destruct (H (OperationalError 0) false eq_refl) as (_ & Hc & _ & Hget).
  split; [exact Hc |].
  apply (Hget Hlater Sample.chat1
           {| chat_id := Sample.chat1; chat_created_at := Sample.t0;
              chat_updated_at := Sample.t0; chat_metadata := "{}" |}
           [] (JObj [])); reflexivity.
Defined.

(** ** Creating a chat *)

Section Creating.

Variable P : platform.

Lemma insert_chat_ok id created updated metadata d c d' :
  run_statement (InsertChat id created updated metadata) d = (Ok c, d') ->
  exists id',
    varchar 36 id = Some id' /\ has_chat id' d = false /\
    d' = {| chats := chats d ++
              [{| chat_id := id'; chat_created_at := created;
                  chat_updated_at := updated; chat_metadata := metadata |}];
            messages := messages d |}.
Proof.
  cbn. destruct (varchar 36 id) as [id' |]; [| discriminate].
  destruct (has_chat id' d) eqn:Hhas; [discriminate |].
  intros H; inversion H; subst. eauto.
Qed.

Lemma create_chat_outcome fresh_id now metadata s :
  (exists id',
      varchar 36 fresh_id = Some id' /\ has_chat id' (db s) = false /\
      result_of (create_chat P fresh_id now metadata s) = Ok fresh_id /\
      db (state_of (create_chat P fresh_id now metadata s)) =
        {| chats := chats (db s) ++
             [{| chat_id := id'; chat_created_at := now; chat_updated_at := now;
                 chat_metadata := json_dumps P (or_empty metadata) |}];
           messages := messages (db s) |}) \/
  (exists e,
      result_of (create_chat P fresh_id now metadata s) = Raise e /\
      db (state_of (create_chat P fresh_id now metadata s)) = db s).
Proof.
  rewrite create_chat_eq, run_after_prelude.
  pose proof (prelude_same_store s) as [(Hd & _) _].
  destruct (prelude s) as [[[u | e] s1] ev1]; cbn in Hd;
    [| right; exists e; cbn; auto].
  rewrite create_chat_try_eq.
  destruct (execute _ s1) as [[[c | e] s2] ev2] eqn:E;
    cbn [result_of state_of events_of fst snd].
  - apply execute_ok in E. destruct E as (_ & _ & Hrun & _).
    apply insert_chat_ok in Hrun. destruct Hrun as (id' & Hv & Hhas & Hd2).
    left. exists id'. rewrite Hd in Hhas, Hd2. auto.
  - apply execute_raise in E. destruct E as (Hd2 & _).
    right. exists e. split; [reflexivity | congruence].
Qed.

End Creating.

(** X11. [create_chat] is all or nothing, whatever the store fails.  A call
    that returns has returned the new id and has added exactly one row to
    the chats table, under an id that was not there, with [created_at] and
    [updated_at] both the one clock reading and the metadata as
    [json.dumps] wrote it.  A call that raises has changed no row.  The
    messages table is never touched. *)
Theorem create_chat_all_or_nothing (P : platform) (fresh_id : string)
  (now : datetime) (metadata : option json) (s : state) :
  (forall r, result_of (create_chat P fresh_id now metadata s) = Ok r ->
     r = fresh_id /\
     exists id',
       varchar 36 fresh_id = Some id' /\ has_chat id' (db s) = false /\
       db (state_of (create_chat P fresh_id now metadata s)) =
         {| chats := chats (db s) ++
              [{| chat_id := id'; chat_created_at := now; chat_updated_at := now;
                  chat_metadata := json_dumps P (or_empty metadata) |}];
            messages := messages (db s) |}) /\
  (forall e, result_of (create_chat P fresh_id now metadata s) = Raise e ->
     db (state_of (create_chat P fresh_id now metadata s)) = db s) /\
  messages (db (state_of (create_chat P fresh_id now metadata s)))
    = messages (db s).
Proof.
  destruct (create_chat_outcome P fresh_id now metadata s)
    as [(id' & Hv & Hhas & Hr & Hd) | (e & Hr & Hd)];
    rewrite Hr, Hd; (split; [| split]); try reflexivity;
    try (intros ? H; discriminate H).
  intros r H. inversion H; subst. split; [reflexivity |]. eauto.
Qed.

(** X12. On a store that works from now on, [create_chat] with an id that
    is new returns it, whatever state the client was in, and a [get_chat]
    of that id then returns the chat: the id, [created_at] and [updated_at]
    both the ISO form of the one clock reading, and the metadata as the
    codec reads back what it wrote (for an omitted metadata, what it reads
    back for the empty dict). *)
Theorem create_chat_then_get_chat (P : platform) (fresh_id : string)
  (now : datetime) (metadata : option json) (s : state) (v : json) :
  healthy_from_now s ->
  has_chat fresh_id (db s) = false ->
  (String.length fresh_id <= 36)%nat ->
  decoded P (json_dumps P (or_empty metadata)) = Some v ->
  result_of (create_chat P fresh_id now metadata s) = Ok fresh_id /\
  result_of (get_chat P fresh_id (state_of (create_chat P fresh_id now metadata s)))
    = Ok (Some {| c_id := fresh_id;
                  c_created_at := isoformat P now;
                  c_updated_at := isoformat P now;
                  c_metadata := v |}).
Proof.
  intros Hh Habs Hlen Hdec.
  assert (Hh' : healthy_from_now (state_of (create_chat P fresh_id now metadata s))).
  { eapply healthy_later; [| exact Hh].
    apply (maintains_create_chat _ frame_later later_run P). }
  assert (Hr : result_of (create_chat P fresh_id now metadata s) = Ok fresh_id).
  { rewrite create_chat_eq, run_after_prelude.
    destruct (prelude_recovers s Hh) as (s1 & ev1 & E & Hc & Ht & Hd & Hh1).
    rewrite E, create_chat_try_eq, (execute_open _ s1 Hc), (Hh1 _ (le_n _)).
    unfold run_statement. rewrite (varchar_fits 36 fresh_id Hlen), Hd, Habs.
    reflexivity. }
  split; [exact Hr |].
  destruct (create_chat_outcome P fresh_id now metadata s)
    as [(id' & Hv & _ & _ & Hd) | (e & Hr' & _)]; [| congruence].
  rewrite (varchar_fits 36 fresh_id Hlen) in Hv. inversion Hv; subst id'.
  apply (get_chat_recovers P fresh_id _
           {| chat_id := fresh_id; chat_created_at := now; chat_updated_at := now;
              chat_metadata := json_dumps P (or_empty metadata) |} [] v Hh');
    [| exact Hdec].
  rewrite Hd. unfold chats_with. cbn [chats]. rewrite filter_app.
  fold (chats_with fresh_id (db s)). rewrite (has_chat_chats_with _ _ Habs).
  cbn. now rewrite String.eqb_refl.
Qed.

Lemma create_chat_then_get_chat_witness :
  healthy_from_now (Sample.fresh Sample.one_chat Sample.no_faults) /\
  has_chat Sample.chat2 (db (Sample.fresh Sample.one_chat Sample.no_faults)) = false /\
  (String.length Sample.chat2 <= 36)%nat /\
  result_of (get_chat Concrete.platform Sample.chat2
               (state_of (create_chat Concrete.platform Sample.chat2 Sample.t1 None
                            (Sample.fresh Sample.one_chat Sample.no_faults))))
    = Ok (Some {| c_id := Sample.chat2;
                  c_created_at := "2023-11-14T22:13:25.000123";
                  c_updated_at := "2023-11-14T22:13:25.000123";
                  c_metadata := JObj [] |}).
Proof.
  assert (Hh : healthy_from_now (Sample.fresh Sample.one_chat Sample.no_faults))
    by (intros n _; reflexivity).
  split; [exact Hh |]. split; [reflexivity |]. split; [cbn; lia |].
  apply (create_chat_then_get_chat Concrete.platform Sample.chat2 Sample.t1 None
           (Sample.fresh Sample.one_chat Sample.no_faults) (JObj []) Hh);
    [reflexivity | cbn; lia | reflexivity].
Defined.

(** ** Appending, when the store fails in the middle *)

Section Appended.

Variable P : platform.

Lemma has_message_touched now id chat mid d :
  has_message chat mid {| chats := map (touch now id) (chats d);
                          messages := messages d |} = has_message chat mid d.
Proof. reflexivity. Qed.

(** The INSERT of [add_message] on the tables its UPDATE left. *)
Lemma insert_after_touch now id role content metadata d row rest :
  chats_with id d = row :: rest ->
  (String.length id <= 36)%nat -> (String.length role <= 50)%nat ->
  in_bigint (epoch_millis P now) = true ->
  has_message id (epoch_millis P now) d = false ->
  run_statement
    (InsertMessage (epoch_millis P now) id role content now
       (json_dumps P (or_empty metadata)))
    (snd (run_statement (UpdateChat now id) d)) =
  (Ok (Status 1),
   {| chats := map (touch now id) (chats d);
      messages := messages d ++ [new_message P now id role content metadata] |}).
Proof.
  intros Hrow Hid Hrole Hbig Hnew.
  cbn [run_statement snd].
  rewrite (varchar_fits 36 id Hid), (varchar_fits 50 role Hrole), Hbig.
  rewrite has_message_touched, Hnew.
  unfold has_chat. cbn [chats]. rewrite has_chat_touch.
  destruct (chats_with_has_chat _ _ _ _ Hrow) as [Hhas _]. rewrite Hhas.
  reflexivity.
Qed.

End Appended.

(** X13. On a store that works from now on, [add_message] to a chat that is
    there (with metadata that can be decoded), with an id and a role that
    fit their columns and a millisecond stamp that is in range and not yet
    taken in this chat, returns the stamp and the ISO form of the clock
    reading, has set the chat's [updated_at] and has appended the message;
    a [get_messages] of the chat that returns afterwards lists it, with the
    role and content given and that id and timestamp. *)
Theorem add_message_returns (P : platform) (now : datetime)
  (id role content : string) (metadata : option json) (s : state)
  (row : chat_row) (rest : list chat_row) (chat_metadata0 : json) :
  healthy_from_now s ->
  chats_with id (db s) = row :: rest ->
  decoded P (chat_metadata row) = Some chat_metadata0 ->
  (String.length id <= 36)%nat ->
  (String.length role <= 50)%nat ->
  in_bigint (epoch_millis P now) = true ->
  has_message id (epoch_millis P now) (db s) = false ->
  result_of (add_message P now id role content metadata s)
    = Ok (epoch_millis P now, isoformat P now) /\
  db (state_of (add_message P now id role content metadata s)) =
    {| chats := map (touch now id) (chats (db s));
       messages := messages (db s) ++
                   [new_message P now id role content metadata] |} /\
  (forall views,
      result_of (get_messages P id
                   (state_of (add_message P now id role content metadata s)))
        = Ok views ->
      exists v,
        In v views /\ m_id v = epoch_millis P now /\ m_chat_id v = id /\
        m_role v = role /\ m_content v = content /\
        m_created_at v = isoformat P now).
Proof.
  intros Hh Hrow Hdec Hid Hrole Hbig Hnew.
  assert (E : result_of (add_message P now id role content metadata s)
                = Ok (epoch_millis P now, isoformat P now) /\
              db (state_of (add_message P now id role content metadata s)) =
                {| chats := map (touch now id) (chats (db s));
                   messages := messages (db s) ++
                               [new_message P now id role content metadata] |}).
  { rewrite add_message_eq, run_after_prelude.
    destruct (prelude_recovers s Hh) as (s1 & ev1 & E & Hc & Ht & Hd & Hh1).
    rewrite E, (add_message_try_prepared P now id role content metadata s1 Hc Ht).
    rewrite (Hh1 _ (le_n _)), Hd, Hrow, Hdec.
    rewrite (Hh1 (S (ticks s1))) by lia.
    rewrite (Hh1 (S (S (ticks s1)))) by lia.
    cbv zeta.
    rewrite (insert_after_touch P now id role content metadata (db s) row rest
               Hrow Hid Hrole Hbig Hnew).
    split; reflexivity. }
  destruct E as [Hr Hd]. split; [exact Hr |]. split; [exact Hd |].
  intros views Hviews.
  destruct (get_messages_returned P id _ views Hviews) as [Hshown _].
  rewrite Hd in Hshown. cbn [messages] in Hshown.
  assert (Hin : In (new_message P now id role content metadata)
                   (order_by_created_at
                      (filter (of_chat id)
                         (messages (db s) ++
                          [new_message P now id role content metadata])))).
  { eapply Permutation_in; [symmetry; apply order_by_created_at_perm |].
    apply filter_In. split; [apply in_or_app; right; left; reflexivity |].
    unfold of_chat. cbn. apply String.eqb_refl. }
  destruct (Forall2_in_left _ _ _ _ Hshown Hin) as (v & Hv & md & _ & ->).
  exists (view_of P (new_message P now id role content metadata) md).
  repeat split; assumption.
Qed.

Lemma add_message_returns_witness :
  healthy_from_now (Sample.fresh Sample.one_chat Sample.no_faults) /\
  result_of (add_message Concrete.platform Sample.t1 Sample.chat1 "user" "hi" None
               (Sample.fresh Sample.one_chat Sample.no_faults))
    = Ok (1700000005000%Z, "2023-11-14T22:13:25.000123").
Proof.
  assert (Hh : healthy_from_now (Sample.fresh Sample.one_chat Sample.no_faults))
    by (intros n _; reflexivity).
  split; [exact Hh |].
  apply (add_message_returns Concrete.platform Sample.t1 Sample.chat1 "user" "hi"
           None (Sample.fresh Sample.one_chat Sample.no_faults)
           {| chat_id := Sample.chat1; chat_created_at := Sample.t0;
              chat_updated_at := Sample.t0; chat_metadata := "{}" |}
           [] (JObj []) Hh);
    try reflexivity; cbn; lia.
Defined.

Ltac no_insert :=
  match goal with
  | Hfirst : forall q err tail, touches_rows q = true -> _,
    Hd : db _ = db _ |- _ =>
      split;
      [ let e := fresh "e" in
        let Hin := fresh "Hin" in
        intros e Hin; apply Hfirst in Hin; [| reflexivity]; in_events Hin
      | intros ? _; cbn; now rewrite ?Hd ]
  end.

(** X14. [add_message] is not all or nothing.  When its INSERT is failed
    with [e] (by the connection, or by the store: a role longer than its
    column, an id out of range, a key that is taken), the call raises [e]
    with the UPDATE before it already done: the chat's [updated_at] is the
    new clock reading although no message was added.  A call that raises
    never leaves a message behind. *)
Theorem add_message_not_atomic (P : platform) (now : datetime)
  (id role content : string) (metadata : option json) (s : state) :
  (forall e,
      In (EvExecute (InsertMessage (epoch_millis P now) id role content now
                       (json_dumps P (or_empty metadata))) (Some e))
         (events_of (add_message P now id role content metadata s)) ->
      result_of (add_message P now id role content metadata s) = Raise e /\
      db (state_of (add_message P now id role content metadata s)) =
        {| chats := map (touch now id) (chats (db s));
           messages := messages (db s) |} /\
      has_chat id (db s) = true /\
      forall c,
        In c (chats (db (state_of (add_message P now id role content metadata s)))) ->
        chat_id c = id -> chat_updated_at c = now) /\
  (forall e,
      result_of (add_message P now id role content metadata s) = Raise e ->
      messages (db (state_of (add_message P now id role content metadata s)))
        = messages (db s)).
Proof.
  rewrite add_message_eq, run_after_prelude.
  pose proof (prelude_same_store s) as [(Hd & _) _].
  pose proof (prelude_no_row_statement s) as Hquiet.

  destruct (prelude s) as [[[[] | e0] s1] ev1] eqn:E; cbn in Hd, Hquiet.
  2: { split; [| intros e _; cbn; now rewrite Hd].
       intros e Hin. cbn in Hin.
       now apply (no_row_statement_In _ _ _ Hquiet) in Hin. }
  destruct (prelude_ok _ _ _ E) as [Hc Ht].
  rewrite (add_message_try_prepared P now id role content metadata s1 Hc Ht).
  assert (Hfirst : forall q err tail,
             touches_rows q = true ->
             In (EvExecute q err) (ev1 ++ tail) -> In (EvExecute q err) tail).
  { intros q err tail Hq Hin. apply in_app_or in Hin. destruct Hin as [Hin | Hin];
      [| exact Hin].
    apply (no_row_statement_In _ _ _ Hquiet) in Hin. congruence. }
  rewrite Hd.
  destruct (faults s1 (ticks s1)) as [[e1 drops1] |]; [no_insert |].
  destruct (chats_with id (db s)) as [| row rest] eqn:Hrow; [no_insert |].
  destruct (decoded P (chat_metadata row)); [| no_insert].
  destruct (faults s1 (S (ticks s1))) as [[e2 drops2] |]; [no_insert |].
  cbv zeta.
  assert (Hhas : has_chat id (db s) = true)
    by apply (chats_with_has_chat _ _ _ _ Hrow).
  destruct (faults s1 (S (S (ticks s1)))) as [[e3 drops3] |].
  { split; [| intros e _; reflexivity].
    intros e Hin. apply Hfirst in Hin; [| reflexivity]. in_events Hin.
    cbn. repeat split; auto. apply touched_updated_at. }
  destruct (run_statement _ (snd (run_statement (UpdateChat now id) (db s))))
    as [[c | e4] d2] eqn:Hins.
  - split; [| intros e He; discriminate He].
    intros e Hin. apply Hfirst in Hin; [| reflexivity]. in_events Hin.
  - apply run_statement_raise in Hins. subst d2.
    split; [| intros e _; reflexivity].
    intros e Hin. apply Hfirst in Hin; [| reflexivity]. in_events Hin.
    cbn. repeat split; auto. apply touched_updated_at.
Qed.

Lemma add_message_not_atomic_witness :
  In (EvExecute (InsertMessage (epoch_millis Concrete.platform Sample.t1)
                   Sample.chat1 "user" "hi" Sample.t1
                   (json_dumps Concrete.platform (or_empty None)))
                (Some (DatabaseError 7)))
     (events_of (add_message Concrete.platform Sample.t1 Sample.chat1 "user" "hi"
                   None (Sample.connected Sample.one_chat (Sample.fail_at 2)))) /\
  result_of (add_message Concrete.platform Sample.t1 Sample.chat1 "user" "hi"
               None (Sample.connected Sample.one_chat (Sample.fail_at 2)))
    = Raise (DatabaseError 7) /\
  db (state_of (add_message Concrete.platform Sample.t1 Sample.chat1 "user" "hi"
                  None (Sample.connected Sample.one_chat (Sample.fail_at 2))))
    = {| chats := [{| chat_id := Sample.chat1; chat_created_at := Sample.t0;
                      chat_updated_at := Sample.t1; chat_metadata := "{}" |}];
         messages := [] |}.
Proof.
  assert (Hin :
    In (EvExecute (InsertMessage (epoch_millis Concrete.platform Sample.t1)
                     Sample.chat1 "user" "hi" Sample.t1
                     (json_dumps Concrete.platform (or_empty None)))
                  (Some (DatabaseError 7)))
       (events_of (add_message Concrete.platform Sample.t1 Sample.chat1 "user" "hi"
                     None (Sample.connected Sample.one_chat (Sample.fail_at 2))))).
  { vm_compute. auto. }
  split; [exact Hin |].
  destruct (add_message_not_atomic Concrete.platform Sample.t1 Sample.chat1
              "user" "hi" None
              (Sample.connected Sample.one_chat (Sample.fail_at 2))) as [H _].
  destruct (H (DatabaseError 7) Hin) as (Hr & Hd & _).
  split; [exact Hr | rewrite Hd; reflexivity].
Defined.

(** ** A chat whose metadata cannot be decoded *)

(** X15. A chat whose stored metadata the driver hands back as a string
    that is not JSON text is out of reach.  On a store that works,
    [get_chat] logs the decoding error as a warning and gives [None] as for
    a chat that is not there; so [add_message] raises the chat-not-found
    error and [delete_chat] answers [False], and the rows stay as they
    are: the chat can be neither appended to nor deleted. *)
Theorem undecodable_chat_is_out_of_reach (P : platform) (id : string)
  (s : state) (row : chat_row) (rest : list chat_row) :
  healthy s ->
  chats_with id (db s) = row :: rest ->
  decoded P (chat_metadata row) = None ->
  (result_of (get_chat P id s) = Ok None /\
   In (WARNING, FailedToGetChat JSONDecodeError)
      (logged (events_of (get_chat P id s)))) /\
  (forall now role content metadata,
      result_of (add_message P now id role content metadata s)
        = Raise (ChatNotFound id) /\
      db (state_of (add_message P now id role content metadata s)) = db s) /\
  (result_of (delete_chat P id s) = Ok false /\
   db (state_of (delete_chat P id s)) = db s /\
   has_chat id (db (state_of (delete_chat P id s))) = true).
Proof.
  intros Hh Hrow Hdec.
  destruct (prelude_healthy s Hh) as (s1 & ev1 & E & Hc & Ht & Hd & Hh1).
  destruct (prelude_and_wait_healthy s Hh) as (s2 & ev2 & E2 & Hc2 & Ht2 & Hd2 & Hh2).
  split; [| split].
  - rewrite get_chat_eq, run_after_prelude, E.
    rewrite (get_chat_try_open P id s1 Hc), Hh1, Hd, Hrow, Hdec. cbn.
    split; [reflexivity |]. rewrite logged_app. apply in_or_app. right. cbn. auto.
  - intros now role content metadata.
    rewrite add_message_eq, run_after_prelude, E.
    rewrite (add_message_try_prepared P now id role content metadata s1 Hc Ht).
    rewrite Hh1, Hd, Hrow, Hdec. cbn. auto.
  - rewrite delete_chat_eq, run_after, E2.
    rewrite (delete_chat_try_prepared P id s2 Hc2 Ht2).
    rewrite Hh2, Hd2, Hrow, Hdec. cbn.
    split; [reflexivity |]. split; [exact Hd2 |].
    rewrite Hd2. apply (chats_with_has_chat _ _ _ _ Hrow).
Qed.

Lemma undecodable_chat_is_out_of_reach_witness :
  healthy (Sample.ready Sample.one_chat) /\
  result_of (create_chat Concrete.platform Sample.chat2 Sample.t1
               (Some (JStr "draft")) (Sample.ready Sample.one_chat))
    = Ok Sample.chat2 /\
  result_of (get_chat Concrete.platform Sample.chat2
               (state_of (create_chat Concrete.platform Sample.chat2 Sample.t1
                            (Some (JStr "draft")) (Sample.ready Sample.one_chat))))
    = Ok None /\
  result_of (delete_chat Concrete.platform Sample.chat2
               (state_of (create_chat Concrete.platform Sample.chat2 Sample.t1
                            (Some (JStr "draft")) (Sample.ready Sample.one_chat))))
    = Ok false.
Proof.
  assert (Hh : healthy
                 (state_of (create_chat Concrete.platform Sample.chat2 Sample.t1
                              (Some (JStr "draft")) (Sample.ready Sample.one_chat))))
    by (intros n; reflexivity).
  split; [intros n; reflexivity |]. split; [reflexivity |].
  destruct (undecodable_chat_is_out_of_reach Concrete.platform Sample.chat2
              (state_of (create_chat Concrete.platform Sample.chat2 Sample.t1
                           (Some (JStr "draft")) (Sample.ready Sample.one_chat)))
              {| chat_id := Sample.chat2; chat_created_at := Sample.t1;
                 chat_updated_at := Sample.t1;
                 chat_metadata := Concrete.dumps (JStr "draft") |}
              [] Hh eq_refl eq_refl) as ((Hget & _) & _ & Hdel & _).
  split; [exact Hget | exact Hdel].
Defined.

(** ** Deleting a chat *)

Lemma filter_filter_other {A} (p q : A -> bool) l :
  (forall x, p x = true -> q x = true) ->
  filter p (filter q l) = filter p l.
Proof.
  intros H. induction l as [| x l IH]; cbn; [reflexivity |].
  destruct (q x) eqn:Hq; cbn.
  - now rewrite IH.
  - destruct (p x) eqn:Hp; [| exact IH].
    apply H in Hp. congruence.
Qed.

Lemma filter_none {A} (p q : A -> bool) l :
  (forall x, p x = true -> q x = false) -> filter p (filter q l) = [].
Proof.
  intros H. induction l as [| x l IH]; cbn; [reflexivity |].
  destruct (q x) eqn:Hq; cbn; [| exact IH].
  destruct (p x) eqn:Hp; [| exact IH].
  apply H in Hp. congruence.
Qed.

Lemma rows_of_deleted id d :
  rows_of id (snd (run_statement (DeleteChat id) d)) = ([], []).
Proof.
  unfold rows_of, chats_with. cbn. f_equal.
  - apply filter_none. intros c Hc. unfold not_chat. now rewrite Hc.
  - apply filter_none. intros m Hm. now rewrite Hm.
Qed.

Lemma rows_of_other_deleted id other d :
  other <> id ->
  rows_of other (snd (run_statement (DeleteChat id) d)) = rows_of other d.
Proof.
  intros Hne. unfold rows_of, chats_with. cbn. f_equal.
  - apply filter_filter_other. intros c Hc. unfold not_chat.
    apply String.eqb_eq in Hc. rewrite Hc.
    apply negb_true_iff, String.eqb_neq, Hne.
  - apply filter_filter_other. intros m Hm. unfold of_chat in *.
    apply String.eqb_eq in Hm. rewrite Hm.
    apply negb_true_iff, String.eqb_neq, Hne.
Qed.

Section Deleting.

Variable P : platform.

(** The rows [delete_chat] leaves: those it found, or those without the
    chat, after it answered [True]. *)
Lemma delete_chat_outcome id s :
  db (state_of (delete_chat P id s)) = db s \/
  (result_of (delete_chat P id s) = Ok true /\
   db (state_of (delete_chat P id s)) = snd (run_statement (DeleteChat id) (db s)) /\
   conn (state_of (delete_chat P id s)) = Some ConnOpen /\
   tables_created (state_of (delete_chat P id s)) = true).
Proof.
  rewrite delete_chat_eq, run_after.
  pose proof (prelude_and_wait_same_store s) as [(Hd & _) _].
  destruct (prelude_and_wait s) as [[[[] | e] s1] ev1] eqn:E; cbn in Hd;
    [| left; exact Hd].
  destruct (prelude_and_wait_ok _ _ _ E) as (Hc & Ht & _).
  rewrite (delete_chat_try_prepared P id s1 Hc Ht).
  destruct (faults s1 (ticks s1)) as [[e1 drops1] |]; [left; exact Hd |].
  destruct (chats_with id (db s1)) as [| row rest]; [left; exact Hd |].
  destruct (decoded P (chat_metadata row)); [| left; exact Hd].
  destruct (faults s1 (S (ticks s1))) as [[e2 drops2] |]; [left; exact Hd |].
  right. cbn. rewrite Hd. auto.
Qed.

End Deleting.

(** X16. Deleting a chat takes its messages with it.  On a store that
    works, [delete_chat] on a chat that is there (with metadata that can be
    decoded) answers [True].  After any call that answered [True] no row
    of the chat is left in either table, a [get_chat] of the id gives
    [None], and a [get_messages] of the id that returns gives the empty
    list. *)
Theorem delete_chat_cascades (P : platform) (id : string) (s : state) :
  (healthy s ->
   forall row rest metadata,
     chats_with id (db s) = row :: rest ->
     decoded P (chat_metadata row) = Some metadata ->
     result_of (delete_chat P id s) = Ok true) /\
  (result_of (delete_chat P id s) = Ok true ->
   rows_of id (db (state_of (delete_chat P id s))) = ([], []) /\
   result_of (get_chat P id (state_of (delete_chat P id s))) = Ok None /\
   forall views,
     result_of (get_messages P id (state_of (delete_chat P id s))) = Ok views ->
     views = []).
Proof.
  split.
  - intros Hh row rest metadata Hrow Hdec.
    destruct (prelude_and_wait_healthy s Hh)
      as (s2 & ev2 & E2 & Hc2 & Ht2 & Hd2 & Hh2).
    rewrite delete_chat_eq, run_after, E2.
    rewrite (delete_chat_try_prepared P id s2 Hc2 Ht2).
    rewrite !Hh2, Hd2, Hrow, Hdec. reflexivity.
  - intros Hr.
    assert (H : db (state_of (delete_chat P id s))
                  = snd (run_statement (DeleteChat id) (db s)) /\
                conn (state_of (delete_chat P id s)) = Some ConnOpen /\
                tables_created (state_of (delete_chat P id s)) = true).
    { destruct (delete_chat_outcome P id s) as [Hsame | (_ & H)]; [| exact H].
      exfalso. revert Hr Hsame.
      rewrite delete_chat_eq, run_after.
      destruct (prelude_and_wait s) as [[[[] | e] s1] ev1] eqn:E;
        [| discriminate].
      destruct (prelude_and_wait_ok _ _ _ E) as (Hc & Ht & Hd & _).
      rewrite (delete_chat_try_prepared P id s1 Hc Ht).
      destruct (faults s1 (ticks s1)) as [[e1 drops1] |]; [discriminate |].
      destruct (chats_with id (db s1)) as [| row rest] eqn:Hrow; [discriminate |].
      destruct (decoded P (chat_metadata row)); [| discriminate].
      destruct (faults s1 (S (ticks s1))) as [[e2 drops2] |]; [discriminate |].
      cbn. intros _ Hsame.
      assert (Hlen : length (filter (not_chat id) (chats (db s1)))
                     = length (chats (db s1))).
      { pose proof (f_equal chats Hsame) as Hx. cbn in Hx.
        rewrite <- Hd in Hx. exact (f_equal (@length chat_row) Hx). }
      pose proof (chats_with_length id (chats (db s1))) as Hsum.
      fold (chats_with id (db s1)) in Hsum. rewrite Hrow in Hsum.
      unfold not_chat in Hlen. cbn in Hsum. lia. }
    destruct H as (Hd & Hc & Ht).
    split; [rewrite Hd; apply rows_of_deleted |].
    assert (Hrows : rows_of id (db (state_of (delete_chat P id s))) = ([], []))
      by (rewrite Hd; apply rows_of_deleted).
    unfold rows_of in Hrows. inversion Hrows as [[Hchats Hmsgs]].
    split.
    + rewrite (get_chat_prepared P id _ Hc Ht).
      apply get_chat_try_absent.
      unfold has_chat. rewrite Hd. cbn. apply has_chat_after_delete.
    + intros views Hviews.
      destruct (get_messages_returned P id _ views Hviews) as [Hshown _].
      rewrite Hmsgs in Hshown. cbn in Hshown. now inversion Hshown.
Qed.

Lemma delete_chat_cascades_witness :
  healthy (Sample.ready Sample.unordered) /\
  result_of (delete_chat Concrete.platform Sample.chat1
               (Sample.ready Sample.unordered)) = Ok true /\
  rows_of Sample.chat1
    (db (state_of (delete_chat Concrete.platform Sample.chat1
                     (Sample.ready Sample.unordered)))) = ([], []).
Proof.
  assert (Hh : healthy (Sample.ready Sample.unordered)) by (intros n; reflexivity).
  destruct (delete_chat_cascades Concrete.platform Sample.chat1
              (Sample.ready Sample.unordered)) as [Hyes Hgone].
  assert (Hr : result_of (delete_chat Concrete.platform Sample.chat1
                            (Sample.ready Sample.unordered)) = Ok true).
  { apply (Hyes Hh {| chat_id := Sample.chat1; chat_created_at := Sample.t0;
                      chat_updated_at := (Sample.t0 + 9000)%Z;
                      chat_metadata := "{}" |} [] (JObj []));
      reflexivity. }
  split; [exact Hh |]. split; [exact Hr |].
  apply (Hgone Hr).
Defined.

(** ** One chat at a time *)

Lemma chats_with_other_touched now id other l :
  other <> id ->
  filter (fun c => String.eqb (chat_id c) other) (map (touch now id) l) =
  filter (fun c => String.eqb (chat_id c) other) l.
Proof.
  intros Hne. induction l as [| c l IH]; cbn; [reflexivity |].
  rewrite touch_id, IH.
  destruct (String.eqb (chat_id c) other) eqn:Hc; [| reflexivity].
  f_equal. unfold touch.
  destruct (String.eqb (chat_id c) id) eqn:Hid; [| reflexivity].
  apply String.eqb_eq in Hc, Hid. congruence.
Qed.

Section Outcome.

Variable P : platform.

(** The rows [add_message] leaves: those it found, those with the chat's
    [updated_at] set, or those with the message appended as well. *)
Lemma add_message_outcome now id role content metadata s :
  db (state_of (add_message P now id role content metadata s)) = db s \/
  db (state_of (add_message P now id role content metadata s)) =
    {| chats := map (touch now id) (chats (db s)); messages := messages (db s) |} \/
  exists chat' role',
    varchar 36 id = Some chat' /\ varchar 50 role = Some role' /\
    db (state_of (add_message P now id role content metadata s)) =
      {| chats := map (touch now id) (chats (db s));
         messages := messages (db s) ++
                     [new_message P now chat' role' content metadata] |}.
Proof.
  rewrite add_message_eq, run_after_prelude.
  pose proof (prelude_same_store s) as [(Hd & _) _].
  destruct (prelude s) as [[[[] | e0] s1] ev1] eqn:E; cbn in Hd;
    [| left; exact Hd].
  destruct (prelude_ok _ _ _ E) as [Hc Ht].
  rewrite (add_message_try_prepared P now id role content metadata s1 Hc Ht).
  rewrite Hd.
  destruct (faults s1 (ticks s1)) as [[e1 drops1] |]; [left; exact Hd |].
  destruct (chats_with id (db s)) as [| row rest]; [left; exact Hd |].
  destruct (decoded P (chat_metadata row)); [| left; exact Hd].
  destruct (faults s1 (S (ticks s1))) as [[e2 drops2] |]; [left; exact Hd |].
  cbv zeta.
  destruct (faults s1 (S (S (ticks s1)))) as [[e3 drops3] |];
    [right; left; reflexivity |].
  destruct (run_statement _ (snd (run_statement (UpdateChat now id) (db s))))
    as [[c | e4] d2] eqn:Hins.
  - apply insert_message_ok in Hins.
    destruct Hins as (chat' & role' & Hv1 & Hv2 & _ & _ & _ & ->).
    right; right. exists chat', role'. auto.
  - apply run_statement_raise in Hins. subst d2. right; left. reflexivity.
Qed.

End Outcome.

(** X17. The methods that write touch the rows of one chat only.  Whatever
    the store fails, [create_chat], [add_message] and [delete_chat] on an
    id that fits the column leave the rows of every other chat (its row of
    the chats table and its messages) exactly as they were. *)
Theorem chats_are_isolated (P : platform) (id other : string) (s : state) :
  other <> id ->
  (String.length id <= 36)%nat ->
  (forall now metadata,
      rows_of other (db (state_of (create_chat P id now metadata s)))
        = rows_of other (db s)) /\
  (forall now role content metadata,
      rows_of other (db (state_of (add_message P now id role content metadata s)))
        = rows_of other (db s)) /\
  rows_of other (db (state_of (delete_chat P id s))) = rows_of other (db s).
Proof.
  intros Hne Hlen.
  assert (Hother : String.eqb id other = false)
    by (apply String.eqb_neq; congruence).
  split; [| split].
  - intros now metadata.
    destruct (create_chat_outcome P id now metadata s)
      as [(id' & Hv & _ & _ & Hd) | (e & _ & Hd)]; rewrite Hd; [| reflexivity].
    rewrite (varchar_fits 36 id Hlen) in Hv. inversion Hv; subst id'.
    unfold rows_of, chats_with. cbn [chats messages].
    rewrite filter_app. cbn. rewrite Hother. now rewrite app_nil_r.
  - intros now role content metadata.
    destruct (add_message_outcome P now id role content metadata s)
      as [Hd | [Hd | (chat' & role' & Hv & _ & Hd)]]; rewrite Hd.
    + reflexivity.
    + unfold rows_of, chats_with. cbn [chats messages].
      now rewrite (chats_with_other_touched now id other _ Hne).
    + rewrite (varchar_fits 36 id Hlen) in Hv. inversion Hv; subst chat'.
      unfold rows_of, chats_with. cbn [chats messages].
      rewrite (chats_with_other_touched now id other _ Hne), filter_app.
      cbn. unfold of_chat at 2. cbn. rewrite Hother. now rewrite app_nil_r.
  - destruct (delete_chat_outcome P id s) as [Hd | (_ & Hd & _)]; rewrite Hd.
    + reflexivity.
    + now apply rows_of_other_deleted.
Qed.

Lemma chats_are_isolated_witness :
  Sample.chat2 <> Sample.chat1 /\
  (String.length Sample.chat1 <= 36)%nat /\
  rows_of Sample.chat2
    (db (state_of (delete_chat Concrete.platform Sample.chat1
                     (Sample.ready Sample.unordered))))
    = rows_of Sample.chat2 (db (Sample.ready Sample.unordered)).
Proof.
  assert (Hne : Sample.chat2 <> Sample.chat1) by discriminate.
  assert (Hlen : (String.length Sample.chat1 <= 36)%nat) by (cbn; lia).
  split; [exact Hne |]. split; [exact Hlen |].
  apply (chats_are_isolated Concrete.platform Sample.chat1 Sample.chat2
           (Sample.ready Sample.unordered) Hne Hlen).
Defined.

(** ** A message whose metadata cannot be decoded *)

Lemma convert_rows_undecodable (P : platform) rows s :
  (exists row, In row rows /\ decoded P (msg_metadata row) = None) ->
  result_of (convert_rows P rows s) = Raise JSONDecodeError.
Proof.
  induction rows as [| r rows IH]; intros (row & Hin & Hdec);
    [destruct Hin |].
  rewrite convert_rows_cons.
  destruct (decoded P (msg_metadata r)) as [md |] eqn:Hr; [| reflexivity].
  rewrite IH; [reflexivity |].
  destruct Hin as [-> | Hin]; [congruence | eauto].
Qed.

(** X18. One message whose stored metadata the driver hands back as a
    string that is not JSON text makes the whole chat unlistable: on a
    store that works, [get_messages] of its chat logs at error level and
    raises the decoding error, where [get_chat] would have given [None];
    no row is changed. *)
Theorem undecodable_message_fails_listing (P : platform) (id : string)
  (s : state) (row : message_row) :
  healthy s ->
  In row (messages (db s)) ->
  msg_chat_id row = id ->
  decoded P (msg_metadata row) = None ->
  result_of (get_messages P id s) = Raise JSONDecodeError /\
  In (ERROR, FailedToGetMessages JSONDecodeError)
     (logged (events_of (get_messages P id s))) /\
  db (state_of (get_messages P id s)) = db s.
Proof.
  intros Hh Hin Hid Hdec.
  destruct (prelude_and_wait_healthy s Hh)
    as (s2 & ev2 & E2 & Hc2 & Ht2 & Hd2 & Hh2).
  rewrite get_messages_eq, run_after, E2.
  rewrite (get_messages_try_open P id s2 Hc2), Hh2. cbv zeta.
  rewrite convert_rows_undecodable.
  - cbn. split; [reflexivity |]. split; [| exact Hd2].
    rewrite logged_app. apply in_or_app. right. cbn. auto.
  - exists row. split; [| exact Hdec].
    eapply Permutation_in; [symmetry; apply order_by_created_at_perm |].
    apply filter_In. rewrite Hd2. split; [exact Hin |].
    unfold of_chat. rewrite Hid. apply String.eqb_refl.
Qed.

Lemma undecodable_message_fails_listing_witness :
  healthy (Sample.ready Sample.one_chat) /\
  result_of (add_message Concrete.platform Sample.t1 Sample.chat1 "user" "hi"
               (Some (JStr "draft")) (Sample.ready Sample.one_chat))
    = Ok (1700000005000%Z, "2023-11-14T22:13:25.000123") /\
  result_of (get_messages Concrete.platform Sample.chat1
               (state_of (add_message Concrete.platform Sample.t1 Sample.chat1
                            "user" "hi" (Some (JStr "draft"))
                            (Sample.ready Sample.one_chat))))
    = Raise JSONDecodeError.
Proof.
  split; [intros n; reflexivity |]. split; [vm_compute; reflexivity |].
  refine (proj1 (undecodable_message_fails_listing Concrete.platform Sample.chat1
           (state_of (add_message Concrete.platform Sample.t1 Sample.chat1
                        "user" "hi" (Some (JStr "draft"))
                        (Sample.ready Sample.one_chat)))
           (new_message Concrete.platform Sample.t1 Sample.chat1 "user" "hi"
              (Some (JStr "draft"))) _ _ _ _)).
  - intros n; vm_compute; reflexivity.
  - vm_compute. left; reflexivity.
  - vm_compute; reflexivity.
  - vm_compute; reflexivity.
Defined.
